(** * WhatsApp-Bitrix24 campaign dispatch pipeline

    A shallow embedding of the durable work queue ([lib/queue.js]), the
    phone helper ([lib/phone.js]), the messaging client ([lib/wa.js]), the
    dispatch worker (the script that runs [tick] on a timer) and the
    campaign and webhook handlers of the API server, with the properties of
    the dispatch pipeline stated and proved over it.

    Conventions of the embedding:
    - a SQLite table is the list of its rows in insertion order together with
      the largest rowid handed out so far (the [sqlite_sequence] entry of an
      AUTOINCREMENT table);
    - JavaScript integers are [Z]; timestamps written with
      [new Date().toISOString()] are kept as the epoch milliseconds of the
      [Date] they were rendered from;
    - the wall clock, the messaging provider and the process environment are
      explicit inputs; HTTP calls and CRM notifications are recorded in a log
      carried by the state. *)

From Stdlib Require Import ZArith List String Ascii Bool Lia Permutation Sorted.
From Stdlib Require Import DecimalString.
Import ListNotations.
Open Scope string_scope.
Open Scope Z_scope.

(* ================================================================= *)
(** * Part I: the model *)
(* ================================================================= *)

(** ** Tables *)

Record Table (A : Type) : Type := mkTable {
  rows : list A;       (* rows in insertion order *)
  seq  : Z             (* largest rowid ever handed out *)
}.
Arguments mkTable {A} _ _.
Arguments rows {A} _.
Arguments seq {A} _.

Definition empty_table {A} : Table A := mkTable [] 0.

Definition max_rowid {A} (rowid : A -> Z) (l : list A) : Z :=
  fold_right (fun r m => Z.max (rowid r) m) 0 l.

(** [INSERT] into an [INTEGER PRIMARY KEY AUTOINCREMENT] table: the new rowid
    is one more than the largest rowid ever used. *)
Definition next_rowid {A} (rowid : A -> Z) (t : Table A) : Z :=
  Z.max (seq t) (max_rowid rowid (rows t)) + 1.

Definition insert_row {A} (rowid : A -> Z) (mk : Z -> A) (t : Table A) : Table A :=
  let id := next_rowid rowid t in
  mkTable (rows t ++ [mk id]) id.

(** [UPDATE t SET ... WHERE p]: every row satisfying [p] is rewritten in place. *)
Definition update_where {A} (p : A -> bool) (f : A -> A) (t : Table A) : Table A :=
  mkTable (map (fun r => if p r then f r else r) (rows t)) (seq t).

(** [SELECT * FROM t WHERE p] followed by [.get()]: the first matching row. *)
Definition select_first {A} (p : A -> bool) (t : Table A) : option A :=
  find p (rows t).

(** ** The queue table ([schema.sql], [queue.js]) *)

Inductive QueueStatus : Type := QQueued | QProcessing | QDone | QFailed.

Definition QueueStatus_eqb (a b : QueueStatus) : bool :=
  match a, b with
  | QQueued, QQueued | QProcessing, QProcessing
  | QDone, QDone | QFailed, QFailed => true
  | _, _ => false
  end.

Record QueueRow : Type := mkQueueRow {
  q_id           : Z;
  q_campaign_id  : Z;
  q_target_id    : Z;
  q_phone_id     : string;
  q_available_at : Z;            (* epoch ms *)
  q_attempts     : Z;
  q_status       : QueueStatus
}.

(** The columns [fetchBatch] selects:
    [SELECT id, campaign_id, target_id, phone_id, attempts]. *)
Record Job : Type := mkJob {
  job_id          : Z;
  job_campaign_id : Z;
  job_target_id   : Z;
  job_phone_id    : string;
  job_attempts    : Z
}.

Module Queue.

Definition job_of (r : QueueRow) : Job :=
  mkJob (q_id r) (q_campaign_id r) (q_target_id r) (q_phone_id r) (q_attempts r).

Definition set_status (s : QueueStatus) (r : QueueRow) : QueueRow :=
  mkQueueRow (q_id r) (q_campaign_id r) (q_target_id r) (q_phone_id r)
             (q_available_at r) (q_attempts r) s.

Definition has_id (id : Z) (r : QueueRow) : bool := q_id r =? id.

(** [enqueueTarget]: one row, [available_at = now]; [attempts] and [status]
    take the column defaults [0] and ['queued']. *)
Definition enqueueTarget (now : Z) (campaign_id target_id : Z) (phone_id : string)
    (q : Table QueueRow) : Table QueueRow :=
  insert_row q_id
    (fun id => mkQueueRow id campaign_id target_id phone_id now 0 QQueued) q.

(** [WHERE status='queued' AND available_at<=?] *)
Definition eligible (now : Z) (r : QueueRow) : bool :=
  QueueStatus_eqb (q_status r) QQueued && (q_available_at r <=? now).

(** [ORDER BY id ASC], as a stable insertion sort on the rowid. *)
Fixpoint insert_by_id (r : QueueRow) (l : list QueueRow) : list QueueRow :=
  match l with
  | [] => [r]
  | x :: l' => if q_id r <? q_id x then r :: x :: l' else x :: insert_by_id r l'
  end.

Fixpoint order_by_id (l : list QueueRow) : list QueueRow :=
  match l with
  | [] => []
  | x :: l' => insert_by_id x (order_by_id l')
  end.

(** [LIMIT ?]: SQLite reads a negative bound as "no limit". *)
Definition sql_limit {A} (n : Z) (l : list A) : list A :=
  if n <? 0 then l else firstn (Z.to_nat n) l.

Definition select_batch (now limit : Z) (q : Table QueueRow) : list QueueRow :=
  sql_limit limit (order_by_id (filter (eligible now) (rows q))).

(** [UPDATE queue SET status='processing' WHERE id=?] *)
Definition mark_processing (q : Table QueueRow) (id : Z) : Table QueueRow :=
  update_where (has_id id) (set_status QProcessing) q.

(** [fetchBatch]: select and mark inside one transaction; the selected rows
    are returned as they were read. *)
Definition fetchBatch (now limit : Z) (q : Table QueueRow)
    : list Job * Table QueueRow :=
  let selected := select_batch now limit q in
  let ids := map q_id selected in
  (map job_of selected, fold_left mark_processing ids q).

(** [markDone] *)
Definition markDone (id : Z) (q : Table QueueRow) : Table QueueRow :=
  update_where (has_id id) (set_status QDone) q.

(** [backoffMs * Math.min(attempts, 10)] *)
Definition backoff_delay (backoffMs attempts : Z) : Z :=
  backoffMs * Z.min attempts 10.

Definition requeue (attempts avail : Z) (r : QueueRow) : QueueRow :=
  mkQueueRow (q_id r) (q_campaign_id r) (q_target_id r) (q_phone_id r)
             avail attempts QQueued.

(** [markFailed]: [(row?.attempts ?? 0) + 1] attempts, pushed-out
    [available_at], status back to ['queued']. *)
Definition markFailed (now : Z) (id : Z) (backoffMs : Z) (q : Table QueueRow)
    : Table QueueRow :=
  let row := select_first (has_id id) q in
  let attempts := match row with Some r => q_attempts r | None => 0 end + 1 in
  let avail := now + backoff_delay backoffMs attempts in
  update_where (has_id id) (requeue attempts avail) q.

(** Vocabulary of the statements about the queue: the order of rowids, and
    the rows a batch has claimed (those whose rowid is among the returned
    ones). *)
Definition le_id (a b : QueueRow) : Prop := q_id a <= q_id b.
Definition lt_id (a b : QueueRow) : Prop := q_id a < q_id b.

Definition claimed (jobs : list Job) (r : QueueRow) : bool :=
  existsb (fun j => job_id j =? q_id r) jobs.

(** The primary key of the queue table: no two rows share a rowid. *)
Definition distinct_ids (q : Table QueueRow) : Prop := NoDup (map q_id (rows q)).

End Queue.

(** ** JavaScript strings and values *)

Module JS.

Definition is_digit (c : ascii) : bool :=
  let n := nat_of_ascii c in (48 <=? n)%nat && (n <=? 57)%nat.

(** White space removed by [String.prototype.trim], restricted to the ASCII
    range: tab, line feed, vertical tab, form feed, carriage return, space. *)
Definition is_space (c : ascii) : bool :=
  let n := nat_of_ascii c in
  ((9 <=? n)%nat && (n <=? 13)%nat) || (n =? 32)%nat.

Fixpoint filter_chars (p : ascii -> bool) (s : string) : string :=
  match s with
  | EmptyString => EmptyString
  | String c s' => if p c then String c (filter_chars p s') else filter_chars p s'
  end.

Fixpoint all_chars (p : ascii -> bool) (s : string) : bool :=
  match s with
  | EmptyString => true
  | String c s' => p c && all_chars p s'
  end.

(** [s.replace(/[^0-9]/g, '')], also written [s.replace(/\D/g, '')]. *)
Definition digits_only (s : string) : string := filter_chars is_digit s.

Fixpoint drop_while (p : ascii -> bool) (s : string) : string :=
  match s with
  | EmptyString => EmptyString
  | String c s' => if p c then drop_while p s' else s
  end.

Fixpoint rev_string (s : string) : string :=
  match s with
  | EmptyString => EmptyString
  | String c s' => rev_string s' ++ String c EmptyString
  end.

Definition trim (s : string) : string :=
  rev_string (drop_while is_space (rev_string (drop_while is_space s))).

(** [s.slice(n)] for a non-negative [n]. *)
Fixpoint drop (n : nat) (s : string) : string :=
  match n, s with
  | O, _ => s
  | S _, EmptyString => EmptyString
  | S n', String _ s' => drop n' s'
  end.

(** [s.slice(0, n)] for a non-negative [n]. *)
Fixpoint take (n : nat) (s : string) : string :=
  match n, s with
  | O, _ => EmptyString
  | S _, EmptyString => EmptyString
  | S n', String c s' => String c (take n' s')
  end.

(** [p] is a prefix of [s]: [s.startsWith(p)]. *)
Definition startsWith (s p : string) : bool := String.prefix p s.

(** Truthiness of a string: only [''] is falsy. *)
Definition nonempty (s : string) : bool :=
  match s with EmptyString => false | _ => true end.

(** [s.split(c)] for a one-character separator. *)
Fixpoint split (c : ascii) (s : string) : list string :=
  match s with
  | EmptyString => [EmptyString]
  | String x s' =>
      if Ascii.eqb x c then EmptyString :: split c s'
      else match split c s' with
           | piece :: pieces => String x piece :: pieces
           | [] => [String x EmptyString]
           end
  end.

Definition digit_value (c : ascii) : Z := Z.of_nat (nat_of_ascii c) - 48.

Fixpoint decimal_go (acc : Z) (s : string) : Z :=
  match s with
  | EmptyString => acc
  | String c s' => decimal_go (10 * acc + digit_value c) s'
  end.

(** [Number(s)] on the strings this code meets: white space is trimmed, the
    empty string is [0], a run of decimal digits is its value, and anything
    else is [NaN], written [None].  Signs, fractions, exponents and radix
    prefixes are outside this model. *)
Definition Number (s : string) : option Z :=
  let t := trim s in
  if all_chars is_digit t then Some (decimal_go 0 t) else None.

(** A JSON value as [JSON.parse] returns it; an object lists its properties
    in the order [Object.values] enumerates them.  Numbers are the integers. *)
#[warnings="-register-all"]
Inductive JVal : Type :=
  | JNull : JVal
  | JBool : bool -> JVal
  | JNum  : Z -> JVal
  | JStr  : string -> JVal
  | JArr  : list JVal -> JVal
  | JObj  : list (string * JVal) -> JVal.

Definition truthy (v : JVal) : bool :=
  match v with
  | JNull => false
  | JBool b => b
  | JNum n => negb (n =? 0)
  | JStr s => nonempty s
  | JArr _ | JObj _ => true
  end.

Definition decimal_of_Z (n : Z) : string :=
  match n with
  | Z0 => "0"
  | Zpos p => DecimalString.NilEmpty.string_of_uint (Pos.to_uint p)
  | Zneg p => "-" ++ DecimalString.NilEmpty.string_of_uint (Pos.to_uint p)
  end.

(** [String(v)]; an array is its elements joined by commas, [null] elements
    rendered empty. *)
Fixpoint toString (v : JVal) : string :=
  match v with
  | JNull => "null"
  | JBool true => "true"
  | JBool false => "false"
  | JNum n => decimal_of_Z n
  | JStr s => s
  | JArr l =>
      (fix join_elements (l : list JVal) : string :=
         match l with
         | [] => EmptyString
         | x :: l' =>
             let sx := match x with JNull => EmptyString | _ => toString x end in
             match l' with
             | [] => sx
             | _ => sx ++ "," ++ join_elements l'
             end
         end) l
  | JObj _ => "[object Object]"
  end.

Fixpoint chars_of (s : string) : list JVal :=
  match s with
  | EmptyString => []
  | String c s' => JStr (String c EmptyString) :: chars_of s'
  end.

(** [Object.values(v)]: [None] is the [TypeError] raised on [null]. *)
Definition Object_values (v : JVal) : option (list JVal) :=
  match v with
  | JNull => None
  | JBool _ | JNum _ => Some []
  | JStr s => Some (chars_of s)
  | JArr l => Some l
  | JObj kvs => Some (map snd kvs)
  end.

End JS.

(** ** The phone helper ([phone.js]) *)

Module Phone.

Fixpoint strip_zeros (s : string) : string :=
  match s with
  | String "0"%char s' => strip_zeros s'
  | _ => s
  end.

(** [normalizePhone(raw, { defaultCountryCode })]; [raw = None] is [null] or
    [undefined], otherwise the argument after [String(raw)]. *)
Definition normalizePhone (raw : option string) (defaultCountryCode : string) : string :=
  match raw with
  | None => ""
  | Some r =>
      let cc := JS.digits_only defaultCountryCode in
      let digits := JS.digits_only (JS.trim r) in
      if negb (JS.nonempty digits) then "" else
      let digits := if JS.startsWith digits "00" then JS.drop 2 digits else digits in
      let digits := if JS.startsWith digits "0" && JS.nonempty cc
                    then cc ++ JS.drop 1 digits else digits in
      let digits := if JS.nonempty cc && negb (JS.startsWith digits cc)
                       && (String.length digits <=? 10)%nat
                    then cc ++ digits else digits in
      strip_zeros digits
  end.

(** [/^\d{7,15}$/.test(phone)] *)
Definition isLikelyValidPhone (phone : string) : bool :=
  JS.all_chars JS.is_digit phone
  && (7 <=? String.length phone)%nat && (String.length phone <=? 15)%nat.

End Phone.


(** ** The relational store ([schema.sql]) *)

Inductive CampaignStatus : Type :=
  CDraft | CScheduled | CRunning | CPaused | CDone | CError | CCanceled.

Inductive TargetStatus : Type :=
  TQueued | TSending | TSent | TDelivered | TRead | TFailed | TCanceled.

Record Campaign : Type := mkCampaign {
  c_id              : Z;
  c_name            : string;
  c_template_name   : string;
  c_language        : string;
  c_sender_phone_id : string;
  c_status          : CampaignStatus;
  c_created_at      : Z;
  c_total_targets   : Z;
  c_meta_json       : option JS.JVal
}.

(** The text of a [vars_json] column: either it parses to a value, or
    [JSON.parse] throws a [SyntaxError] with the given message. *)
Inductive VarsJson : Type :=
  | VarsValid (v : JS.JVal)
  | VarsInvalid (syntax_error_message : string).

Record Target : Type := mkTarget {
  t_id            : Z;
  t_campaign_id   : Z;
  t_phone         : string;
  t_vars_json     : VarsJson;
  t_status        : TargetStatus;
  t_last_error    : option string;
  t_wa_message_id : option string;
  t_created_at    : Z;
  t_updated_at    : Z
}.

(** The provider payload pieces rendered by the worker. *)
Record TextParam : Type := mkTextParam { par_type : string; par_text : string }.
Record Component : Type := mkComponent {
  comp_type : string; comp_parameters : list TextParam
}.

(** The body of a 2xx answer of the messaging API:
    [{ messages: [{ id: 'wamid...' }] }], every level possibly absent. *)
Record WaMessage : Type := mkWaMessage { wam_id : option string }.
Record WaResponse : Type := mkWaResponse { resp_messages : option (list WaMessage) }.

Record Message : Type := mkMessage {
  msg_id          : Z;
  msg_campaign_id : Z;
  msg_target_id   : Z;
  msg_payload     : list Component;          (* JSON.stringify({ components }) *)
  msg_result      : option WaResponse;       (* JSON.stringify(resp) *)
  msg_created_at  : Z
}.

(** One element of [statuses[]] and of [messages[]] in a webhook delivery. *)
Record ErrorItem : Type := mkErrorItem {
  ei_title : option string; ei_message : option string
}.
Record StatusEvent : Type := mkStatusEvent {
  se_id        : option string;
  se_status    : option string;
  se_timestamp : option string;
  se_errors    : option (list ErrorItem)     (* [None]: not an array *)
}.
Record InboundMessage : Type := mkInboundMessage {
  im_id         : option string;
  im_from       : option string;
  im_context_id : option string;
  im_text       : option string
}.

Inductive EventPayload : Type :=
  | StatusPayload (s : StatusEvent)
  | ReplyPayload (m : InboundMessage).

Record Event : Type := mkEvent {
  ev_id            : Z;
  ev_wa_message_id : option string;
  ev_type          : string;
  ev_payload       : EventPayload;
  ev_created_at    : Z
}.

Record Sender : Type := mkSender {
  s_id         : Z;
  s_phone_id   : string;
  s_display    : option string;
  s_qps        : option Z;
  s_created_at : Z
}.

Record Db : Type := mkDb {
  campaigns        : Table Campaign;
  campaign_targets : Table Target;
  messages         : Table Message;
  events           : Table Event;
  senders          : Table Sender;
  queue            : Table QueueRow
}.

Definition empty_db : Db :=
  mkDb empty_table empty_table empty_table empty_table empty_table empty_table.

Definition with_campaigns (f : Table Campaign -> Table Campaign) (d : Db) : Db :=
  mkDb (f (campaigns d)) (campaign_targets d) (messages d) (events d) (senders d) (queue d).
Definition with_targets (f : Table Target -> Table Target) (d : Db) : Db :=
  mkDb (campaigns d) (f (campaign_targets d)) (messages d) (events d) (senders d) (queue d).
Definition with_messages (f : Table Message -> Table Message) (d : Db) : Db :=
  mkDb (campaigns d) (campaign_targets d) (f (messages d)) (events d) (senders d) (queue d).
Definition with_events (f : Table Event -> Table Event) (d : Db) : Db :=
  mkDb (campaigns d) (campaign_targets d) (messages d) (f (events d)) (senders d) (queue d).
Definition with_senders (f : Table Sender -> Table Sender) (d : Db) : Db :=
  mkDb (campaigns d) (campaign_targets d) (messages d) (events d) (f (senders d)) (queue d).
Definition with_queue (f : Table QueueRow -> Table QueueRow) (d : Db) : Db :=
  mkDb (campaigns d) (campaign_targets d) (messages d) (events d) (senders d) (f (queue d)).

(** ** The outside world: clock, provider, CRM, environment *)

(** A [Date]: its epoch value and the local wall-clock fields read by
    [getHours] and [getMinutes]. *)
Record Date : Type := mkDate { epoch_ms : Z; getHours : Z; getMinutes : Z }.

(** The request [sendTemplate] posts to [WA_BASE/<phone_id>/messages]. *)
Record SendRequest : Type := mkSendRequest {
  req_phone_id      : string;
  req_token         : string;
  req_to            : string;
  req_template_name : string;
  req_language      : string;
  req_components    : list Component
}.

(** A thrown JavaScript error: [err.response.data] rendered by
    [JSON.stringify] when the error carries a response body, and
    [err.message]. *)
Record JsError : Type := mkJsError {
  err_response_data : option string;
  err_message       : string
}.

(** What [axios.post] does: resolve with the body of a 2xx answer, or reject
    (network error, non-2xx status). *)
Inductive ProviderResult : Type :=
  | Resolved (data : option WaResponse)
  | Rejected (e : JsError).

(** The text of a CRM timeline comment, by the arguments it is built from. *)
Inductive Comment : Type :=
  | StatusComment (s : StatusEvent) (errorMsg : option string)
  | ReplyComment (m : InboundMessage).

Inductive Effect : Type :=
  | HttpPost (r : SendRequest)                    (* one call of the messaging API *)
  | NotifyBitrix (t : Target) (c : Comment).      (* one call of [notifyBitrix] *)

Record Env : Type := mkEnv {
  clock    : nat -> Date;                         (* the n-th reading of the clock *)
  provider : nat -> SendRequest -> ProviderResult;  (* answer, given the calls so far *)
  WA_ACCESS_TOKEN      : string;
  WA_TEMPLATE_LANG     : string;                  (* after [|| 'es'] *)
  BATCH_SIZE           : Z;                       (* [Number(... || 20)] *)
  DELIVERY_WINDOW      : string;                  (* after [|| ''] *)
  DEFAULT_COUNTRY_CODE : string;   (* this variable, else the BITRIX_ one, else [''] *)
  WA_PHONE_NUMBER_ID   : option string;
  SENDER_QPS           : option string;
  db_failure : Z -> option JsError
    (* the error, if any, that the database raises when the worker looks up
       the campaign of the job with this rowid: SQLITE_BUSY, an I/O error *)
}.

Record World : Type := mkWorld {
  w_db    : Db;
  w_reads : nat;            (* clock readings taken so far *)
  w_log   : list Effect     (* effects issued so far, oldest first *)
}.

(** ** A state-and-exception monad for the handlers *)

Inductive Outcome (A : Type) : Type :=
  | Ret (a : A)
  | Throw (e : JsError).
Arguments Ret {A} _.
Arguments Throw {A} _.

Definition M (A : Type) : Type := World -> Outcome A * World.

Definition ret {A} (a : A) : M A := fun w => (Ret a, w).

Definition bind {A B} (m : M A) (k : A -> M B) : M B :=
  fun w => match m w with
           | (Ret a, w') => k a w'
           | (Throw e, w') => (Throw e, w')
           end.

Definition throw {A} (e : JsError) : M A := fun w => (Throw e, w).

(** [try { m } catch (err) { h err }] *)
Definition try_catch {A} (m : M A) (h : JsError -> M A) : M A :=
  fun w => match m w with
           | (Ret a, w') => (Ret a, w')
           | (Throw e, w') => h e w'
           end.

Declare Scope monad_scope.
Delimit Scope monad_scope with monad.
Notation "x <- m ;; k" := (bind m (fun x => k))
  (at level 61, m at next level, right associativity) : monad_scope.
Notation "m ;;; k" := (bind m (fun _ => k))
  (at level 61, right associativity) : monad_scope.
Open Scope monad_scope.

Definition read_db {A} (f : Db -> A) : M A := fun w => (Ret (f (w_db w)), w).

Definition run_db (f : Db -> Db) : M unit :=
  fun w => (Ret tt, mkWorld (f (w_db w)) (w_reads w) (w_log w)).

(** [new Date()] *)
Definition new_Date (env : Env) : M Date :=
  fun w => (Ret (clock env (w_reads w)), mkWorld (w_db w) (S (w_reads w)) (w_log w)).

(** [Date.now()] *)
Definition Date_now (env : Env) : M Z :=
  d <- new_Date env ;; ret (epoch_ms d).

(** [new Date().toISOString()] *)
Definition nowIso (env : Env) : M Z := Date_now env.

Definition emit (e : Effect) : M unit :=
  fun w => (Ret tt, mkWorld (w_db w) (w_reads w) (w_log w ++ [e])).

(** [for (const x of l) { f x }] *)
Fixpoint for_each {A} (f : A -> M unit) (l : list A) : M unit :=
  match l with
  | [] => ret tt
  | x :: l' => f x ;;; for_each f l'
  end.

(** ** The messaging client ([wa.js]) *)

Module Wa.

(** [h * 60 + m] after [hhmm.split(':').map(Number)]; [None] is [NaN]
    (a missing minute field is [undefined], which makes the sum [NaN]). *)
Definition toMinutes (hhmm : string) : option Z :=
  let parts := map JS.Number (JS.split ":" hhmm) in
  match nth_error parts 0, nth_error parts 1 with
  | Some (Some h), Some (Some m) => Some (h * 60 + m)
  | _, _ => None
  end.

(** [a >= b] and [a <= b] on numbers: false as soon as one side is [NaN]. *)
Definition num_ge (a b : option Z) : bool :=
  match a, b with Some x, Some y => y <=? x | _, _ => false end.
Definition num_le (a b : option Z) : bool :=
  match a, b with Some x, Some y => x <=? y | _, _ => false end.

Definition inWindow (now : Date) (windowStr : string) : bool :=
  if negb (JS.nonempty windowStr) then true else
  let parts := JS.split "-" windowStr in
  match nth_error parts 0, nth_error parts 1 with
  | Some start, Some end_ =>
      if negb (JS.nonempty start) || negb (JS.nonempty end_) then true else
      let minutes := Some (getHours now * 60 + getMinutes now) in
      let s := toMinutes start in
      let e := toMinutes end_ in
      if num_ge e s then num_ge minutes s && num_le minutes e
      else num_ge minutes s || num_le minutes e        (* crosses midnight *)
  | _, _ => true
  end.

(** [sendTemplate]: builds the payload from its arguments and posts it.
    There is no other statement between the call and the HTTP request: the
    request is always issued, and the promise resolves with [res.data] or
    rejects with the error of [axios]. *)
Definition sendTemplate (env : Env) (req : SendRequest) : M (option WaResponse) :=
  fun w =>
    let w' := mkWorld (w_db w) (w_reads w) (w_log w ++ [HttpPost req]) in
    match provider env (List.length (w_log w)) req with
    | Resolved data => (Ret data, w')
    | Rejected e => (Throw e, w')
    end.

End Wa.

(** ** The dispatch worker *)

Module Worker.

Definition has_campaign_id (id : Z) (c : Campaign) : bool := c_id c =? id.
Definition has_target_id (id : Z) (t : Target) : bool := t_id t =? id.

(** [['paused','canceled','done','error'].includes(camp.status)] *)
Definition gated (s : CampaignStatus) : bool :=
  match s with
  | CPaused | CCanceled | CDone | CError => true
  | _ => false
  end.

(** [UPDATE campaign_targets SET status=?, last_error=?, updated_at=?] *)
Definition set_failed (err : string) (now : Z) (t : Target) : Target :=
  mkTarget (t_id t) (t_campaign_id t) (t_phone t) (t_vars_json t)
           TFailed (Some err) (t_wa_message_id t) (t_created_at t) now.

(** [UPDATE campaign_targets SET status=?, updated_at=?] *)
Definition set_status (s : TargetStatus) (now : Z) (t : Target) : Target :=
  mkTarget (t_id t) (t_campaign_id t) (t_phone t) (t_vars_json t)
           s (t_last_error t) (t_wa_message_id t) (t_created_at t) now.

(** [UPDATE campaign_targets SET status=?, wa_message_id=?, updated_at=?] *)
Definition set_sent (wa_id : option string) (now : Z) (t : Target) : Target :=
  mkTarget (t_id t) (t_campaign_id t) (t_phone t) (t_vars_json t)
           TSent (t_last_error t) wa_id (t_created_at t) now.

Definition set_campaign_status (s : CampaignStatus) (c : Campaign) : Campaign :=
  mkCampaign (c_id c) (c_name c) (c_template_name c) (c_language c)
             (c_sender_phone_id c) s (c_created_at c) (c_total_targets c)
             (c_meta_json c).

Definition fetchBatch (env : Env) (limit : Z) : M (list Job) :=
  now <- Date_now env ;;
  fun w =>
    let (jobs, q') := Queue.fetchBatch now limit (queue (w_db w)) in
    (Ret jobs, mkWorld (with_queue (fun _ => q') (w_db w)) (w_reads w) (w_log w)).

Definition markDone (id : Z) : M unit :=
  run_db (with_queue (Queue.markDone id)).

Definition markFailed (env : Env) (id : Z) (backoffMs : Z) : M unit :=
  now <- Date_now env ;;
  run_db (with_queue (Queue.markFailed now id backoffMs)).

(** [JSON.parse(target.vars_json || '{}')] *)
Definition parse_vars (t : Target) : M JS.JVal :=
  match t_vars_json t with
  | VarsValid v => ret v
  | VarsInvalid msg => throw (mkJsError None msg)
  end.

(** [Object.values(vars).map(v => ({ type: 'text', text: String(v) }))] *)
Definition text_param (v : JS.JVal) : TextParam := mkTextParam "text" (JS.toString v).

Definition bodyParams (vars : JS.JVal) : M (list TextParam) :=
  match JS.Object_values vars with
  | Some vs => ret (map text_param vs)
  | None => throw (mkJsError None "Cannot convert undefined or null to object")
  end.

Definition components_of (params : list TextParam) : list Component :=
  match params with
  | [] => []
  | _ => [mkComponent "body" params]
  end.

(** [resp?.messages?.[0]?.id || null] *)
Definition wa_id_of (resp : option WaResponse) : option string :=
  match resp with
  | Some r =>
      match resp_messages r with
      | Some (m :: _) =>
          match wam_id m with
          | Some id => if JS.nonempty id then Some id else None
          | None => None
          end
      | _ => None
      end
  | None => None
  end.

(** [(err?.response?.data && JSON.stringify(err.response.data)) || err.message] *)
Definition error_text (e : JsError) : string :=
  match err_response_data e with
  | Some d => if JS.nonempty d then d else err_message e
  | None => err_message e
  end.

Definition language_or (lang fallback : string) : string :=
  if JS.nonempty lang then lang else fallback.

(** The argument of the call [sendTemplate({ phone_id, token, to,
    template_name, language, components })]. *)
Definition build_request (env : Env) (camp : Campaign) (target : Target)
    (components : list Component) : SendRequest :=
  mkSendRequest (c_sender_phone_id camp) (WA_ACCESS_TOKEN env)
    (t_phone target) (c_template_name camp)
    (language_or (c_language camp) (WA_TEMPLATE_LANG env))
    components.

(** The [try] block of one job: mark the target, render, send, record. *)
Definition send_job (env : Env) (job : Job) (camp : Campaign) (target : Target)
    : M unit :=
  now <- nowIso env ;;
  run_db (with_targets
            (update_where (has_target_id (t_id target)) (set_status TSending now))) ;;;
  vars <- parse_vars target ;;
  params <- bodyParams vars ;;
  let components := components_of params in
  resp <- Wa.sendTemplate env (build_request env camp target components) ;;
  let wa_id := wa_id_of resp in
  nowIso_ <- nowIso env ;;
  run_db (with_messages
            (insert_row msg_id
               (fun id => mkMessage id (c_id camp) (t_id target) components resp nowIso_))) ;;;
  run_db (with_targets
            (update_where (has_target_id (t_id target)) (set_sent wa_id nowIso_))) ;;;
  markDone (job_id job).
  (* then [await sleep(1000 / qps)]: a pause, with no effect on the store *)

(** The [catch] block of one job. *)
Definition fail_job (env : Env) (job : Job) (target : Target) (err : JsError)
    : M unit :=
  now <- nowIso env ;;
  run_db (with_targets
            (update_where (has_target_id (t_id target))
               (set_failed (JS.take 500 (error_text err)) now))) ;;;
  markFailed env (job_id job) 3000.

(** The body of [for (const job of batch)]. *)
Definition process_job (env : Env) (job : Job) : M unit :=
  camp <- read_db (fun d => select_first (has_campaign_id (job_campaign_id job))
                              (campaigns d)) ;;
  match camp with
  | None => markDone (job_id job)
  | Some camp =>
      if gated (c_status camp) then markDone (job_id job) else
      target <- read_db (fun d => select_first (has_target_id (job_target_id job))
                                    (campaign_targets d)) ;;
      match target with
      | None => markDone (job_id job)
      | Some target =>
          if negb (Phone.isLikelyValidPhone (t_phone target)) then
            now <- nowIso env ;;
            run_db (with_targets
                      (update_where (has_target_id (t_id target))
                         (set_failed "telefono_invalido" now))) ;;;
            markDone (job_id job)
          else
            try_catch (send_job env job camp target) (fail_job env job target)
      end
  end.

Definition is_running (c : Campaign) : bool :=
  match c_status c with CRunning => true | _ => false end.

(** [status IN ('queued','sending','failed')] *)
Definition unfinished (s : TargetStatus) : bool :=
  match s with TQueued | TSending | TFailed => true | _ => false end.

Definition not_done (r : QueueRow) : bool :=
  negb (QueueStatus_eqb (q_status r) QDone).

(** The convergence sweep at the end of a tick. *)
Definition sweep_campaign (c : Campaign) : M unit :=
  left <- read_db (fun d =>
            List.length (filter (fun t => (t_campaign_id t =? c_id c)
                                          && unfinished (t_status t))
                                (rows (campaign_targets d)))) ;;
  if (left =? 0)%nat then
    run_db (with_campaigns
              (update_where (has_campaign_id (c_id c)) (set_campaign_status CDone)))
  else ret tt.

Definition sweep : M unit :=
  pending <- read_db (fun d => List.length (filter not_done (rows (queue d)))) ;;
  if (pending =? 0)%nat then
    camps <- read_db (fun d => filter is_running (rows (campaigns d))) ;;
    for_each sweep_campaign camps
  else ret tt.

(** One round of [for (const job of batch)].  The statements of the loop
    body that stand outside the inner [try] are calls of the database, and
    such a call can throw.  [db_failure] says for which job the first of
    them, the campaign lookup, does: nothing of that job has been done
    then, and the exception leaves the loop.  Otherwise the round is
    [process_job]. *)
Definition round (env : Env) (job : Job) : M unit :=
  match db_failure env (job_id job) with
  | Some err => throw err
  | None => process_job env job
  end.

(** The body of [tick] after the window check: claim a batch, run the loop,
    sweep. *)
Definition tick_body (env : Env) : M unit :=
  batch <- fetchBatch env (BATCH_SIZE env) ;;
  match batch with
  | [] => ret tt
  | _ => for_each (round env) batch ;;; sweep
  end.

(** [tick]: the outer [catch] logs the error and swallows it, so the tick
    ends there, without the rest of the loop and without the sweep. *)
Definition tick (env : Env) : M unit :=
  try_catch
    (now <- new_Date env ;;
     if negb (Wa.inWindow now (DELIVERY_WINDOW env)) then ret tt
     else tick_body env)
    (fun _ => ret tt).

(** What a tick does once the delivery window lets it through: the body,
    under the same [catch]. *)
Definition tick_work (env : Env) : M unit :=
  try_catch (tick_body env) (fun _ => ret tt).

(** The jobs of a batch whose round is run: those before the first job for
    which the database fails, all of them when it never does. *)
Fixpoint reached (env : Env) (batch : list Job) : list Job :=
  match batch with
  | [] => []
  | job :: batch' =>
      match db_failure env (job_id job) with
      | Some _ => []
      | None => job :: reached env batch'
      end
  end.

Definition fails_at (env : Env) (job : Job) : bool :=
  match db_failure env (job_id job) with Some _ => true | None => false end.

(** The loop over [batch] is left by an exception. *)
Definition interrupted (env : Env) (batch : list Job) : bool :=
  existsb (fails_at env) batch.

End Worker.

(** ** The API server: campaign creation and the provider webhook *)

Module Server.

(** One element of the [targets] argument, after [parseTargetsInput]. *)
Record TargetInput : Type := mkTargetInput {
  ti_phone : option string;        (* [target?.phone] *)
  ti_vars  : option JS.JVal        (* [target?.vars] *)
}.

Record NormalizedTarget : Type := mkNormalizedTarget {
  nt_phone : string;
  nt_vars  : JS.JVal
}.

(** [String(raw).trim() || null], [null] on [null] and [undefined]. *)
Definition parseSenderId (raw : option string) : option string :=
  match raw with
  | None => None
  | Some r => let str := JS.trim r in if JS.nonempty str then Some str else None
  end.

Definition parseSenderDisplay (raw : option string) : option string :=
  match raw with
  | None => None
  | Some r => let str := JS.trim r in if JS.nonempty str then Some str else None
  end.

Definition or_else {A} (a b : option A) : option A :=
  match a with Some _ => a | None => b end.

Definition truthy_string (s : option string) : option string :=
  match s with
  | Some x => if JS.nonempty x then Some x else None
  | None => None
  end.

Definition option_string_eqb (a b : option string) : bool :=
  match a, b with
  | Some x, Some y => String.eqb x y
  | None, None => true
  | _, _ => false
  end.

Definition option_Z_eqb (a b : option Z) : bool :=
  match a, b with
  | Some x, Some y => x =? y
  | None, None => true
  | _, _ => false
  end.

Definition has_phone_id (p : string) (s : Sender) : bool := String.eqb (s_phone_id s) p.

Definition set_display (d : string) (s : Sender) : Sender :=
  mkSender (s_id s) (s_phone_id s) (Some d) (s_qps s) (s_created_at s).
Definition set_qps (q : option Z) (s : Sender) : Sender :=
  mkSender (s_id s) (s_phone_id s) (s_display s) q (s_created_at s).

(** [Number(process.env.SENDER_QPS || existing?.qps || 8)] *)
Definition desired_qps (env : Env) (existing : option Sender) : option Z :=
  match truthy_string (SENDER_QPS env) with
  | Some s => JS.Number s
  | None =>
      match existing with
      | Some ex =>
          match s_qps ex with
          | Some q => if q =? 0 then Some 8 else Some q
          | None => Some 8
          end
      | None => Some 8
      end
  end.

Definition truthy_number (n : option Z) : bool :=
  match n with Some q => negb (q =? 0) | None => false end.

(** [ensureSender(phone_id, { display })] *)
Definition ensureSender (env : Env) (phone_id display : option string) : M string :=
  match or_else (parseSenderId phone_id) (parseSenderId (WA_PHONE_NUMBER_ID env)) with
  | None =>
      throw (mkJsError None
        "Debes configurar WA_PHONE_NUMBER_ID en .env o enviar sender_phone_id.")
  | Some resolved =>
      existing <- read_db (fun d => select_first (has_phone_id resolved) (senders d)) ;;
      let desiredDisplay :=
        match or_else (parseSenderDisplay display)
                      (match existing with
                       | Some ex => truthy_string (s_display ex)
                       | None => None
                       end) with
        | Some d => d
        | None => "+" ++ resolved
        end in
      let desiredQps := desired_qps env existing in
      match existing with
      | None =>
          now <- nowIso env ;;
          run_db (with_senders
                    (insert_row s_id
                       (fun id => mkSender id resolved (Some desiredDisplay)
                                           desiredQps now)))
      | Some ex =>
          (if JS.nonempty desiredDisplay
              && negb (option_string_eqb (Some desiredDisplay) (s_display ex))
           then run_db (with_senders
                          (update_where (has_phone_id resolved) (set_display desiredDisplay)))
           else ret tt) ;;;
          (if truthy_number desiredQps
              && negb (option_Z_eqb desiredQps (s_qps ex))
           then run_db (with_senders
                          (update_where (has_phone_id resolved) (set_qps desiredQps)))
           else ret tt)
      end ;;;
      ret resolved
  end.

(** The constant [DEFAULT_COUNTRY_CODE] of the server: the environment value
    with everything but digits removed. *)
Definition country_code (env : Env) : string :=
  JS.digits_only (DEFAULT_COUNTRY_CODE env).

(** [target?.vars || {}] *)
Definition vars_or_empty (v : option JS.JVal) : JS.JVal :=
  match v with
  | Some x => if JS.truthy x then x else JS.JObj []
  | None => JS.JObj []
  end.

(** One turn of the loop of [normalizeTargets]. *)
Definition normalize_step (env : Env) (acc : list NormalizedTarget * Z)
    (target : TargetInput) : list NormalizedTarget * Z :=
  let phone := Phone.normalizePhone (ti_phone target) (country_code env) in
  if negb (Phone.isLikelyValidPhone phone) then (fst acc, snd acc + 1)
  else ((fst acc ++ [mkNormalizedTarget phone (vars_or_empty (ti_vars target))])%list,
        snd acc).

(** [normalizeTargets]: [{ normalized, skipped }]. *)
Definition normalizeTargets (env : Env) (targets : list TargetInput)
    : list NormalizedTarget * Z :=
  fold_left (normalize_step env) targets ([], 0).

Record CreateResult : Type := mkCreateResult {
  campaign_id     : Z;
  inserted        : Z;
  sender_phone_id : string;
  skipped_invalid : Z;
  duplicates      : Z;
  sender_display  : option string
}.

(** [UNIQUE(campaign_id, phone)] *)
Definition same_key (cid : Z) (phone : string) (t : Target) : bool :=
  (t_campaign_id t =? cid) && String.eqb (t_phone t) phone.

(** One [tStmt.run(...)] inside [try]/[catch]: the row goes in and the count
    grows, unless the unique constraint rejects it, which is swallowed. *)
Definition insert_target_step (cid : Z) (now : Z) (acc : Table Target * Z)
    (t : NormalizedTarget) : Table Target * Z :=
  let (tbl, inserted) := acc in
  if existsb (same_key cid (nt_phone t)) (rows tbl) then (tbl, inserted)
  else (insert_row t_id
          (fun id => mkTarget id cid (nt_phone t) (VarsValid (nt_vars t))
                              TQueued None None now now) tbl,
        inserted + 1).

Definition set_total_targets (n : Z) (c : Campaign) : Campaign :=
  mkCampaign (c_id c) (c_name c) (c_template_name c) (c_language c)
             (c_sender_phone_id c) (c_status c) (c_created_at c) n (c_meta_json c).

(** [meta ? JSON.stringify(meta) : null]: the value stored in [meta_json],
    [NULL] for a missing or falsy [meta] ([null], [false], [0], ['']). *)
Definition stored_meta (meta : option JS.JVal) : option JS.JVal :=
  match meta with
  | Some m => if JS.truthy m then Some m else None
  | None => None
  end.

(** The transaction of [createCampaignRecord]. *)
Definition create_tx (env : Env) (name template_name language sender : string)
    (meta : option JS.JVal) (normalizedTargets : list NormalizedTarget)
    : M (Z * Z) :=
  created <- nowIso env ;;
  cid <- read_db (fun d => next_rowid c_id (campaigns d)) ;;
  run_db (with_campaigns
            (insert_row c_id
               (fun id => mkCampaign id name template_name language sender CDraft
                             created (Z.of_nat (List.length normalizedTargets))
                             (stored_meta meta)))) ;;;
  now <- nowIso env ;;
  tbl <- read_db campaign_targets ;;
  let (tbl', inserted) :=
    fold_left (insert_target_step cid now) normalizedTargets (tbl, 0) in
  run_db (with_targets (fun _ => tbl')) ;;;
  run_db (with_campaigns
            (update_where (Worker.has_campaign_id cid) (set_total_targets inserted))) ;;;
  ret (cid, inserted).

(** [createCampaignRecord]; [language] is the argument after its default
    [DEFAULT_LANG] has been applied. *)
Definition createCampaignRecord (env : Env) (name template_name language : string)
    (targets : list TargetInput) (meta : option JS.JVal)
    (requestedSender requestedDisplay : option string) : M CreateResult :=
  sender <- ensureSender env requestedSender requestedDisplay ;;
  let (normalizedTargets, skipped) := normalizeTargets env targets in
  match normalizedTargets with
  | [] => throw (mkJsError None "No hay destinatarios válidos para la campaña")
  | _ =>
      r <- create_tx env name template_name language sender meta normalizedTargets ;;
      let (cid, inserted) := r in
      let dup := Z.of_nat (List.length normalizedTargets) - inserted in
      senderRow <- read_db (fun d => select_first (has_phone_id sender) (senders d)) ;;
      ret (mkCreateResult cid inserted sender skipped
             (if 0 <? dup then dup else 0)
             (match senderRow with
              | Some s => truthy_string (s_display s)
              | None => None
              end))
  end.

(** *** The webhook [POST /webhooks/wa] *)

Record Change : Type := mkChange {
  ch_statuses : list StatusEvent;        (* [value.statuses], [[]] if not an array *)
  ch_messages : list InboundMessage      (* [value.messages], [[]] if not an array *)
}.

Record WebhookRequest : Type := mkWebhookRequest {
  signature_ok : bool;                   (* the result of [verifyWaSignature(req)] *)
  entry        : list (list Change)      (* [entry[].changes[]] *)
}.

Inductive Response : Type :=
  | Ok200
  | Forbidden403
  | Error500 (message : string).

(** [recordEvent({ waMessageId, type, payload })] *)
Definition recordEvent (env : Env) (waMessageId : option string) (type : string)
    (payload : EventPayload) : M unit :=
  now <- nowIso env ;;
  run_db (with_events
            (insert_row ev_id (fun id => mkEvent id waMessageId type payload now))).

Definition has_wa_message_id (mid : string) (t : Target) : bool :=
  option_string_eqb (t_wa_message_id t) (Some mid).

(** [statusMap[status.status] || null] on the provider's status words. *)
Definition statusMap (s : option string) : option TargetStatus :=
  match s with
  | Some w =>
      if String.eqb w "sent" then Some TSent
      else if String.eqb w "delivered" then Some TDelivered
      else if String.eqb w "read" then Some TRead
      else if String.eqb w "failed" then Some TFailed
      else None
  | None => None
  end.

Definition string_or (s : option string) (fallback : string) : string :=
  match truthy_string s with Some x => x | None => fallback end.

Fixpoint join (sep : string) (l : list string) : string :=
  match l with
  | [] => ""
  | [x] => x
  | x :: l' => x ++ sep ++ join sep l'
  end.

(** [errors.map(e => e.title || e.message).filter(Boolean).join('; ')], or
    [status.status || ''] when [errors] is not an array. *)
Definition error_titles (status : StatusEvent) : string :=
  match se_errors status with
  | Some errs =>
      join "; "
        (flat_map (fun e =>
                     match or_else (truthy_string (ei_title e))
                                   (truthy_string (ei_message e)) with
                     | Some x => [x]
                     | None => []
                     end) errs)
  | None => string_or (se_status status) ""
  end.

Definition touch (now : Z) (t : Target) : Target :=
  mkTarget (t_id t) (t_campaign_id t) (t_phone t) (t_vars_json t)
           (t_status t) (t_last_error t) (t_wa_message_id t) (t_created_at t) now.

Definition update_target (id : Z) (f : Target -> Target) : M unit :=
  run_db (with_targets (update_where (Worker.has_target_id id) f)).

(** The body of [for (const status of statuses)]. *)
Definition handle_status (env : Env) (status : StatusEvent) : M unit :=
  match truthy_string (se_id status) with
  | None => ret tt                                         (* [continue] *)
  | Some messageId =>
      recordEvent env (Some messageId) (string_or (se_status status) "status")
                  (StatusPayload status) ;;;
      target <- read_db (fun d => select_first (has_wa_message_id messageId)
                                    (campaign_targets d)) ;;
      match target with
      | None => ret tt                                     (* [continue] *)
      | Some target =>
          let newStatus := statusMap (se_status status) in
          now <- nowIso env ;;
          match newStatus with
          | Some TFailed =>
              let errText := error_titles status in
              update_target (t_id target)
                (Worker.set_failed (JS.take 300 errText) now) ;;;
              emit (NotifyBitrix target (StatusComment status (Some errText)))
          | Some s =>
              update_target (t_id target) (Worker.set_status s now) ;;;
              emit (NotifyBitrix target (StatusComment status None))
          | None =>
              update_target (t_id target) (touch now)
          end
      end
  end.

(** [ORDER BY updated_at DESC LIMIT 1]: a row with the greatest
    [updated_at] (the earliest inserted one among equals). *)
Fixpoint latest_updated (best : option Target) (l : list Target) : option Target :=
  match l with
  | [] => best
  | t :: l' =>
      match best with
      | Some b => if t_updated_at b <? t_updated_at t
                  then latest_updated (Some t) l' else latest_updated best l'
      | None => latest_updated (Some t) l'
      end
  end.

(** The body of [for (const message of messages)]. *)
Definition handle_message (env : Env) (message : InboundMessage) : M unit :=
  recordEvent env (im_id message) "reply" (ReplyPayload message) ;;;
  byContext <- match truthy_string (im_context_id message) with
               | Some contextId =>
                   read_db (fun d => select_first (has_wa_message_id contextId)
                                       (campaign_targets d))
               | None => ret None
               end ;;
  target <- match byContext, truthy_string (im_from message) with
            | None, Some from =>
                let normalized := Phone.normalizePhone (Some from) "" in
                read_db (fun d =>
                  latest_updated None
                    (filter (fun t => String.eqb (t_phone t) normalized)
                            (rows (campaign_targets d))))
            | _, _ => ret byContext
            end ;;
  match target with
  | Some target =>
      now <- nowIso env ;;
      update_target (t_id target) (touch now) ;;;
      emit (NotifyBitrix target (ReplyComment message))
  | None => ret tt
  end.

Definition handle_change (env : Env) (change : Change) : M unit :=
  for_each (handle_status env) (ch_statuses change) ;;;
  for_each (handle_message env) (ch_messages change).

(** [app.post('/webhooks/wa', ...)] *)
Definition webhook_post (env : Env) (req : WebhookRequest) : M Response :=
  try_catch
    (if negb (signature_ok req) then ret Forbidden403
     else for_each (for_each (handle_change env)) (entry req) ;;; ret Ok200)
    (fun err => ret (Error500 (err_message err))).

(** *** Vocabulary of the statements about campaign creation *)

(** A submitted target counts as valid when its phone, once normalized,
    passes the validity check. *)
Definition normalized_phone (env : Env) (t : TargetInput) : string :=
  Phone.normalizePhone (ti_phone t) (country_code env).

Definition valid_input (env : Env) (t : TargetInput) : bool :=
  Phone.isLikelyValidPhone (normalized_phone env t).

Definition mem_string (x : string) (l : list string) : bool :=
  existsb (String.eqb x) l.

(** The phones of [l] in order, without those already in [seen] and without
    repetitions: each distinct new phone once, at its first occurrence. *)
Fixpoint first_occurrences (seen : list string) (l : list string) : list string :=
  match l with
  | [] => []
  | x :: l' =>
      if mem_string x seen then first_occurrences seen l'
      else x :: first_occurrences (x :: seen) l'
  end.

(** A target row as the transaction inserts it. *)
Definition new_target_row (cid now : Z) (t : Target) : Prop :=
  t_campaign_id t = cid /\ t_status t = TQueued
  /\ t_last_error t = None /\ t_wa_message_id t = None
  /\ t_created_at t = now /\ t_updated_at t = now.

(** Every target row belongs to a campaign row of the store. *)
Definition targets_reference_campaigns (d : Db) : Prop :=
  forall t, In t (rows (campaign_targets d)) ->
  exists c, In c (rows (campaigns d)) /\ c_id c = t_campaign_id t.

(** The phones a campaign already has in the targets table. *)
Definition phones_of_campaign (cid : Z) (tbl : Table Target) : list string :=
  map t_phone (filter (fun t => t_campaign_id t =? cid) (rows tbl)).

End Server.

(** ** Template placeholders ([tools/b24-ui/server.cjs]) *)

Module Templates.

(** The longest run of digits at the head of [s], and what follows it. *)
Fixpoint span_digits (s : string) : string * string :=
  match s with
  | EmptyString => (EmptyString, EmptyString)
  | String c s' =>
      if JS.is_digit c then let (ds, rest) := span_digits s' in (String c ds, rest)
      else (EmptyString, s)
  end.

(** A match of [/{{(\d+)}}/] anchored at the head of [s]: its digits. *)
Definition match_here (s : string) : option string :=
  match s with
  | String "{" (String "{" s') =>
      match span_digits s' with
      | (String d ds, String "}" (String "}" _)) => Some (String d ds)
      | _ => None
      end
  | _ => None
  end.

(** [text.match(/{{(\d+)}}/g)] mapped to the numbers matched.  Two matches
    never overlap, since a match starts with two braces and contains no
    other opening brace, so every position can be tried in turn. *)
Fixpoint matches (text : string) : list Z :=
  match text with
  | EmptyString => []
  | String _ text' =>
      match match_here text with
      | Some ds => JS.decimal_go 0 ds :: matches text'
      | None => matches text'
      end
  end.

Fixpoint insert_sorted (n : Z) (l : list Z) : list Z :=
  match l with
  | [] => [n]
  | x :: l' => if n <=? x then n :: x :: l' else x :: insert_sorted n l'
  end.

Definition sort_numbers (l : list Z) : list Z := fold_right insert_sorted [] l.

(** [extractPlaceholders(text)]: the distinct positive placeholder numbers
    of a template text in ascending order, each rendered as [{{n}}]. *)
Definition extractPlaceholders (text : string) : list string :=
  map (fun v => "{{" ++ JS.decimal_of_Z v ++ "}}")%string
      (sort_numbers (filter (fun v => 0 <? v) (nodup Z.eq_dec (matches text)))).

End Templates.

(** ** Vocabulary of the statements about the delivery window *)

Module Window.

Definition digit_char (d : Z) : ascii := ascii_of_nat (48 + Z.to_nat d).

(** A field of a clock time written with two digits, as in ["06"]. *)
Definition two_digits (n : Z) : string :=
  String (digit_char (n / 10)) (String (digit_char (n mod 10)) EmptyString).

(** The window string ["HH:MM-HH:MM"]. *)
Definition window_string (h1 m1 h2 m2 : Z) : string :=
  (two_digits h1 ++ ":" ++ two_digits m1 ++ "-" ++ two_digits h2 ++ ":" ++ two_digits m2)%string.

(** The window in the words of the specification, on minutes of the day: a
    same-day range from [start] to [stop], which wraps past midnight when
    [stop] is earlier than [start]. *)
Definition within_window (start stop t : Z) : Prop :=
  if stop <? start then start <= t \/ t <= stop
  else start <= t /\ t <= stop.

(** The character [c] does not occur in [s]. *)
Definition free_of (c : ascii) (s : string) : bool :=
  JS.all_chars (fun x => negb (Ascii.eqb x c)) s.

Definition minutes_of (d : Date) : Z := getHours d * 60 + getMinutes d.

Definition valid_clock_time (h m : Z) : Prop := 0 <= h < 24 /\ 0 <= m < 60.

End Window.

(** ** Concrete scenarios used by the examples *)

Module Scenario.

Definition sender_id : string := "857608144100041".

Definition env_with (window country_code : string) (now : Date)
    (answer : ProviderResult) : Env :=
  mkEnv (fun _ => now) (fun _ _ => answer) "token" "es" 20 window
        country_code (Some sender_id) None (fun _ => None).

Definition noon : Date := mkDate 1730462400000 12 0.
Definition late_evening : Date := mkDate 1730503800000 23 30.

Definition accepted_without_id : ProviderResult :=
  Resolved (Some (mkWaResponse None)).
Definition accepted_with_id : ProviderResult :=
  Resolved (Some (mkWaResponse (Some [mkWaMessage (Some "wamid.A1")]))).
Definition rejected : ProviderResult :=
  Rejected (mkJsError (Some "(#132000) Number of parameters does not match")
                      "Request failed with status code 400").

(** A test template of the repository, with two body placeholders. *)
Definition two_placeholder_body : string :=
  "Hola {{1}}, esta es una plantilla de prueba para {{2}}.".

Definition campaign_in (st : CampaignStatus) : Campaign :=
  mkCampaign 1 "promo" "no_usar_solo_prueba" "es_PE" sender_id st 0 1 None.

Definition target_with (phone : string) (vars : JS.JVal) : Target :=
  mkTarget 1 1 phone (VarsValid vars) TQueued None None 0 0.

Definition one_variable : JS.JVal := JS.JObj [("1", JS.JStr "Ana")].

Definition claimed_entry : QueueRow := mkQueueRow 1 1 1 sender_id 0 0 QProcessing.
Definition queued_entry : QueueRow := mkQueueRow 1 1 1 sender_id 0 0 QQueued.

Definition job : Job := mkJob 1 1 1 sender_id 0.

(** A store with one campaign, one target and its queue entry. *)
Definition store (st : CampaignStatus) (phone : string) (vars : JS.JVal)
    (entry : QueueRow) : Db :=
  mkDb (mkTable [campaign_in st] 1) (mkTable [target_with phone vars] 1)
       empty_table empty_table empty_table (mkTable [entry] 1).

Definition world (st : CampaignStatus) (phone : string) (vars : JS.JVal)
    (entry : QueueRow) : World :=
  mkWorld (store st phone vars entry) 0 [].

(** A store whose queue entry points to a target that does not exist. *)
Definition orphan_world : World :=
  mkWorld (mkDb (mkTable [campaign_in CRunning] 1) empty_table
                empty_table empty_table empty_table (mkTable [claimed_entry] 1)) 0 [].

(** A target whose [vars_json] text does not parse. *)
Definition broken_vars_world : World :=
  mkWorld (mkDb (mkTable [campaign_in CRunning] 1)
                (mkTable [mkTarget 1 1 "51918131082"
                            (VarsInvalid "Unexpected end of JSON input")
                            TQueued None None 0 0] 1)
                empty_table empty_table empty_table (mkTable [claimed_entry] 1)) 0 [].




End Scenario.

(** ** The API server: starting, pausing, resuming and cancelling *)

Module Api.

(** [enqueueTarget({ campaign_id, target_id, phone_id })] as the handlers
    call it: the entry is stamped with [Date.now()]. *)
Definition enqueueTarget (env : Env) (campaign_id target_id : Z) (phone_id : string)
    : M unit :=
  now <- Date_now env ;;
  run_db (with_queue (Queue.enqueueTarget now campaign_id target_id phone_id)).

(** The order of a [SELECT ... FROM campaign_targets WHERE campaign_id=?]
    that has no [ORDER BY]: SQLite answers it from the index of
    [UNIQUE(campaign_id, phone)], so the rows of the campaign come in
    ascending order of [phone], compared byte by byte, and rows of equal
    phone in rowid order. *)
Fixpoint insert_by_phone (t : Target) (l : list Target) : list Target :=
  match l with
  | [] => [t]
  | x :: l' =>
      if String.leb (t_phone t) (t_phone x) then t :: x :: l'
      else x :: insert_by_phone t l'
  end.

Definition by_phone (l : list Target) : list Target := fold_right insert_by_phone [] l.

(** [WHERE campaign_id=? AND status IN ('queued','failed')] *)
Definition startable (campaign_id : Z) (t : Target) : bool :=
  (t_campaign_id t =? campaign_id)
  && match t_status t with TQueued | TFailed => true | _ => false end.

(** [UPDATE campaigns SET status='running', sender_phone_id=?] *)
Definition set_running (phone_id : string) (c : Campaign) : Campaign :=
  mkCampaign (c_id c) (c_name c) (c_template_name c) (c_language c)
             phone_id CRunning (c_created_at c) (c_total_targets c) (c_meta_json c).

(** [startCampaign(campaign_id)]: [{ enqueued: targets.length }]. *)
Definition startCampaign (env : Env) (campaign_id : Z) : M Z :=
  camp <- read_db (fun d => select_first (Worker.has_campaign_id campaign_id)
                              (campaigns d)) ;;
  match camp with
  | None => throw (mkJsError None "Campaña no existe")
  | Some camp =>
      phone_id <- Server.ensureSender env (Some (c_sender_phone_id camp)) None ;;
      targets <- read_db (fun d => by_phone (filter (startable campaign_id)
                                               (rows (campaign_targets d)))) ;;
      run_db (with_campaigns
                (update_where (Worker.has_campaign_id campaign_id)
                   (set_running phone_id))) ;;;
      for_each (fun t => enqueueTarget env campaign_id (t_id t) phone_id) targets ;;;
      ret (Z.of_nat (List.length targets))
  end.

(** [UPDATE campaigns SET status=? WHERE id=?], the whole of the pause and
    resume handlers. *)
Definition set_campaign (st : CampaignStatus) (id : Z) : M unit :=
  run_db (with_campaigns
            (update_where (Worker.has_campaign_id id) (Worker.set_campaign_status st))).

Definition pause (id : Z) : M unit := set_campaign CPaused id.
Definition resume (id : Z) : M unit := set_campaign CRunning id.

(** [WHERE campaign_id=? AND status IN ('queued','sending')] *)
Definition cancellable (id : Z) (t : Target) : bool :=
  (t_campaign_id t =? id)
  && match t_status t with TQueued | TSending => true | _ => false end.

(** [UPDATE campaign_targets SET status='canceled']: no other column. *)
Definition set_canceled (t : Target) : Target :=
  mkTarget (t_id t) (t_campaign_id t) (t_phone t) (t_vars_json t)
           TCanceled (t_last_error t) (t_wa_message_id t) (t_created_at t)
           (t_updated_at t).

Definition cancel (id : Z) : M unit :=
  set_campaign CCanceled id ;;;
  run_db (with_targets (update_where (cancellable id) set_canceled)).

(** The answer of [POST /api/campaigns/:id/dry-run]; the rows selected are
    [phone, vars_json]. *)
Inductive DryRun : Type :=
  | DryRunNotFound                                        (* 404 *)
  | DryRunReport (total valid invalid : Z) (sample : list (string * VarsJson)).

Definition dry_run (id : Z) : M DryRun :=
  camp <- read_db (fun d => select_first (Worker.has_campaign_id id) (campaigns d)) ;;
  match camp with
  | None => ret DryRunNotFound
  | Some _ =>
      rows_ <- read_db (fun d => map (fun t => (t_phone t, t_vars_json t))
                                   (by_phone (filter (fun t => t_campaign_id t =? id)
                                                (rows (campaign_targets d))))) ;;
      let total := Z.of_nat (List.length rows_) in
      let valid := Z.of_nat (List.length
                     (filter (fun r => Phone.isLikelyValidPhone (fst r)) rows_)) in
      ret (DryRunReport total valid (total - valid) (firstn 5 rows_))
  end.

(** Ascending order of phone, neighbour by neighbour. *)
Definition phone_le (a b : Target) : Prop := String.leb (t_phone a) (t_phone b) = true.

(** A queue row as [startCampaign] enqueues it for a target. *)
Definition enqueued_for (campaign_id : Z) (phone_id : string) (t : Target)
    (r : QueueRow) : Prop :=
  q_campaign_id r = campaign_id /\ q_target_id r = t_id t /\ q_phone_id r = phone_id
  /\ q_attempts r = 0 /\ q_status r = QQueued.

End Api.

(** ** The uniqueness constraints of [schema.sql] *)

Module Integrity.

(** [UNIQUE(campaign_id, phone)] on [campaign_targets]. *)
Definition target_key (t : Target) : Z * string := (t_campaign_id t, t_phone t).

Definition unique_targets (d : Db) : Prop :=
  NoDup (map target_key (rows (campaign_targets d))).

(** [phone_id TEXT NOT NULL UNIQUE] on [senders]. *)
Definition unique_senders (d : Db) : Prop :=
  NoDup (map s_phone_id (rows (senders d))).

(** The targets of one campaign. *)
Definition targets_of (cid : Z) (d : Db) : list Target :=
  filter (fun t => t_campaign_id t =? cid) (rows (campaign_targets d)).

End Integrity.

(** ** The life of a queue, operation by operation *)

Module QueueOps.

(** The calls the rest of the program makes on the queue. *)
Inductive QueueOp : Type :=
  | OpEnqueue (now campaign_id target_id : Z) (phone_id : string)
  | OpFetch (now limit : Z)
  | OpDone (id : Z)
  | OpFailed (now id backoffMs : Z).

Definition apply_op (q : Table QueueRow) (op : QueueOp) : Table QueueRow :=
  match op with
  | OpEnqueue now c t p => Queue.enqueueTarget now c t p q
  | OpFetch now limit => snd (Queue.fetchBatch now limit q)
  | OpDone id => Queue.markDone id q
  | OpFailed now id b => Queue.markFailed now id b q
  end.

Definition run_ops (ops : list QueueOp) (q : Table QueueRow) : Table QueueRow :=
  fold_left apply_op ops q.

(** What every queue reached from the empty table satisfies: rows are stored
    in strictly ascending rowid order, rowids are positive and at most the
    sequence value, attempts are not negative, and no row is ['failed']. *)
Definition row_ok (q : Table QueueRow) (r : QueueRow) : Prop :=
  0 < q_id r <= seq q /\ 0 <= q_attempts r /\ q_status r <> QFailed.

Definition queue_ok (q : Table QueueRow) : Prop :=
  StronglySorted Queue.lt_id (rows q) /\ Forall (row_ok q) (rows q).

End QueueOps.

(** ** Vocabulary of the statements about what a handler leaves alone *)

Module Frame.

(** Two versions of a target row that differ at most in the delivery state:
    status, last error, provider message ID and update time. *)
Definition same_target_identity (t t' : Target) : Prop :=
  t_id t' = t_id t /\ t_campaign_id t' = t_campaign_id t
  /\ t_phone t' = t_phone t /\ t_vars_json t' = t_vars_json t
  /\ t_created_at t' = t_created_at t.

(** A targets table after an operation that has only rewritten delivery
    states: the same rows in the same order, each with its identity. *)
Definition targets_rewritten (before after : Table Target) : Prop :=
  seq after = seq before
  /\ exists g, (forall t, same_target_identity t (g t))
              /\ rows after = map g (rows before).

Definition is_http (e : Effect) : bool :=
  match e with HttpPost _ => true | NotifyBitrix _ _ => false end.

(** The number of calls of the messaging API in a log. *)
Definition http_calls (log : list Effect) : nat := List.length (filter is_http log).

(** A queue after the loop of a tick over the jobs [ids]: the same rows in
    the same order; a row whose rowid is among [ids] has ended ['done'] or
    back in ['queued'], every other row is untouched. *)
Definition settled (s : QueueStatus) : Prop := s = QDone \/ s = QQueued.

Definition queue_settled (ids : list Z) (before after : Table QueueRow) : Prop :=
  seq after = seq before
  /\ exists g, rows after = map g (rows before)
              /\ forall r, q_id (g r) = q_id r
                           /\ (In (q_id r) ids -> settled (q_status (g r)))
                           /\ (~ In (q_id r) ids -> g r = r).

(** A campaigns table after the sweep: the same rows, each either untouched
    or switched to ['done']. *)
Definition campaigns_closed (before after : Table Campaign) : Prop :=
  seq after = seq before
  /\ exists g, rows after = map g (rows before)
              /\ forall c, g c = c \/ g c = Worker.set_campaign_status CDone c.

(** The number of targets of a campaign that are ['queued'], ['sending'] or
    ['failed'], and the number of queue entries that are not ['done']. *)
Definition unfinished_targets (d : Db) (cid : Z) : nat :=
  List.length (filter (fun t => (t_campaign_id t =? cid) && Worker.unfinished (t_status t))
                      (rows (campaign_targets d))).

Definition pending_entries (d : Db) : nat :=
  List.length (filter Worker.not_done (rows (queue d))).

End Frame.

(** ** What a webhook delivery may change *)

Module Hook.

(** Two versions of a target row as the webhook may leave them: the
    identity and the provider message ID are kept. *)
Definition same_message (t t' : Target) : Prop :=
  Frame.same_target_identity t t' /\ t_wa_message_id t' = t_wa_message_id t.

Definition targets_updated (before after : Table Target) : Prop :=
  seq after = seq before
  /\ exists g, (forall t, same_message t (g t)) /\ rows after = map g (rows before).

Definition is_notice (e : Effect) : bool := negb (Frame.is_http e).

(** The world after some webhook processing: events were appended, targets
    rewritten in place, CRM notices emitted; nothing else. *)
Definition received (w w' : World) : Prop :=
  campaigns (w_db w') = campaigns (w_db w)
  /\ messages (w_db w') = messages (w_db w)
  /\ senders (w_db w') = senders (w_db w)
  /\ queue (w_db w') = queue (w_db w)
  /\ (exists new, rows (events (w_db w')) = (rows (events (w_db w)) ++ new)%list)
  /\ targets_updated (campaign_targets (w_db w)) (campaign_targets (w_db w'))
  /\ (exists notices, w_log w' = (w_log w ++ notices)%list
                      /\ forallb is_notice notices = true).

(** A target row after an inbound message: untouched, or with a new
    [updated_at] only. *)
Definition touched_only (before after : Table Target) : Prop :=
  exists g, rows after = map g (rows before)
            /\ forall t, g t = t \/ exists now, g t = Server.touch now t.

End Hook.

(** ** Window strings that lack an end *)

Module Malformed.

(** A window string without a hyphen, or with nothing before its first
    hyphen, or with a hyphen only at its very end: ["22:00"], ["-06:00"],
    ["22:00-"]. *)
Definition lacks_an_end (s : string) : Prop :=
  Window.free_of "-" s = true
  \/ (exists a, s = String "-" a)
  \/ (exists a, s = (a ++ "-")%string /\ Window.free_of "-" a = true).

End Malformed.

(** ** Body values of the sending tool ([tools/b24-ui/server.cjs]) *)

Module B24.

(** [obj[key]] on a parsed JSON object; [None] is [undefined]. *)
Definition property (key : string) (kvs : list (string * JS.JVal)) : option JS.JVal :=
  option_map snd (find (fun kv => String.eqb (fst kv) key) kvs).

(** [['header', 'header_text', 'header_media_url', 'buttons'].includes(key)] *)
Definition reserved (key : string) : bool :=
  existsb (String.eqb key) ["header"; "header_text"; "header_media_url"; "buttons"].

(** The array [values] of [deriveBodyValues] before it is padded;
    [variablesInput = None] is [undefined]. *)
Definition supplied (variablesInput : option JS.JVal) : list JS.JVal :=
  match variablesInput with
  | Some (JS.JArr l) => l
  | Some (JS.JObj kvs) =>
      match property "body" kvs with
      | Some (JS.JArr l) => l
      | Some (JS.JObj body) => map snd body
      | _ => map snd (filter (fun kv => negb (reserved (fst kv))) kvs)
      end
  | _ => []
  end.

(** [value === undefined || value === null ? '' : String(value)] *)
Definition text_of (v : JS.JVal) : string :=
  match v with JS.JNull => "" | _ => JS.toString v end.

(** [deriveBodyValues(template, variablesInput)], with [expected] the
    number of body placeholders of the template. *)
Definition deriveBodyValues (expected : nat) (variablesInput : option JS.JVal)
    : list string :=
  if (expected =? 0)%nat then [] else
  let values := supplied variablesInput in
  let values := (values ++ repeat (JS.JStr "") (expected - List.length values))%list in
  map text_of (firstn expected values).

(** The body component of [buildComponentsForSend]. *)
Definition body_component (expected : nat) (variablesInput : option JS.JVal)
    : list Component :=
  let bodyValues := deriveBodyValues expected variablesInput in
  match bodyValues with
  | [] => []
  | _ => [mkComponent "body" (map (fun text => mkTextParam "text" text) bodyValues)]
  end.

End B24.

(** ** The BODY step of the diagnostic tool ([tools/doctor.js]) *)

Module Doctor.

(** [placeholderSlots(text)]: the distinct positive placeholder numbers of
    the text, ascending. *)
Definition placeholderSlots (text : string) : list Z :=
  Templates.sort_numbers
    (filter (fun n => 0 <? n) (nodup Z.eq_dec (Templates.matches text))).

(** [SAFE_VARIABLE_KEYS.has(key)] *)
Definition safe_key (key : string) : bool :=
  existsb (String.eqb key)
    ["body"; "header"; "header_text"; "header_media_url"; "header_media"; "buttons"].

(** [extractBodyValues(variables, expected)]; [variables = None] is
    [undefined]. *)
Definition extractBodyValues (variables : option JS.JVal) (expected : nat)
    : list JS.JVal :=
  match variables with
  | None => []
  | Some v =>
      if negb (JS.truthy v) || (expected =? 0)%nat then [] else
      match v with
      | JS.JArr l => l
      | JS.JObj kvs =>
          match B24.property "body" kvs with
          | Some (JS.JArr l) => l
          | Some (JS.JObj body) => map snd body
          | _ => map snd (filter (fun kv => negb (safe_key (fst kv))) kvs)
          end
      | JS.JStr s => JS.chars_of s      (* the keys of a string are its indices *)
      | _ => []
      end
  end.

Definition incomplete_body (expected got : nat) : JsError :=
  mkJsError None
    ("Variables incompletas para BODY: se esperaban "
     ++ JS.decimal_of_Z (Z.of_nat expected) ++ " y llegaron "
     ++ JS.decimal_of_Z (Z.of_nat got)).

(** The BODY step of [buildComponents(template, variables)], its first
    step: a throw here leaves the function, and the send route calls
    [sendTemplateMessage] only after [buildComponents] has returned.
    [bodyText] is the text of the template's BODY component, [None] when
    the template has none. *)
Definition build_body (bodyText : option string) (variables : option JS.JVal)
    : Outcome (list Component) :=
  match bodyText with
  | None => Ret []
  | Some text =>
      let slots := placeholderSlots text in
      match slots with
      | [] => Ret []
      | _ =>
          let bodyValues := extractBodyValues variables (List.length slots) in
          if (List.length bodyValues <? List.length slots)%nat
          then Throw (incomplete_body (List.length slots) (List.length bodyValues))
          else Ret [mkComponent "body"
                      (map Worker.text_param (firstn (List.length slots) bodyValues))]
      end
  end.

End Doctor.

(** ** Proof automation for the monad *)

(** Unfolds the monadic combinators down to plain state passing. *)
Ltac unfold_m :=
  unfold Worker.markDone, Worker.markFailed in *;
  unfold nowIso, Date_now in *;
  unfold bind, ret, throw, try_catch, run_db, read_db, new_Date, emit in *.

(** Reduces projections of the store and of the world, and nothing else. *)
Ltac db_fields :=
  cbn [fst snd w_db w_reads w_log campaigns campaign_targets messages events
       senders queue with_campaigns with_targets with_messages with_events
       with_senders with_queue] in *.

(* ================================================================= *)
(** * Part II: properties *)
(* ================================================================= *)

(** ** The helpers on concrete inputs *)

Example normalizePhone_international :
  Phone.normalizePhone (Some "+51 918-131-082") "51" = "51918131082".
Proof. reflexivity. Qed.

Example normalizePhone_double_zero_prefix :
  Phone.normalizePhone (Some "0051918131082") "" = "51918131082".
Proof. reflexivity. Qed.

Example normalizePhone_trunk_zero :
  Phone.normalizePhone (Some "016193638") "51" = "5116193638".
Proof. reflexivity. Qed.

Example normalizePhone_null : Phone.normalizePhone None "51" = "".
Proof. reflexivity. Qed.

Example isLikelyValidPhone_bounds :
  Phone.isLikelyValidPhone "123456" = false
  /\ Phone.isLikelyValidPhone "1234567" = true
  /\ Phone.isLikelyValidPhone "123456789012345" = true
  /\ Phone.isLikelyValidPhone "1234567890123456" = false
  /\ Phone.isLikelyValidPhone "+51918131082" = false.
Proof. repeat split. Qed.

Example Number_on_fields :
  JS.Number "22" = Some 22 /\ JS.Number "06" = Some 6 /\ JS.Number "" = Some 0
  /\ JS.Number "6h" = None.
Proof. repeat split. Qed.

Example split_window : JS.split "-" "22:00-06:00" = ["22:00"; "06:00"].
Proof. reflexivity. Qed.

Example split_edge_cases :
  JS.split "-" "" = [""] /\ JS.split "-" "-" = [""; ""] /\ JS.split "-" "a" = ["a"].
Proof. repeat split. Qed.

Example trim_both_ends : JS.trim "  a b  " = "a b".
Proof. reflexivity. Qed.

Example toString_of_values :
  JS.toString (JS.JNum (-12)) = "-12"
  /\ JS.toString (JS.JArr [JS.JNum 1; JS.JNull; JS.JStr "x"]) = "1,,x"
  /\ JS.toString (JS.JObj [("a", JS.JNum 1)]) = "[object Object]".
Proof. repeat split. Qed.

Example inWindow_without_window : Wa.inWindow Scenario.noon "" = true.
Proof. reflexivity. Qed.

Example inWindow_malformed_field_is_NaN :
  Wa.inWindow Scenario.noon "22-06:00" = false
  /\ Wa.inWindow (mkDate 0 5 0) "22-06:00" = true.
Proof. split; reflexivity. Qed.

Example extractPlaceholders_test_template :
  Templates.extractPlaceholders Scenario.two_placeholder_body = ["{{1}}"; "{{2}}"].
Proof. reflexivity. Qed.

Example extractPlaceholders_unique_sorted_positive :
  Templates.extractPlaceholders "a {{3}} {{{1}} {{x}} {{0}} {{3}} {{12}}}"
  = ["{{1}}"; "{{3}}"; "{{12}}"].
Proof. reflexivity. Qed.

Example window_string_renders :
  Window.window_string 22 0 6 0 = "22:00-06:00".
Proof. reflexivity. Qed.

(** ** Generic facts about tables and the monad *)

Lemma rows_update_where {A} (p : A -> bool) (f : A -> A) (t : Table A) :
  rows (update_where p f t) = map (fun r => if p r then f r else r) (rows t).
Proof. reflexivity. Qed.

Lemma find_some_unique {A} (key : A -> Z) (l : list A) (r : A) :
  NoDup (map key l) -> In r l ->
  find (fun x => key x =? key r) l = Some r.
Proof.
  induction l as [|x l IH]; simpl; intros Hnd Hin; [contradiction|].
  inversion Hnd as [|? ? Hx Hl]; subst.
  destruct Hin as [->|Hin].
  - now rewrite Z.eqb_refl.
  - destruct (Z.eqb_spec (key x) (key r)) as [E|_].
    + exfalso. apply Hx. rewrite E. now apply in_map.
    + now apply IH.
Qed.

Lemma select_first_In {A} (p : A -> bool) (t : Table A) (r : A) :
  select_first p t = Some r -> In r (rows t) /\ p r = true.
Proof. unfold select_first. apply find_some. Qed.

Lemma select_first_none {A} (p : A -> bool) (t : Table A) :
  (forall r, In r (rows t) -> p r = false) -> select_first p t = None.
Proof.
  intros H. unfold select_first.
  destruct (find p (rows t)) as [r|] eqn:E; [|reflexivity].
  apply find_some in E as [Hin Hp]. rewrite (H r Hin) in Hp. discriminate.
Qed.

Lemma max_rowid_bound {A} (rowid : A -> Z) (l : list A) r :
  In r l -> rowid r <= max_rowid rowid l.
Proof.
  induction l as [|x l IH]; simpl; [contradiction|].
  intros [->|H]; [lia|]. specialize (IH H). lia.
Qed.

(** A fresh rowid is above every rowid of the table. *)
Lemma next_rowid_fresh {A} (rowid : A -> Z) (t : Table A) r :
  In r (rows t) -> rowid r < next_rowid rowid t.
Proof.
  intros H. apply (max_rowid_bound rowid) in H. unfold next_rowid. lia.
Qed.

Lemma update_where_none {A} (p : A -> bool) (f : A -> A) (l : list A) :
  (forall r, In r l -> p r = false) ->
  map (fun r => if p r then f r else r) l = l.
Proof.
  intros H. induction l as [|x l IH]; simpl; [reflexivity|].
  rewrite (H x) by (simpl; auto). f_equal. apply IH.
  intros r Hr. apply H. simpl; auto.
Qed.

(** ** The work queue *)

Module QueueFacts.
Import Queue.

Lemma insert_by_id_perm r l : Permutation (insert_by_id r l) (r :: l).
Proof.
  induction l as [|x l IH]; simpl; [reflexivity|].
  destruct (q_id r <? q_id x); [reflexivity|].
  rewrite IH. apply perm_swap.
Qed.

Lemma order_by_id_perm l : Permutation (order_by_id l) l.
Proof.
  induction l as [|x l IH]; simpl; [reflexivity|].
  rewrite insert_by_id_perm. now constructor.
Qed.

Lemma insert_by_id_sorted r l :
  StronglySorted le_id l -> StronglySorted le_id (insert_by_id r l).
Proof.
  induction 1 as [|x l Hs IH Hall]; simpl.
  - repeat constructor.
  - destruct (Z.ltb_spec (q_id r) (q_id x)) as [Hlt|Hge].
    + constructor; [now constructor|].
      constructor; [unfold le_id; lia|].
      eapply Forall_impl; [|exact Hall]. unfold le_id. intros; lia.
    + constructor; [exact IH|].
      eapply Permutation_Forall; [symmetry; apply insert_by_id_perm|].
      constructor; [exact Hge|exact Hall].
Qed.

Lemma order_by_id_sorted l : StronglySorted le_id (order_by_id l).
Proof.
  induction l; simpl; [constructor|now apply insert_by_id_sorted].
Qed.

Lemma sorted_le_nodup_lt l :
  StronglySorted le_id l -> NoDup (map q_id l) -> StronglySorted lt_id l.
Proof.
  induction 1 as [|x l Hs IH Hall]; simpl; intros Hnd; [constructor|].
  inversion Hnd as [|? ? Hx Hl]; subst.
  constructor; [now apply IH|].
  rewrite Forall_forall in *. intros y Hy.
  specialize (Hall y Hy). unfold le_id, lt_id in *.
  assert (q_id x <> q_id y).
  { intros E. apply Hx. rewrite E. now apply in_map. }
  lia.
Qed.

Lemma sorted_firstn {R : QueueRow -> QueueRow -> Prop} n l :
  StronglySorted R l -> StronglySorted R (firstn n l).
Proof.
  intros H. revert n. induction H as [|x l Hs IH Hall]; intros [|n]; simpl;
    try constructor; auto.
  rewrite Forall_forall in *. intros y Hy. apply Hall.
  rewrite <- (firstn_skipn n l). apply in_or_app. now left.
Qed.

Lemma sorted_firstn_skipn {R : QueueRow -> QueueRow -> Prop} n l :
  StronglySorted R l ->
  forall a b, In a (firstn n l) -> In b (skipn n l) -> R a b.
Proof.
  intros H. revert n. induction H as [|x l Hs IH Hall]; intros [|n] a b; simpl;
    try contradiction.
  intros [->|Ha] Hb.
  - rewrite Forall_forall in Hall. apply Hall.
    rewrite <- (firstn_skipn n l). apply in_or_app. now right.
  - now apply (IH n).
Qed.

Lemma nodup_ids_filter (p : QueueRow -> bool) l :
  NoDup (map q_id l) -> NoDup (map q_id (filter p l)).
Proof.
  induction l as [|x l IH]; simpl; intros Hnd; [constructor|].
  inversion Hnd as [|? ? Hx Hl]; subst.
  destruct (p x); simpl; auto.
  constructor; auto.
  intros Hin. apply Hx. apply in_map_iff in Hin as (y & E & Hy).
  apply filter_In in Hy as [Hy _]. apply in_map_iff. eauto.
Qed.

(** The marking loop rewrites exactly the rows whose rowid is in the list. *)
Lemma rows_mark_all ids q :
  rows (fold_left mark_processing ids q)
  = map (fun r => if existsb (fun i => i =? q_id r) ids
                  then set_status QProcessing r else r) (rows q).
Proof.
  revert q. induction ids as [|i ids IH]; intros q; simpl.
  - symmetry. apply map_id.
  - rewrite IH. unfold mark_processing. rewrite rows_update_where, map_map.
    apply map_ext. intros r. unfold has_id.
    rewrite (Z.eqb_sym i (q_id r)).
    destruct (q_id r =? i); simpl; [|reflexivity].
    now destruct (existsb _ ids).
Qed.

Lemma seq_mark_all ids q : seq (fold_left mark_processing ids q) = seq q.
Proof. revert q. induction ids; intros q; simpl; [reflexivity|now rewrite IHids]. Qed.

Lemma claimed_map_job_of sel r :
  claimed (map job_of sel) r = existsb (fun i => i =? q_id r) (map q_id sel).
Proof.
  unfold claimed. induction sel; simpl; [reflexivity|]. now rewrite IHsel.
Qed.

Lemma claimed_true_iff jobs r :
  claimed jobs r = true <-> In (q_id r) (map job_id jobs).
Proof.
  unfold claimed. rewrite existsb_exists, in_map_iff. split.
  - intros (j & Hj & E). apply Z.eqb_eq in E. eauto.
  - intros (j & E & Hj). exists j. split; [exact Hj|]. now apply Z.eqb_eq.
Qed.

(** A row that is not ['queued'] is never selected. *)
Lemma fetchBatch_skips_non_queued now limit q :
  forall j, In j (fst (fetchBatch now limit q)) ->
  exists r, In r (rows q) /\ q_id r = job_id j /\ q_status r = QQueued.
Proof.
  intros j Hj. unfold fetchBatch in Hj. simpl in Hj.
  apply in_map_iff in Hj as (r & <- & Hr).
  assert (In r (order_by_id (filter (eligible now) (rows q)))) as Hin.
  { unfold select_batch, sql_limit in Hr. destruct (limit <? 0); [exact Hr|].
    rewrite <- (firstn_skipn (Z.to_nat limit)). apply in_or_app. now left. }
  apply (Permutation_in _ (order_by_id_perm _)) in Hin.
  apply filter_In in Hin as [Hin He].
  exists r. repeat split; auto.
  unfold eligible in He. apply andb_true_iff in He as [He _].
  now destruct (q_status r).
Qed.

(** *** The primary key is kept by every operation of the queue *)

Lemma ids_update_where p f (q : Table QueueRow) :
  (forall r, q_id (f r) = q_id r) ->
  map q_id (rows (update_where p f q)) = map q_id (rows q).
Proof.
  intros Hf. rewrite rows_update_where, map_map. apply map_ext.
  intros r. destruct (p r); [apply Hf|reflexivity].
Qed.

Lemma distinct_ids_empty : distinct_ids empty_table.
Proof. constructor. Qed.

Lemma distinct_ids_enqueueTarget now c t p q :
  distinct_ids q -> distinct_ids (enqueueTarget now c t p q).
Proof.
  unfold distinct_ids, enqueueTarget, insert_row. cbn [rows]. intros H.
  rewrite map_app. cbn [map q_id]. apply NoDup_app; [exact H|repeat constructor; auto|].
  intros x Hx [<-|[]]. apply in_map_iff in Hx as (r & E & Hr).
  pose proof (max_rowid_bound q_id (rows q) r Hr) as B.
  unfold next_rowid in E. lia.
Qed.

Lemma distinct_ids_markDone id q : distinct_ids q -> distinct_ids (markDone id q).
Proof. unfold distinct_ids, markDone. now rewrite ids_update_where. Qed.

Lemma distinct_ids_markFailed now id b q :
  distinct_ids q -> distinct_ids (markFailed now id b q).
Proof. unfold distinct_ids, markFailed. now rewrite ids_update_where. Qed.


(** C1. [fetchBatch] returns the first eligible rows in ascending rowid
    order, at most [limit] of them, marks exactly those rows ['processing']
    and leaves every other row as it was; a returned row is not returned
    again by a later call as long as it has not been put back to ['queued'].

    Stated for a queue whose rowids are pairwise distinct (the primary key):
    - every returned job is the projection of an eligible row of the queue;
    - the returned jobs are in strictly ascending rowid order;
    - their number is the smaller of [limit] and the number of eligible rows
      (all the eligible rows for a negative [limit], which SQLite reads as
      "no limit");
    - an eligible row that is not returned has a larger rowid than every
      returned one;
    - afterwards a row is ['processing'] with its other columns unchanged if
      it was returned, and untouched otherwise;
    - in any later queue state where the returned rows have not gone back
      to ['queued'] (the state right after the call is one), no call returns
      any of them. *)
Theorem fetchBatch_exclusive_fifo_claim :
  forall (now limit : Z) (q : Table QueueRow),
    distinct_ids q ->
    let jobs := fst (fetchBatch now limit q) in
    let q' := snd (fetchBatch now limit q) in
    let eligible_rows := filter (eligible now) (rows q) in
    (exists selected,
        jobs = map job_of selected
        /\ (forall r, In r selected -> In r (rows q) /\ eligible now r = true)
        /\ StronglySorted lt_id selected
        /\ (0 <= limit ->
            List.length selected
            = Nat.min (Z.to_nat limit) (List.length eligible_rows))
        /\ (limit < 0 -> List.length selected = List.length eligible_rows)
        /\ (forall r, In r (rows q) -> eligible now r = true -> ~ In r selected ->
            forall s, In s selected -> q_id s < q_id r))
    /\ rows q' = map (fun r => if claimed jobs r
                               then set_status QProcessing r else r) (rows q)
    /\ seq q' = seq q
    /\ (forall q2 : Table QueueRow,
          (forall r, In r (rows q2) -> claimed jobs r = true -> q_status r <> QQueued) ->
          forall now2 limit2 j,
            In j (fst (fetchBatch now2 limit2 q2)) -> ~ In (job_id j) (map job_id jobs))
    /\ (forall r, In r (rows q') -> claimed jobs r = true -> q_status r <> QQueued).
Proof.
  intros now limit q Hnd jobs q' elig.
  set (sorted := order_by_id elig).
  set (k := if limit <? 0 then List.length sorted else Z.to_nat limit).
  set (selected := firstn k sorted).
  assert (Hsel : select_batch now limit q = selected).
  { unfold select_batch, sql_limit, selected, k. fold elig. fold sorted.
    destruct (limit <? 0); [now rewrite firstn_all|reflexivity]. }
  assert (Hjobs : jobs = map job_of selected).
  { unfold jobs, fetchBatch. simpl. now rewrite Hsel. }
  assert (Hperm : Permutation sorted elig) by apply order_by_id_perm.
  assert (Hsub : forall r, In r selected -> In r sorted).
  { intros r Hr. unfold selected in Hr.
    rewrite <- (firstn_skipn k sorted). apply in_or_app. now left. }
  assert (Hrows' : rows q' = map (fun r => if claimed jobs r
                               then set_status QProcessing r else r) (rows q)).
  { unfold q', fetchBatch. simpl. rewrite rows_mark_all, Hsel.
    apply map_ext. intros r. now rewrite Hjobs, claimed_map_job_of. }
  assert (Hs_lt : StronglySorted lt_id sorted).
  { apply sorted_le_nodup_lt; [apply order_by_id_sorted|].
    eapply Permutation_NoDup.
    - apply Permutation_map. symmetry. exact Hperm.
    - now apply nodup_ids_filter. }
  split; [|split; [|split; [|split]]].
  - exists selected. split; [exact Hjobs|]. split; [|split; [|split; [|split]]].
    + intros r Hr. apply Hsub in Hr.
      apply (Permutation_in _ Hperm) in Hr. now apply filter_In in Hr.
    + now apply sorted_firstn.
    + intros Hlim. unfold selected, k.
      destruct (Z.ltb_spec limit 0); [lia|].
      now rewrite length_firstn, (Permutation_length Hperm).
    + intros Hlim. unfold selected, k.
      destruct (Z.ltb_spec limit 0); [|lia].
      now rewrite firstn_all, (Permutation_length Hperm).
    + intros r Hr He Hnot s Hs.
      assert (In r sorted) as Hin.
      { apply (Permutation_in _ (Permutation_sym Hperm)). now apply filter_In. }
      rewrite <- (firstn_skipn k sorted) in Hin.
      apply in_app_or in Hin as [Hin|Hin]; [now elim Hnot|].
      exact (sorted_firstn_skipn _ _ Hs_lt s r Hs Hin).
  - exact Hrows'.
  - unfold q', fetchBatch. simpl. apply seq_mark_all.
  - intros q2 Hq2 now2 limit2 j Hj Hin.
    destruct (fetchBatch_skips_non_queued now2 limit2 q2 j Hj) as (r & Hr & Hid & Hst).
    apply (Hq2 r Hr); [|exact Hst].
    apply claimed_true_iff. now rewrite Hid.
  - intros r Hr Hc. rewrite Hrows' in Hr.
    apply in_map_iff in Hr as (r0 & E & _).
    destruct (claimed jobs r0) eqn:Hc0.
    + subst r. simpl. discriminate.
    + subst r. congruence.
Qed.

(** An instance of C1 on a four-row queue: rows 1 and 3 are eligible and
    claimed, row 2 is not yet available, row 4 is already done. *)
Lemma fetchBatch_exclusive_fifo_claim_witness :
  let q := mkTable
             [ mkQueueRow 1 7 11 "p" 100 0 QQueued;
               mkQueueRow 2 7 12 "p" 900 0 QQueued;
               mkQueueRow 3 7 13 "p" 200 1 QQueued;
               mkQueueRow 4 7 14 "p" 100 0 QDone ] 4 in
  fst (fetchBatch 500 2 q) = [mkJob 1 7 11 "p" 0; mkJob 3 7 13 "p" 1]
  /\ rows (snd (fetchBatch 500 2 q))
     = map (fun r => if claimed (fst (fetchBatch 500 2 q)) r
                     then set_status QProcessing r else r) (rows q).
Proof.
  intros q. split; [reflexivity|].
  refine (proj1 (proj2 (fetchBatch_exclusive_fifo_claim 500 2 q _))).
  unfold distinct_ids. simpl. repeat constructor; simpl; intuition lia.
Defined.

(** [backoff_delay] grows with the attempt count and is capped. *)
Lemma backoff_delay_monotone b a1 a2 :
  0 <= b -> a1 <= a2 -> backoff_delay b a1 <= backoff_delay b a2.
Proof. unfold backoff_delay. intros. apply Z.mul_le_mono_nonneg_l; lia. Qed.

Lemma backoff_delay_capped b a : 0 <= b -> backoff_delay b a <= 10 * b.
Proof. unfold backoff_delay. intros. nia. Qed.

(** C2. For a queue entry with attempt count [a], [markFailed] stores
    [a + 1] attempts, status ['queued'] and
    [available_at = now + backoffMs * min(a + 1, 10)], and touches no other
    row; consequently, for a delay base [backoffMs >= 0], the retry delay
    never decreases when the attempt count grows and never exceeds
    [10 * backoffMs]. *)
Theorem markFailed_capped_linear_backoff :
  forall (now id backoffMs : Z) (q : Table QueueRow) (r : QueueRow),
    distinct_ids q ->
    In r (rows q) ->
    q_id r = id ->
    let a := q_attempts r in
    let r' := mkQueueRow (q_id r) (q_campaign_id r) (q_target_id r) (q_phone_id r)
                (now + backoffMs * Z.min (a + 1) 10) (a + 1) QQueued in
    rows (markFailed now id backoffMs q)
      = map (fun x => if q_id x =? id then r' else x) (rows q)
    /\ In r' (rows (markFailed now id backoffMs q))
    /\ seq (markFailed now id backoffMs q) = seq q
    /\ q_available_at r' - now = backoff_delay backoffMs (a + 1)
    /\ (0 <= backoffMs ->
        (forall a1 a2, a1 <= a2 ->
           backoff_delay backoffMs (a1 + 1) <= backoff_delay backoffMs (a2 + 1))
        /\ (forall a1, backoff_delay backoffMs (a1 + 1) <= 10 * backoffMs)).
Proof.
  intros now id b q r Hnd Hin Hid a r'.
  assert (Hsel : select_first (has_id id) q = Some r).
  { unfold select_first, has_id. rewrite <- Hid.
    now apply (find_some_unique q_id). }
  assert (Hrows : rows (markFailed now id b q)
                  = map (fun x => if q_id x =? id then r' else x) (rows q)).
  { unfold markFailed. rewrite Hsel, rows_update_where.
    apply map_ext_in. intros x Hx. unfold has_id.
    destruct (Z.eqb_spec (q_id x) id) as [E|_]; [|reflexivity].
    assert (x = r) as ->.
    { assert (Hf := find_some_unique q_id (rows q) x Hnd Hx).
      assert (Hg := find_some_unique q_id (rows q) r Hnd Hin).
      rewrite E, <- Hid in Hf. congruence. }
    reflexivity. }
  split; [exact Hrows|]. split; [|split; [|split]].
  - rewrite Hrows. apply in_map_iff. exists r. split; [|exact Hin].
    rewrite Hid, Z.eqb_refl. reflexivity.
  - reflexivity.
  - unfold r', backoff_delay. cbn [q_available_at]. lia.
  - intros Hb. split.
    + intros a1 a2 H. apply backoff_delay_monotone; lia.
    + intros a1. now apply backoff_delay_capped.
Qed.

(** C2 at the worker's own call [markFailed(job.id, 3000)], third failure. *)
Lemma markFailed_capped_linear_backoff_witness :
  let q := mkTable [ mkQueueRow 1 7 11 "p" 100 2 QProcessing;
                     mkQueueRow 2 7 12 "p" 100 0 QQueued ] 2 in
  rows (markFailed 1000 1 3000 q)
  = [ mkQueueRow 1 7 11 "p" 10000 3 QQueued; mkQueueRow 2 7 12 "p" 100 0 QQueued ].
Proof.
  intros q.
  refine (eq_trans
            (proj1 (markFailed_capped_linear_backoff 1000 1 3000 q
                      (mkQueueRow 1 7 11 "p" 100 2 QProcessing) _ _ _)) _).
  - unfold distinct_ids. simpl. repeat constructor; simpl; intuition lia.
  - simpl. now left.
  - reflexivity.
  - reflexivity.
Defined.

End QueueFacts.

(** ** The dispatch worker *)

Module WorkerFacts.
Import Worker.

Lemma fail_job_returns env job target err w :
  fst (fail_job env job target err w) = Ret tt.
Proof. reflexivity. Qed.

(** One job never makes the loop stop: whatever happens inside the [try]
    is caught. *)
Lemma process_job_returns env job w : fst (process_job env job w) = Ret tt.
Proof.
  unfold process_job. unfold_m. simpl.
  destruct (select_first _ (campaigns (w_db w))) as [camp|]; [|reflexivity].
  destruct (gated (c_status camp)); [reflexivity|].
  destruct (select_first _ (campaign_targets (w_db w))) as [target|]; [|reflexivity].
  destruct (negb (Phone.isLikelyValidPhone (t_phone target))); [reflexivity|].
  destruct (send_job env job camp target w) as [[[]|e] w1]; [reflexivity|].
  apply fail_job_returns.
Qed.

Lemma for_each_returns {A} (f : A -> M unit) l :
  (forall x w, fst (f x w) = Ret tt) -> forall w, fst (for_each f l w) = Ret tt.
Proof.
  intros Hf. induction l as [|x l IH]; intros w; simpl; [reflexivity|].
  unfold bind. specialize (Hf x w). destruct (f x w) as [[u|e] w1]; simpl in Hf.
  - apply IH.
  - discriminate.
Qed.

Lemma sweep_campaign_returns c w : fst (sweep_campaign c w) = Ret tt.
Proof.
  unfold sweep_campaign. unfold_m. simpl.
  now destruct (_ =? _)%nat.
Qed.

Lemma sweep_returns w : fst (sweep w) = Ret tt.
Proof.
  unfold sweep. unfold_m. simpl.
  destruct (_ =? _)%nat; [|reflexivity].
  apply for_each_returns. apply sweep_campaign_returns.
Qed.

Lemma fetchBatch_run env limit w :
  let now := epoch_ms (clock env (w_reads w)) in
  fetchBatch env limit w
  = (Ret (fst (Queue.fetchBatch now limit (queue (w_db w)))),
     mkWorld (with_queue (fun _ => snd (Queue.fetchBatch now limit (queue (w_db w))))
                         (w_db w))
             (S (w_reads w)) (w_log w)).
Proof.
  unfold fetchBatch, Date_now, new_Date, bind, ret. cbv beta iota. cbn [w_db w_reads w_log].
  now destruct (Queue.fetchBatch _ _ _).
Qed.

Lemma tick_work_returns env w : fst (tick_work env w) = Ret tt.
Proof.
  unfold tick_work, try_catch.
  destruct (tick_body env w) as [[[]|e] w1]; reflexivity.
Qed.

(** The loop of a tick, job by job: the jobs after a prefix are processed
    from the state the prefix has left. *)
Lemma for_each_process_app env l1 l2 w :
  for_each (process_job env) (l1 ++ l2) w
  = for_each (process_job env) l2 (snd (for_each (process_job env) l1 w)).
Proof.
  revert w. induction l1 as [|j l1 IH]; intros w; simpl; [reflexivity|].
  unfold bind. assert (H := process_job_returns env j w).
  destruct (process_job env j w) as [[u|e] w1]; simpl in H; [|discriminate].
  apply IH.
Qed.

(** The turn of one job inside the loop: it is processed from the state
    its predecessors have left, and its successors go on from the state it
    leaves. *)
Lemma loop_step env before job after w0 :
  for_each (process_job env) (before ++ job :: after) w0
  = for_each (process_job env) after
      (snd (process_job env job (snd (for_each (process_job env) before w0)))).
Proof.
  rewrite for_each_process_app. cbn [for_each]. unfold bind.
  set (w := snd (for_each (process_job env) before w0)).
  assert (H := process_job_returns env job w).
  destruct (process_job env job w) as [[u|e] w1]; simpl in H; [reflexivity|discriminate].
Qed.

Lemma reached_all env batch : interrupted env batch = false -> reached env batch = batch.
Proof.
  unfold interrupted. induction batch as [|j l IH]; [reflexivity|].
  cbn [existsb reached]. unfold fails_at at 1.
  destruct (db_failure env (job_id j)); [discriminate|].
  cbn [orb]. intros H. now rewrite IH.
Qed.

Lemma reached_prefix env batch : exists rest, batch = (reached env batch ++ rest)%list.
Proof.
  induction batch as [|j l (rest & IH)]; [now exists []|].
  cbn [reached]. destruct (db_failure env (job_id j)).
  - now exists (j :: l).
  - exists rest. cbn [app]. now rewrite <- IH.
Qed.

Lemma reached_length env batch :
  (List.length (reached env batch) <= List.length batch)%nat.
Proof.
  destruct (reached_prefix env batch) as (rest & E). rewrite E at 2.
  rewrite length_app. lia.
Qed.

(** The loop of a tick with its exceptions: the rounds reached are those of
    [process_job], and the loop throws exactly when it is interrupted. *)
Lemma rounds_run env batch :
  forall w,
    snd (for_each (round env) batch w)
    = snd (for_each (process_job env) (reached env batch) w)
    /\ (interrupted env batch = false -> fst (for_each (round env) batch w) = Ret tt)
    /\ (interrupted env batch = true ->
        exists e, fst (for_each (round env) batch w) = Throw e).
Proof.
  unfold interrupted. induction batch as [|j l IH]; intros w.
  - cbn. repeat split; auto. discriminate.
  - cbn [for_each reached existsb]. unfold bind, round, fails_at at 1 3.
    destruct (db_failure env (job_id j)) as [e|].
    + cbn. repeat split; [discriminate|eauto].
    + cbn [orb for_each]. unfold bind.
      assert (H := process_job_returns env j w).
      destruct (process_job env j w) as [[u|e] w1]; simpl in H; [|discriminate].
      apply IH.
Qed.

(** A tick that is let through claims a batch, runs the loop over it from
    the state the claim has left, and ends with the sweep, unless the loop
    is interrupted: then it ends with the last round reached. *)
Lemma tick_work_run env w :
  let now := epoch_ms (clock env (w_reads w)) in
  let claim := Queue.fetchBatch now (BATCH_SIZE env) (queue (w_db w)) in
  let w0 := mkWorld (with_queue (fun _ => snd claim) (w_db w))
                    (S (w_reads w)) (w_log w) in
  tick_work env w
  = match fst claim with
    | [] => (Ret tt, w0)
    | _ => if interrupted env (fst claim)
           then (Ret tt, snd (for_each (process_job env) (reached env (fst claim)) w0))
           else sweep (snd (for_each (process_job env) (fst claim) w0))
    end.
Proof.
  cbv zeta. unfold tick_work, tick_body, try_catch, bind. rewrite fetchBatch_run.
  cbv beta iota zeta.
  destruct (fst (Queue.fetchBatch _ _ _)) as [|j jobs]; [reflexivity|].
  set (w0 := mkWorld _ _ _).
  destruct (rounds_run env (j :: jobs) w0) as (Hsnd & Hok & Hbad).
  destruct (interrupted env (j :: jobs)) eqn:Hi.
  - destruct (Hbad eq_refl) as (e & He).
    destruct (for_each (round env) (j :: jobs) w0) as [[u|e0] w1];
      cbn [fst snd] in *; [discriminate|]. unfold ret. now rewrite Hsnd.
  - specialize (Hok eq_refl). rewrite (reached_all _ _ Hi) in Hsnd.
    destruct (for_each (round env) (j :: jobs) w0) as [[u|e0] w1];
      cbn [fst snd] in *; [|discriminate]. rewrite Hsnd.
    assert (R := sweep_returns (snd (for_each (process_job env) (j :: jobs) w0))).
    destruct (sweep _) as [[[]|e1] w2]; cbn [fst] in R; [reflexivity|discriminate].
Qed.

(** The effect of [markDone] on the claimed row. *)
Lemma markDone_sets_done id q r :
  In r (rows q) -> q_id r = id -> In (Queue.set_status QDone r) (rows (Queue.markDone id q)).
Proof.
  intros Hin Hid. unfold Queue.markDone. rewrite rows_update_where.
  apply in_map_iff. exists r. split; [|exact Hin].
  unfold Queue.has_id. rewrite Hid, Z.eqb_refl. reflexivity.
Qed.

(** C5. A job whose parent campaign is ['paused'], ['canceled'], ['done'] or
    ['error'] when the job is processed is marked ['done'] at once: the
    queue changes by [markDone] only, no provider call is issued, and the
    targets, campaigns, messages, events and senders are left as they
    were.  Inside the loop of a tick, the jobs that follow are processed
    from that state. *)
Theorem gated_campaign_job_is_dropped :
  forall (env : Env) (job : Job) (w : World) (camp : Campaign),
    select_first (has_campaign_id (job_campaign_id job)) (campaigns (w_db w))
      = Some camp ->
    In (c_status camp) [CPaused; CCanceled; CDone; CError] ->
    let w' := snd (process_job env job w) in
    fst (process_job env job w) = Ret tt
    /\ queue (w_db w') = Queue.markDone (job_id job) (queue (w_db w))
    /\ (forall r, In r (rows (queue (w_db w))) -> q_id r = job_id job ->
         In (Queue.set_status QDone r) (rows (queue (w_db w'))))
    /\ w_log w' = w_log w
    /\ campaign_targets (w_db w') = campaign_targets (w_db w)
    /\ campaigns (w_db w') = campaigns (w_db w)
    /\ messages (w_db w') = messages (w_db w)
    /\ events (w_db w') = events (w_db w)
    /\ senders (w_db w') = senders (w_db w)
    /\ (forall before after w0,
          w = snd (for_each (process_job env) before w0) ->
          for_each (process_job env) (before ++ job :: after) w0
          = for_each (process_job env) after w').
Proof.
  intros env job w camp Hcamp Hst w'.
  assert (Hg : gated (c_status camp) = true).
  { simpl in Hst. intuition; match goal with H : _ = c_status _ |- _ => rewrite <- H end;
      reflexivity. }
  assert (E : process_job env job w
              = (Ret tt, mkWorld (with_queue (Queue.markDone (job_id job)) (w_db w))
                                 (w_reads w) (w_log w))).
  { unfold process_job. unfold_m. simpl. rewrite Hcamp, Hg. reflexivity. }
  assert (Hloop : forall before after w0,
            w = snd (for_each (process_job env) before w0) ->
            for_each (process_job env) (before ++ job :: after) w0
            = for_each (process_job env) after w').
  { intros before after w0 ->. apply loop_step. }
  unfold w' in *. rewrite E in *. simpl.
  repeat split; auto.
  intros r Hin Hid. now apply markDone_sets_done.
Qed.

(** C5 on a paused campaign: the claimed entry is done, nothing is sent and
    the target is as it was. *)
Lemma gated_campaign_job_is_dropped_witness :
  let w := Scenario.world CPaused "51918131082" Scenario.one_variable
             Scenario.claimed_entry in
  let w' := snd (process_job (Scenario.env_with "" "" Scenario.noon Scenario.accepted_with_id)
                             Scenario.job w) in
  rows (queue (w_db w')) = [Queue.set_status QDone Scenario.claimed_entry]
  /\ w_log w' = []
  /\ campaign_targets (w_db w') = campaign_targets (w_db w).
Proof.
  intros w w'.
  pose proof (gated_campaign_job_is_dropped
                (Scenario.env_with "" "" Scenario.noon Scenario.accepted_with_id)
                Scenario.job w (Scenario.campaign_in CPaused))
    as H.
  destruct H as (_ & Hq & _ & Hlog & Ht & _).
  - reflexivity.
  - simpl. auto.
  - split; [|split]; [|exact Hlog|exact Ht].
    unfold w'. rewrite Hq. reflexivity.
Defined.

(** The worker's step for a target whose phone fails the digit check, once
    the campaign gate and the target lookup have let the job through. *)
Lemma process_job_invalid_phone env job w camp target :
  select_first (has_campaign_id (job_campaign_id job)) (campaigns (w_db w))
    = Some camp ->
  gated (c_status camp) = false ->
  select_first (has_target_id (job_target_id job)) (campaign_targets (w_db w))
    = Some target ->
  Phone.isLikelyValidPhone (t_phone target) = false ->
  process_job env job w
  = (Ret tt,
     mkWorld
       (with_queue (Queue.markDone (job_id job))
          (with_targets
             (update_where (has_target_id (t_id target))
                (set_failed "telefono_invalido" (epoch_ms (clock env (w_reads w)))))
             (w_db w)))
       (S (w_reads w)) (w_log w)).
Proof.
  intros Hc Hg Ht Hp. unfold process_job. unfold_m. simpl.
  rewrite Hc, Hg. simpl. rewrite Ht, Hp. reflexivity.
Qed.

Lemma rows_update_by_id_hit (f : Target -> Target) (tbl : Table Target) (t : Target) :
  In t (rows tbl) ->
  In (f t) (rows (update_where (has_target_id (t_id t)) f tbl)).
Proof.
  intros Hin. rewrite rows_update_where. apply in_map_iff. exists t.
  split; [|exact Hin]. unfold has_target_id. now rewrite Z.eqb_refl.
Qed.

(** C4, as amended.  For a job whose campaign exists and is not ['paused'],
    ['canceled'], ['done'] or ['error'], and whose target's phone does not
    match [^\d{7,15}$]: the target becomes ['failed'] with last error
    ['telefono_invalido'], the queue entry is marked ['done'] (it is not
    re-queued: its attempts and availability are untouched), and no provider
    call is issued. *)
Theorem invalid_phone_fails_permanently :
  forall (env : Env) (job : Job) (w : World) (camp : Campaign) (target : Target),
    select_first (has_campaign_id (job_campaign_id job)) (campaigns (w_db w))
      = Some camp ->
    ~ In (c_status camp) [CPaused; CCanceled; CDone; CError] ->
    select_first (has_target_id (job_target_id job)) (campaign_targets (w_db w))
      = Some target ->
    Phone.isLikelyValidPhone (t_phone target) = false ->
    let w' := snd (process_job env job w) in
    fst (process_job env job w) = Ret tt
    /\ (exists now,
          In (mkTarget (t_id target) (t_campaign_id target) (t_phone target)
                (t_vars_json target) TFailed (Some "telefono_invalido")
                (t_wa_message_id target) (t_created_at target) now)
             (rows (campaign_targets (w_db w'))))
    /\ (forall t, In t (rows (campaign_targets (w_db w'))) -> t_id t = t_id target ->
         t_status t = TFailed /\ t_last_error t = Some "telefono_invalido")
    /\ queue (w_db w') = Queue.markDone (job_id job) (queue (w_db w))
    /\ (forall r, In r (rows (queue (w_db w))) -> q_id r = job_id job ->
         In (Queue.set_status QDone r) (rows (queue (w_db w'))))
    /\ w_log w' = w_log w.
Proof.
  intros env job w camp target Hc Hst Ht Hp w'.
  assert (Hg : gated (c_status camp) = false).
  { destruct (c_status camp); try reflexivity; exfalso; apply Hst; simpl; auto. }
  unfold w'. rewrite (process_job_invalid_phone env job w camp target Hc Hg Ht Hp).
  db_fields. split; [reflexivity|]. split; [|split; [|split; [|split]]].
  - eexists. apply (rows_update_by_id_hit (set_failed _ _)).
    now apply select_first_In in Ht.
  - intros t Hin Hid. rewrite rows_update_where in Hin.
    apply in_map_iff in Hin as (t0 & E & _).
    unfold has_target_id in E.
    destruct (Z.eqb_spec (t_id t0) (t_id target)) as [_|Hne].
    + subst t. simpl. auto.
    + subst t. contradiction.
  - reflexivity.
  - intros r Hin Hid. now apply markDone_sets_done.
  - reflexivity.
Qed.

(** C4 on a running campaign whose only target has a four-digit phone. *)
Lemma invalid_phone_fails_permanently_witness :
  let w := Scenario.world CRunning "1234" (JS.JObj []) Scenario.claimed_entry in
  let w' := snd (process_job (Scenario.env_with "" "" Scenario.noon Scenario.rejected)
                             Scenario.job w) in
  (forall t, In t (rows (campaign_targets (w_db w'))) -> t_id t = 1 ->
     t_status t = TFailed /\ t_last_error t = Some "telefono_invalido")
  /\ w_log w' = [].
Proof.
  intros w w'.
  pose proof (invalid_phone_fails_permanently
                (Scenario.env_with "" "" Scenario.noon Scenario.rejected)
                Scenario.job w (Scenario.campaign_in CRunning)
                (Scenario.target_with "1234" (JS.JObj [])))
    as H.
  destruct H as (_ & _ & Hst & _ & _ & Hlog).
  - reflexivity.
  - simpl. intuition discriminate.
  - reflexivity.
  - reflexivity.
  - split; [exact Hst|exact Hlog].
Defined.

(** C4 as stated fails when the campaign gate applies: the campaign is
    paused, the target's phone is invalid, and the tick's step for the entry
    leaves the target ['queued'] with no error recorded. *)
Lemma invalid_phone_under_paused_campaign_stays_queued :
  let w := Scenario.world CPaused "1234" (JS.JObj []) Scenario.claimed_entry in
  let env := Scenario.env_with "" "" Scenario.noon Scenario.rejected in
  let w' := snd (process_job env Scenario.job w) in
  select_first (has_target_id (job_target_id Scenario.job)) (campaign_targets (w_db w))
    = Some (Scenario.target_with "1234" (JS.JObj []))
  /\ Phone.isLikelyValidPhone "1234" = false
  /\ rows (campaign_targets (w_db w')) = [Scenario.target_with "1234" (JS.JObj [])]
  /\ t_status (Scenario.target_with "1234" (JS.JObj [])) = TQueued
  /\ ~ (forall t, In t (rows (campaign_targets (w_db w'))) -> t_id t = 1 ->
          t_status t = TFailed /\ t_last_error t = Some "telefono_invalido").
Proof.
  cbv zeta. repeat split.
  intros H. specialize (H (Scenario.target_with "1234" (JS.JObj []))).
  destruct H as [H _]; [now left|reflexivity|discriminate H].
Qed.

(** *** The send path *)

Section SendPath.
Variables (env : Env) (job : Job) (w : World) (camp : Campaign) (target : Target).
Variables (vars : JS.JVal) (vs : list JS.JVal).

Hypothesis Hcamp :
  select_first (has_campaign_id (job_campaign_id job)) (campaigns (w_db w)) = Some camp.
Hypothesis Hlive : gated (c_status camp) = false.
Hypothesis Htarget :
  select_first (has_target_id (job_target_id job)) (campaign_targets (w_db w))
    = Some target.
Hypothesis Hphone : Phone.isLikelyValidPhone (t_phone target) = true.
Hypothesis Hvars : t_vars_json target = VarsValid vars.
Hypothesis Hvalues : JS.Object_values vars = Some vs.

(** The provider accepts: message recorded, target ['sent'], entry ['done']. *)
Lemma process_job_resolved resp :
  let components := components_of (map text_param vs) in
  let req := build_request env camp target components in
  let t1 := epoch_ms (clock env (w_reads w)) in
  let t2 := epoch_ms (clock env (S (w_reads w))) in
  provider env (List.length (w_log w)) req = Resolved resp ->
  process_job env job w
  = (Ret tt,
     mkWorld
       (with_queue (Queue.markDone (job_id job))
          (with_targets
             (update_where (has_target_id (t_id target)) (set_sent (wa_id_of resp) t2))
             (with_messages
                (insert_row msg_id
                   (fun id => mkMessage id (c_id camp) (t_id target) components resp t2))
                (with_targets
                   (update_where (has_target_id (t_id target)) (set_status TSending t1))
                   (w_db w)))))
       (S (S (w_reads w))) (w_log w ++ [HttpPost req])).
Proof.
  intros components req t1 t2 Hp. unfold process_job. unfold_m. simpl.
  rewrite Hcamp, Hlive. simpl. rewrite Htarget, Hphone. simpl.
  unfold send_job, parse_vars, bodyParams, Wa.sendTemplate. unfold_m. simpl.
  rewrite Hvars, Hvalues. simpl. fold components. fold req.
  rewrite Hp. reflexivity.
Qed.

(** The provider rejects (or the network fails): target ['failed'] with the
    error text, entry re-queued by [markFailed(job.id, 3000)]. *)
Lemma process_job_rejected e :
  let components := components_of (map text_param vs) in
  let req := build_request env camp target components in
  let t1 := epoch_ms (clock env (w_reads w)) in
  let t2 := epoch_ms (clock env (S (w_reads w))) in
  let t3 := epoch_ms (clock env (S (S (w_reads w)))) in
  provider env (List.length (w_log w)) req = Rejected e ->
  process_job env job w
  = (Ret tt,
     mkWorld
       (with_queue (Queue.markFailed t3 (job_id job) 3000)
          (with_targets
             (update_where (has_target_id (t_id target))
                (set_failed (JS.take 500 (error_text e)) t2))
             (with_targets
                (update_where (has_target_id (t_id target)) (set_status TSending t1))
                (w_db w))))
       (S (S (S (w_reads w)))) (w_log w ++ [HttpPost req])).
Proof.
  intros components req t1 t2 t3 Hp. unfold process_job. unfold_m. simpl.
  rewrite Hcamp, Hlive. simpl. rewrite Htarget, Hphone. simpl.
  unfold send_job, parse_vars, bodyParams, Wa.sendTemplate. unfold_m. simpl.
  rewrite Hvars, Hvalues. simpl. fold components. fold req.
  rewrite Hp. reflexivity.
Qed.

End SendPath.

(** A lookup by provider message ID only finds rows that carry that ID. *)
Lemma lookup_by_wa_id_has_id mid tbl t :
  select_first (Server.has_wa_message_id mid) tbl = Some t ->
  t_wa_message_id t = Some mid.
Proof.
  intros H. apply select_first_In in H as [_ H].
  unfold Server.has_wa_message_id, Server.option_string_eqb in H.
  destruct (t_wa_message_id t) as [x|]; [|discriminate].
  apply String.eqb_eq in H. now subst.
Qed.

(** C10. When the provider call succeeds but the answer carries no
    [messages[0].id], the worker still appends a message record, sets the
    target to ['sent'] with a NULL [wa_message_id] and marks the queue entry
    ['done']; no lookup by provider message ID can then find that target. *)
Theorem sent_without_provider_message_id :
  forall (env : Env) (job : Job) (w : World) (camp : Campaign) (target : Target)
         (vars : JS.JVal) (vs : list JS.JVal) (resp : option WaResponse),
    select_first (has_campaign_id (job_campaign_id job)) (campaigns (w_db w))
      = Some camp ->
    gated (c_status camp) = false ->
    select_first (has_target_id (job_target_id job)) (campaign_targets (w_db w))
      = Some target ->
    Phone.isLikelyValidPhone (t_phone target) = true ->
    t_vars_json target = VarsValid vars ->
    JS.Object_values vars = Some vs ->
    let components := components_of (map text_param vs) in
    let req := build_request env camp target components in
    provider env (List.length (w_log w)) req = Resolved resp ->
    wa_id_of resp = None ->
    let w' := snd (process_job env job w) in
    fst (process_job env job w) = Ret tt
    /\ w_log w' = (w_log w ++ [HttpPost req])%list
    /\ (exists id now,
          rows (messages (w_db w'))
          = (rows (messages (w_db w))
             ++ [mkMessage id (c_id camp) (t_id target) components resp now])%list)
    /\ (exists now,
          In (mkTarget (t_id target) (t_campaign_id target) (t_phone target)
                (t_vars_json target) TSent (t_last_error target) None
                (t_created_at target) now)
             (rows (campaign_targets (w_db w'))))
    /\ (forall t, In t (rows (campaign_targets (w_db w'))) -> t_id t = t_id target ->
         t_status t = TSent /\ t_wa_message_id t = None)
    /\ queue (w_db w') = Queue.markDone (job_id job) (queue (w_db w))
    /\ (forall mid t,
          select_first (Server.has_wa_message_id mid) (campaign_targets (w_db w'))
            = Some t ->
          t_id t <> t_id target).
Proof.
  intros env job w camp target vars vs resp Hc Hg Ht Hp Hv Hvs components req
         Hprov Hid w'.
  unfold w'.
  rewrite (process_job_resolved env job w camp target vars vs Hc Hg Ht Hp Hv Hvs
             resp Hprov).
  rewrite Hid. db_fields.
  assert (Hall : forall t,
             In t (rows (update_where (has_target_id (t_id target))
                           (set_sent None (epoch_ms (clock env (S (w_reads w)))))
                           (update_where (has_target_id (t_id target))
                              (set_status TSending (epoch_ms (clock env (w_reads w))))
                              (campaign_targets (w_db w))))) ->
             t_id t = t_id target -> t_status t = TSent /\ t_wa_message_id t = None).
  { intros t Hin Hidt. rewrite !rows_update_where, map_map in Hin.
    apply in_map_iff in Hin as (t0 & E & _). unfold has_target_id in E.
    destruct (Z.eqb_spec (t_id t0) (t_id target)) as [_|Hne].
    - simpl in E. destruct (Z.eqb_spec (t_id t0) (t_id target)); subst t; simpl; auto.
      contradiction.
    - destruct (Z.eqb_spec (t_id t0) (t_id target)); [contradiction|].
      subst t. contradiction. }
  split; [reflexivity|]. split; [reflexivity|].
  split; [do 2 eexists; reflexivity|]. split; [|split; [|split]].
  - eexists.
    apply (rows_update_by_id_hit
             (set_sent None _)
             (update_where (has_target_id (t_id target)) (set_status TSending _)
                (campaign_targets (w_db w)))
             (set_status TSending (epoch_ms (clock env (w_reads w))) target)).
    apply (rows_update_by_id_hit (set_status TSending _)).
    now apply select_first_In in Ht.
  - exact Hall.
  - reflexivity.
  - intros mid t Hsel Heq.
    pose proof (lookup_by_wa_id_has_id _ _ _ Hsel) as Hwa.
    apply select_first_In in Hsel as [Hin _].
    destruct (Hall t Hin Heq) as [_ Hnone]. congruence.
Qed.

(** C10 on an answer [{}] of the provider. *)
Lemma sent_without_provider_message_id_witness :
  let w := Scenario.world CRunning "51918131082" Scenario.one_variable
             Scenario.claimed_entry in
  let w' := snd (process_job
                   (Scenario.env_with "" "" Scenario.noon Scenario.accepted_without_id)
                   Scenario.job w) in
  (forall t, In t (rows (campaign_targets (w_db w'))) -> t_id t = 1 ->
     t_status t = TSent /\ t_wa_message_id t = None)
  /\ rows (queue (w_db w')) = [Queue.set_status QDone Scenario.claimed_entry].
Proof.
  intros w w'.
  pose proof (sent_without_provider_message_id
                (Scenario.env_with "" "" Scenario.noon Scenario.accepted_without_id)
                Scenario.job w (Scenario.campaign_in CRunning)
                (Scenario.target_with "51918131082" Scenario.one_variable)
                Scenario.one_variable [JS.JStr "Ana"] (Some (mkWaResponse None)))
    as H.
  destruct H as (_ & _ & _ & _ & Hst & Hq & _); try reflexivity.
  split; [exact Hst|]. unfold w'. rewrite Hq. reflexivity.
Defined.

Lemma updated_twice_status (f g : Target -> Target) (id : Z) (tbl : Table Target)
    (P : Target -> Prop) :
  (forall t, P (f (g t))) ->
  (forall t, t_id (g t) = t_id t) ->
  forall t, In t (rows (update_where (has_target_id id) f
                          (update_where (has_target_id id) g tbl))) ->
            t_id t = id -> P t.
Proof.
  intros HP Hg t Hin Hid. rewrite !rows_update_where, map_map in Hin.
  apply in_map_iff in Hin as (t0 & E & _). unfold has_target_id in E.
  destruct (Z.eqb_spec (t_id t0) id) as [H0|H0].
  - rewrite Hg in E. destruct (Z.eqb_spec (t_id t0) id); [|contradiction].
    subst t. apply HP.
  - destruct (Z.eqb_spec (t_id t0) id); [contradiction|]. subst t. contradiction.
Qed.

(** What the worker sends.  It knows the template by name only and makes
    no check of the variables against the placeholders of its body.  For a
    job that passes the campaign gate and the phone check, and whose
    target's stored variables parse to a value other than [null]: exactly
    one HTTP call is issued, whose body component carries one text
    parameter per supplied value (no body component when there is none),
    and the target ends ['sent'] with the entry ['done'] when the provider
    accepts, or ['failed'] with the provider's error text and the entry
    re-queued by [markFailed(job.id, 3000)] when it rejects. *)
Theorem dispatch_posts_supplied_variables_unchecked :
  forall (env : Env) (job : Job) (w : World) (camp : Campaign) (target : Target)
         (vars : JS.JVal) (vs : list JS.JVal),
    select_first (has_campaign_id (job_campaign_id job)) (campaigns (w_db w))
      = Some camp ->
    gated (c_status camp) = false ->
    select_first (has_target_id (job_target_id job)) (campaign_targets (w_db w))
      = Some target ->
    Phone.isLikelyValidPhone (t_phone target) = true ->
    t_vars_json target = VarsValid vars ->
    JS.Object_values vars = Some vs ->
    let components := components_of (map text_param vs) in
    let req := build_request env camp target components in
    let w' := snd (process_job env job w) in
    fst (process_job env job w) = Ret tt
    /\ w_log w' = (w_log w ++ [HttpPost req])%list
    /\ (vs = [] /\ req_components req = []
        \/ vs <> [] /\ req_components req = [mkComponent "body" (map text_param vs)])
    /\ (forall resp,
          provider env (List.length (w_log w)) req = Resolved resp ->
          (forall t, In t (rows (campaign_targets (w_db w'))) -> t_id t = t_id target ->
             t_status t = TSent)
          /\ queue (w_db w') = Queue.markDone (job_id job) (queue (w_db w)))
    /\ (forall e,
          provider env (List.length (w_log w)) req = Rejected e ->
          (forall t, In t (rows (campaign_targets (w_db w'))) -> t_id t = t_id target ->
             t_status t = TFailed
             /\ t_last_error t = Some (JS.take 500 (error_text e)))
          /\ exists now,
               queue (w_db w') = Queue.markFailed now (job_id job) 3000 (queue (w_db w))).
Proof.
  intros env job w camp target vars vs Hc Hg Ht Hp Hv Hvs components req w'.
  assert (Hcomp : vs = [] /\ req_components req = []
                  \/ vs <> [] /\ req_components req
                                 = [mkComponent "body" (map text_param vs)]).
  { unfold req, components. simpl. destruct vs; [left|right]; split;
      try reflexivity; discriminate. }
  unfold w'.
  destruct (provider env (List.length (w_log w)) req) as [resp|e] eqn:Hprov.
  - rewrite (process_job_resolved env job w camp target vars vs Hc Hg Ht Hp Hv Hvs
               resp Hprov).
    db_fields.
    split; [reflexivity|]. split; [reflexivity|]. split; [exact Hcomp|]. split.
    + intros resp0 _. split; [|reflexivity]. intros t Hin Hid.
      revert t Hin Hid.
      apply (updated_twice_status _ _ _ _ (fun t => t_status t = TSent));
        intros; reflexivity.
    + intros e E. discriminate E.
  - rewrite (process_job_rejected env job w camp target vars vs Hc Hg Ht Hp Hv Hvs
               e Hprov).
    db_fields.
    split; [reflexivity|]. split; [reflexivity|]. split; [exact Hcomp|]. split.
    + intros resp E. discriminate E.
    + intros e0 E. injection E as <-. split; [|eexists; reflexivity].
      intros t Hin Hid.
      revert t Hin Hid.
      apply (updated_twice_status _ _ _ _
               (fun t => t_status t = TFailed
                         /\ t_last_error t = Some (JS.take 500 (error_text e))));
        intros; [split|]; reflexivity.
Qed.

(** A target with one variable under a rejecting provider. *)
Lemma dispatch_posts_supplied_variables_unchecked_witness :
  let env := Scenario.env_with "" "" Scenario.noon Scenario.rejected in
  let w := Scenario.world CRunning "51918131082" Scenario.one_variable
             Scenario.claimed_entry in
  w_log (snd (process_job env Scenario.job w))
  = [HttpPost (mkSendRequest Scenario.sender_id "token" "51918131082"
                 "no_usar_solo_prueba" "es_PE"
                 [mkComponent "body" [mkTextParam "text" "Ana"]])].
Proof.
  intros env w.
  exact (proj1 (proj2 (dispatch_posts_supplied_variables_unchecked env Scenario.job w
                         (Scenario.campaign_in CRunning)
                         (Scenario.target_with "51918131082" Scenario.one_variable)
                         Scenario.one_variable [JS.JStr "Ana"]
                         eq_refl eq_refl eq_refl eq_refl eq_refl eq_refl))).
Defined.


End WorkerFacts.

(** ** The delivery window *)

Module WindowFacts.
Import Window.

Lemma below_100 (P : Z -> bool) :
  forallb P (map Z.of_nat (List.seq 0 100)) = true ->
  forall n, 0 <= n < 100 -> P n = true.
Proof.
  intros H n Hn. rewrite forallb_forall in H. apply H.
  apply in_map_iff. exists (Z.to_nat n). split; [lia|].
  apply in_seq. lia.
Qed.

Lemma split_free c s : free_of c s = true -> JS.split c s = [s].
Proof.
  unfold free_of. induction s as [|x s IH]; simpl; [reflexivity|].
  intros H. apply andb_true_iff in H as [Hx Hs].
  apply negb_true_iff in Hx. rewrite Hx, (IH Hs). reflexivity.
Qed.

Lemma split_at c s1 s2 :
  free_of c s1 = true ->
  JS.split c (s1 ++ String c s2)%string = s1 :: JS.split c s2.
Proof.
  unfold free_of. induction s1 as [|x s1 IH]; simpl; intros H.
  - now rewrite Ascii.eqb_refl.
  - apply andb_true_iff in H as [Hx Hs].
    apply negb_true_iff in Hx. rewrite Hx, (IH Hs). reflexivity.
Qed.

Lemma free_of_app c s1 s2 :
  free_of c (s1 ++ s2)%string = free_of c s1 && free_of c s2.
Proof.
  unfold free_of. induction s1 as [|x s1 IH]; simpl; [reflexivity|].
  now rewrite IH, andb_assoc.
Qed.

Lemma two_digits_Number n : 0 <= n < 100 -> JS.Number (two_digits n) = Some n.
Proof.
  intros Hn.
  assert (H := below_100
                 (fun k => match JS.Number (two_digits k) with
                           | Some v => v =? k
                           | None => false
                           end) eq_refl n Hn).
  cbv beta in H. destruct (JS.Number (two_digits n)); [|discriminate].
  apply Z.eqb_eq in H. now subst.
Qed.

Lemma two_digits_free n :
  0 <= n < 100 ->
  free_of ":" (two_digits n) = true /\ free_of "-" (two_digits n) = true.
Proof.
  intros Hn.
  assert (H := below_100
                 (fun k => free_of ":" (two_digits k) && free_of "-" (two_digits k))
                 eq_refl n Hn).
  now apply andb_true_iff in H.
Qed.

Lemma toMinutes_two_digits h m :
  0 <= h < 100 -> 0 <= m < 100 ->
  Wa.toMinutes (two_digits h ++ ":" ++ two_digits m)%string = Some (h * 60 + m).
Proof.
  intros Hh Hm. unfold Wa.toMinutes.
  change (two_digits h ++ ":" ++ two_digits m)%string
    with (two_digits h ++ String ":" (two_digits m))%string.
  rewrite split_at by apply (two_digits_free h Hh).
  rewrite split_free by apply (two_digits_free m Hm).
  simpl map. simpl nth_error.
  now rewrite (two_digits_Number h Hh), (two_digits_Number m Hm).
Qed.

Lemma split_window_string h1 m1 h2 m2 :
  0 <= h1 < 100 -> 0 <= m1 < 100 -> 0 <= h2 < 100 -> 0 <= m2 < 100 ->
  JS.split "-" (window_string h1 m1 h2 m2)
  = [ (two_digits h1 ++ ":" ++ two_digits m1)%string;
      (two_digits h2 ++ ":" ++ two_digits m2)%string ].
Proof.
  intros H1 H2 H3 H4. unfold window_string.
  change (two_digits h1 ++ ":" ++ two_digits m1 ++ "-" ++ two_digits h2 ++ ":" ++ two_digits m2)%string
    with (two_digits h1 ++ String ":" (two_digits m1 ++ String "-" (two_digits h2 ++ String ":" (two_digits m2))))%string.
  assert (E : (two_digits h1 ++ String ":" (two_digits m1 ++ String "-" (two_digits h2 ++ String ":" (two_digits m2))))%string
              = ((two_digits h1 ++ String ":" (two_digits m1)) ++ String "-" (two_digits h2 ++ String ":" (two_digits m2)))%string).
  { reflexivity. }
  rewrite E, split_at.
  - rewrite split_free; [reflexivity|].
    change (two_digits h2 ++ String ":" (two_digits m2))%string
      with (two_digits h2 ++ (String ":" EmptyString ++ two_digits m2))%string.
    rewrite !free_of_app.
    rewrite (proj2 (two_digits_free h2 H3)), (proj2 (two_digits_free m2 H4)).
    reflexivity.
  - change (two_digits h1 ++ String ":" (two_digits m1))%string
      with (two_digits h1 ++ (String ":" EmptyString ++ two_digits m1))%string.
    rewrite !free_of_app.
    rewrite (proj2 (two_digits_free h1 H1)), (proj2 (two_digits_free m1 H2)).
    reflexivity.
Qed.

(** [inWindow] on a well-formed window string, as arithmetic on minutes. *)
Lemma inWindow_window_string now h1 m1 h2 m2 :
  valid_clock_time h1 m1 -> valid_clock_time h2 m2 ->
  let s := h1 * 60 + m1 in
  let e := h2 * 60 + m2 in
  let t := minutes_of now in
  Wa.inWindow now (window_string h1 m1 h2 m2)
  = if s <=? e then (s <=? t) && (t <=? e) else (s <=? t) || (t <=? e).
Proof.
  intros [Hh1 Hm1] [Hh2 Hm2] s e t. unfold Wa.inWindow.
  rewrite split_window_string by lia.
  change (JS.nonempty (window_string h1 m1 h2 m2)) with true.
  change (JS.nonempty (two_digits h1 ++ ":" ++ two_digits m1)) with true.
  change (JS.nonempty (two_digits h2 ++ ":" ++ two_digits m2)) with true.
  cbn [negb orb nth_error].
  rewrite !toMinutes_two_digits by lia.
  reflexivity.
Qed.

Lemma inWindow_iff_within now h1 m1 h2 m2 :
  valid_clock_time h1 m1 -> valid_clock_time h2 m2 ->
  Wa.inWindow now (window_string h1 m1 h2 m2) = true
  <-> within_window (h1 * 60 + m1) (h2 * 60 + m2) (minutes_of now).
Proof.
  intros V1 V2. rewrite (inWindow_window_string now h1 m1 h2 m2 V1 V2).
  cbv zeta. unfold within_window.
  destruct (Z.leb_spec (h1 * 60 + m1) (h2 * 60 + m2));
    destruct (Z.ltb_spec (h2 * 60 + m2) (h1 * 60 + m1)); lia.
Qed.

(** A tick outside the window reads the clock and does nothing else. *)
Lemma tick_outside_window env w :
  Wa.inWindow (clock env (w_reads w)) (DELIVERY_WINDOW env) = false ->
  Worker.tick env w = (Ret tt, mkWorld (w_db w) (S (w_reads w)) (w_log w)).
Proof.
  intros H. unfold Worker.tick, try_catch, bind, new_Date, ret. now rewrite H.
Qed.

(** A tick inside the window goes on to claim and process a batch. *)
Lemma tick_inside_window env w :
  Wa.inWindow (clock env (w_reads w)) (DELIVERY_WINDOW env) = true ->
  Worker.tick env w
  = Worker.tick_work env (mkWorld (w_db w) (S (w_reads w)) (w_log w)).
Proof.
  intros H. unfold Worker.tick, Worker.tick_work, try_catch, bind, new_Date, ret.
  rewrite H. cbn [negb]. reflexivity.
Qed.

(** A tick inside the window, step by step: it reads the clock again,
    claims with [fetchBatch] the entries due at that reading, at most
    [BATCH_SIZE] of them, runs the loop over the claimed jobs and then the
    sweep; it stops after the claim when nothing is due, and where the loop
    throws. *)
Lemma tick_inside_window_run env w :
  Wa.inWindow (clock env (w_reads w)) (DELIVERY_WINDOW env) = true ->
  let claim := Queue.fetchBatch (epoch_ms (clock env (S (w_reads w))))
                 (BATCH_SIZE env) (queue (w_db w)) in
  let claimed := mkWorld (with_queue (fun _ => snd claim) (w_db w))
                         (S (S (w_reads w))) (w_log w) in
  fst (Worker.tick env w) = Ret tt
  /\ snd (Worker.tick env w)
     = match fst claim with
       | [] => claimed
       | batch => snd ((for_each (Worker.round env) batch ;;; Worker.sweep) claimed)
       end.
Proof.
  intros H. cbv zeta. split.
  - unfold Worker.tick, try_catch. destruct (bind _ _ w) as [[[]|e] w1]; reflexivity.
  - unfold Worker.tick, Worker.tick_body, try_catch, bind at 1 2, new_Date.
    rewrite H. cbn [negb]. rewrite WorkerFacts.fetchBatch_run. cbv beta iota zeta.
    cbn [w_db w_reads w_log].
    destruct (fst (Queue.fetchBatch _ _ _)) as [|j jobs]; [reflexivity|].
    destruct (bind _ _ _) as [[[]|e] w1]; reflexivity.
Qed.

(** C6. For a delivery window ["HH:MM-HH:MM"] and a tick at time [t]:
    [inWindow] holds exactly when [t] is within the window, a window whose
    end is earlier than its start wrapping past midnight.  A tick outside
    the window changes nothing in the store and issues no call.  A tick
    inside proceeds: it claims with [fetchBatch] the entries that are due,
    which become ['processing'], runs the loop over the claimed jobs and
    then the sweep.  With ["22:00-06:00"], a tick at 23:30 proceeds and a
    tick at 12:00 does nothing. *)
Theorem tick_respects_delivery_window :
  forall (h1 m1 h2 m2 : Z) (env : Env) (w : World),
    valid_clock_time h1 m1 ->
    valid_clock_time h2 m2 ->
    DELIVERY_WINDOW env = window_string h1 m1 h2 m2 ->
    let now := clock env (w_reads w) in
    let inside := within_window (h1 * 60 + m1) (h2 * 60 + m2) (minutes_of now) in
    let after_clock := mkWorld (w_db w) (S (w_reads w)) (w_log w) in
    let claim := Queue.fetchBatch (epoch_ms (clock env (S (w_reads w))))
                   (BATCH_SIZE env) (queue (w_db w)) in
    let claimed := mkWorld (with_queue (fun _ => snd claim) (w_db w))
                           (S (S (w_reads w))) (w_log w) in
    let proceeds :=
      fst (Worker.tick env w) = Ret tt
      /\ snd (Worker.tick env w)
         = match fst claim with
           | [] => claimed
           | batch =>
               snd ((for_each (Worker.round env) batch ;;; Worker.sweep) claimed)
           end in
    (Wa.inWindow now (DELIVERY_WINDOW env) = true <-> inside)
    /\ (~ inside -> Worker.tick env w = (Ret tt, after_clock))
    /\ (inside -> proceeds)
    /\ (h1 = 22 -> m1 = 0 -> h2 = 6 -> m2 = 0 ->
        DELIVERY_WINDOW env = "22:00-06:00"
        /\ (getHours now = 23 -> getMinutes now = 30 -> proceeds)
        /\ (getHours now = 12 -> getMinutes now = 0 ->
            Worker.tick env w = (Ret tt, after_clock))).
Proof.
  intros h1 m1 h2 m2 env w V1 V2 Hw now inside after_clock claim claimed proceeds.
  assert (Hiff : Wa.inWindow now (DELIVERY_WINDOW env) = true <-> inside).
  { rewrite Hw. now apply inWindow_iff_within. }
  assert (Hout : ~ inside -> Worker.tick env w = (Ret tt, after_clock)).
  { intros Hn. apply tick_outside_window. fold now.
    destruct (Wa.inWindow now (DELIVERY_WINDOW env)); [|reflexivity].
    exfalso. apply Hn. now apply Hiff. }
  assert (Hin : inside -> proceeds).
  { intros Hi. apply tick_inside_window_run. now apply Hiff. }
  split; [exact Hiff|]. split; [exact Hout|]. split; [exact Hin|].
  intros -> -> -> ->. split; [exact Hw|]. split.
  - intros Hh Hm. apply Hin. unfold inside, within_window, minutes_of.
    rewrite Hh, Hm. simpl. lia.
  - intros Hh Hm. apply Hout. unfold inside, within_window, minutes_of.
    rewrite Hh, Hm. simpl. lia.
Qed.

(** C6 on the window ["22:00-06:00"] with a due entry of a running
    campaign: at noon the tick only reads the clock and the entry stays
    queued; at 23:30 it claims the entry and sends, one call is issued, the
    target ends ['sent'] and the entry ['done']. *)
Lemma tick_respects_delivery_window_witness :
  let at_noon := Scenario.env_with "22:00-06:00" "" Scenario.noon
                   Scenario.accepted_with_id in
  let at_2330 := Scenario.env_with "22:00-06:00" "" Scenario.late_evening
                   Scenario.accepted_with_id in
  let w := Scenario.world CRunning "51918131082" Scenario.one_variable
             Scenario.queued_entry in
  Worker.tick at_noon w = (Ret tt, mkWorld (w_db w) 1 [])
  /\ map t_status (rows (campaign_targets (w_db (snd (Worker.tick at_2330 w))))) = [TSent]
  /\ map q_status (rows (queue (w_db (snd (Worker.tick at_2330 w))))) = [QDone]
  /\ List.length (w_log (snd (Worker.tick at_2330 w))) = 1%nat.
Proof.
  intros at_noon at_2330 w. split.
  - pose proof (tick_respects_delivery_window 22 0 6 0 at_noon w) as H.
    destruct H as (_ & _ & _ & H).
    + unfold valid_clock_time; lia.
    + unfold valid_clock_time; lia.
    + reflexivity.
    + destruct (H eq_refl eq_refl eq_refl eq_refl) as (_ & _ & Hnoon).
      exact (Hnoon eq_refl eq_refl).
  - pose proof (tick_respects_delivery_window 22 0 6 0 at_2330 w) as H.
    destruct H as (_ & _ & _ & H).
    + unfold valid_clock_time; lia.
    + unfold valid_clock_time; lia.
    + reflexivity.
    + destruct (H eq_refl eq_refl eq_refl eq_refl) as (_ & Hlate & _).
      destruct (Hlate eq_refl eq_refl) as [_ Hrun].
      rewrite Hrun. repeat split; reflexivity.
Defined.

(** The same window late in the evening: the tick claims the entry and
    sends. *)
Example tick_at_2330_sends :
  let env := Scenario.env_with "22:00-06:00" "" Scenario.late_evening
               Scenario.accepted_with_id in
  let w := Scenario.world CRunning "51918131082" Scenario.one_variable
             Scenario.queued_entry in
  map t_status (rows (campaign_targets (w_db (snd (Worker.tick env w))))) = [TSent]
  /\ List.length (w_log (snd (Worker.tick env w))) = 1%nat.
Proof. cbv zeta. split; vm_compute; reflexivity. Qed.

End WindowFacts.

(** ** Campaign creation and the webhook *)

Module ServerFacts.
Import Server.

(** [ensureSender] reads and writes the senders table only. *)
Lemma ensureSender_frame env phone_id display w :
  let w' := snd (ensureSender env phone_id display w) in
  campaigns (w_db w') = campaigns (w_db w)
  /\ campaign_targets (w_db w') = campaign_targets (w_db w)
  /\ messages (w_db w') = messages (w_db w)
  /\ events (w_db w') = events (w_db w)
  /\ queue (w_db w') = queue (w_db w)
  /\ w_log w' = w_log w.
Proof.
  unfold ensureSender.
  destruct (or_else _ _) as [resolved|]; [|cbn; auto 10].
  unfold_m. cbv beta iota. db_fields.
  destruct (select_first (has_phone_id resolved) (senders (w_db w))) as [ex|].
  - destruct (JS.nonempty _ && negb _); destruct (truthy_number _ && negb _);
      cbn; auto 10.
  - cbn; auto 10.
Qed.

Lemma normalize_step_valid env acc t :
  valid_input env t = true ->
  normalize_step env acc t
  = ((fst acc ++ [mkNormalizedTarget (normalized_phone env t)
                                     (vars_or_empty (ti_vars t))])%list, snd acc).
Proof.
  unfold normalize_step, valid_input, normalized_phone. intros H. now rewrite H.
Qed.

Lemma normalize_step_invalid env acc t :
  valid_input env t = false ->
  normalize_step env acc t = (fst acc, snd acc + 1).
Proof.
  unfold normalize_step, valid_input, normalized_phone. intros H. now rewrite H.
Qed.

(** The loop of [normalizeTargets] keeps the valid targets in order and
    counts the others. *)
Lemma normalize_loop env targets acc :
  fold_left (normalize_step env) targets acc
  = ((fst acc
      ++ map (fun t => mkNormalizedTarget (normalized_phone env t)
                                          (vars_or_empty (ti_vars t)))
             (filter (valid_input env) targets))%list,
     snd acc
     + Z.of_nat (List.length (filter (fun t => negb (valid_input env t)) targets))).
Proof.
  revert acc. induction targets as [|t ts IH]; intros acc.
  - simpl. rewrite app_nil_r, Z.add_0_r. now destruct acc.
  - simpl fold_left. simpl filter. destruct (valid_input env t) eqn:E.
    + rewrite (normalize_step_valid env acc t E), IH. simpl.
      now rewrite <- app_assoc.
    + rewrite (normalize_step_invalid env acc t E), IH. simpl fst. simpl snd.
      simpl negb. cbv iota. simpl List.length. f_equal. lia.
Qed.

Lemma normalizeTargets_spec env targets :
  normalizeTargets env targets
  = (map (fun t => mkNormalizedTarget (normalized_phone env t)
                                      (vars_or_empty (ti_vars t)))
         (filter (valid_input env) targets),
     Z.of_nat (List.length (filter (fun t => negb (valid_input env t)) targets))).
Proof. unfold normalizeTargets. now rewrite normalize_loop. Qed.

Lemma mem_string_In x l : mem_string x l = true <-> In x l.
Proof.
  unfold mem_string. rewrite existsb_exists. split.
  - intros (y & Hy & E). apply String.eqb_eq in E. now subst.
  - intros H. exists x. split; [exact H|apply String.eqb_refl].
Qed.

Lemma same_key_exists cid phone tbl :
  existsb (same_key cid phone) (rows tbl) = true
  <-> In phone (phones_of_campaign cid tbl).
Proof.
  unfold phones_of_campaign. rewrite existsb_exists, in_map_iff. split.
  - intros (t & Hin & Hk). unfold same_key in Hk.
    apply andb_true_iff in Hk as [Hc Hp]. apply String.eqb_eq in Hp.
    exists t. split; [exact Hp|]. apply filter_In. auto.
  - intros (t & Hp & Hin). apply filter_In in Hin as [Hin Hc].
    exists t. split; [exact Hin|]. unfold same_key.
    rewrite Hc, Hp, String.eqb_refl. reflexivity.
Qed.

Lemma insert_target_step_dup cid now tbl k t :
  existsb (same_key cid (nt_phone t)) (rows tbl) = true ->
  insert_target_step cid now (tbl, k) t = (tbl, k).
Proof. unfold insert_target_step. intros H. now rewrite H. Qed.

Lemma insert_target_step_new cid now tbl k t :
  existsb (same_key cid (nt_phone t)) (rows tbl) = false ->
  insert_target_step cid now (tbl, k) t
  = (insert_row t_id
       (fun id => mkTarget id cid (nt_phone t) (VarsValid (nt_vars t))
                           TQueued None None now now) tbl,
     k + 1).
Proof. unfold insert_target_step. intros H. now rewrite H. Qed.

(** The insertion loop of the transaction: a target row goes in for each
    phone at its first occurrence, unless the campaign already has it. *)
Lemma insert_loop cid now l :
  forall tbl k seen,
    (forall p, In p seen <-> In p (phones_of_campaign cid tbl)) ->
    let res := fold_left (insert_target_step cid now) l (tbl, k) in
    let fresh := first_occurrences seen (map nt_phone l) in
    snd res = k + Z.of_nat (List.length fresh)
    /\ exists added,
         rows (fst res) = (rows tbl ++ added)%list
         /\ map t_phone added = fresh
         /\ Forall (new_target_row cid now) added.
Proof.
  induction l as [|t l IH]; intros tbl k seen Hseen; cbv zeta.
  - simpl. split; [lia|]. exists []. rewrite app_nil_r. auto.
  - cbn [fold_left map first_occurrences].
    destruct (existsb (same_key cid (nt_phone t)) (rows tbl)) eqn:Hex.
    + assert (Hm : mem_string (nt_phone t) seen = true).
      { apply mem_string_In, Hseen, same_key_exists, Hex. }
      rewrite Hm, (insert_target_step_dup _ _ _ _ _ Hex).
      exact (IH tbl k seen Hseen).
    + assert (Hm : mem_string (nt_phone t) seen = false).
      { destruct (mem_string (nt_phone t) seen) eqn:E; [|reflexivity].
        apply mem_string_In, Hseen, same_key_exists in E. congruence. }
      rewrite Hm, (insert_target_step_new _ _ _ _ _ Hex).
      set (tbl1 := insert_row t_id _ tbl).
      destruct (IH tbl1 (k + 1) (nt_phone t :: seen)) as (Hk & added & Hr & Hp & Ha).
      { intros p. unfold tbl1, phones_of_campaign, insert_row. cbn [rows].
        rewrite filter_app, map_app, in_app_iff. cbn [filter t_campaign_id].
        rewrite Z.eqb_refl. cbn [map t_phone In].
        fold (phones_of_campaign cid tbl). rewrite <- Hseen. tauto. }
      split.
      * rewrite Hk. cbn [List.length]. lia.
      * eexists (_ :: added). split; [|split].
        -- rewrite Hr. unfold tbl1, insert_row. cbn [rows].
           rewrite <- app_assoc. reflexivity.
        -- cbn [map t_phone]. now rewrite Hp.
        -- constructor; [|exact Ha]. repeat split.
Qed.

Lemma first_occurrences_length seen l :
  (List.length (first_occurrences seen l) <= List.length l)%nat.
Proof.
  revert seen. induction l as [|x l IH]; intros seen; simpl; [lia|].
  destruct (mem_string x seen); [specialize (IH seen)|specialize (IH (x :: seen))];
    simpl; lia.
Qed.

Lemma first_occurrences_In seen l x :
  In x (first_occurrences seen l) <-> In x l /\ ~ In x seen.
Proof.
  revert seen. induction l as [|y l IH]; intros seen; simpl; [tauto|].
  destruct (mem_string y seen) eqn:E.
  - apply mem_string_In in E. rewrite IH. split.
    + tauto.
    + intros [[->|H] Hn]; [contradiction|tauto].
  - assert (~ In y seen) as Hy.
    { intros H. apply mem_string_In in H. congruence. }
    simpl. rewrite IH. simpl. split.
    + intros [->|[H Hn]]; [tauto|]. split; [tauto|]. intros Hs. apply Hn. now right.
    + intros [[->|H] Hn]; [tauto|].
      destruct (string_dec y x) as [->|Hne]; [tauto|]. right. split; [exact H|].
      intros [Hs|Hs]; [contradiction|contradiction].
Qed.

Lemma first_occurrences_NoDup seen l : NoDup (first_occurrences seen l).
Proof.
  revert seen. induction l as [|y l IH]; intros seen; simpl; [constructor|].
  destruct (mem_string y seen); [apply IH|].
  constructor; [|apply IH].
  rewrite first_occurrences_In. simpl. tauto.
Qed.

Lemma first_occurrences_all_new seen l :
  NoDup l -> (forall x, In x l -> ~ In x seen) -> first_occurrences seen l = l.
Proof.
  revert seen. induction l as [|y l IH]; intros seen Hnd Hnew; simpl; [reflexivity|].
  inversion Hnd as [|? ? Hy Hl]; subst.
  destruct (mem_string y seen) eqn:E.
  - apply mem_string_In in E. exfalso. apply (Hnew y); simpl; auto.
  - f_equal. apply IH; [exact Hl|].
    intros x Hx [->|Hs]; [contradiction|]. apply (Hnew x); simpl; auto.
Qed.

(** With no valid target the operation throws; only the senders table may
    have changed by then. *)
Lemma createCampaignRecord_rejects env name tpl lang targets meta rs rd w :
  filter (valid_input env) targets = [] ->
  let res := createCampaignRecord env name tpl lang targets meta rs rd w in
  (exists e, fst res = Throw e)
  /\ campaigns (w_db (snd res)) = campaigns (w_db w)
  /\ campaign_targets (w_db (snd res)) = campaign_targets (w_db w)
  /\ queue (w_db (snd res)) = queue (w_db w)
  /\ w_log (snd res) = w_log w.
Proof.
  intros Hnone. cbv zeta. unfold createCampaignRecord, bind.
  pose proof (ensureSender_frame env rs rd w) as F. cbv zeta in F.
  destruct (ensureSender env rs rd w) as [[sender|e] w1]; cbn [snd] in F.
  - rewrite normalizeTargets_spec, Hnone. cbn [map].
    unfold throw. cbn [fst snd]. destruct F as (? & ? & ? & ? & ? & ?).
    split; [eexists; reflexivity|]. auto.
  - cbn [fst snd]. destruct F as (? & ? & ? & ? & ? & ?).
    split; [eexists; reflexivity|]. auto.
Qed.

(** The successful run of [createCampaignRecord], step by step. *)
Lemma createCampaignRecord_run env name tpl lang targets meta rs rd w sender w1 t ts :
  ensureSender env rs rd w = (Ret sender, w1) ->
  filter (valid_input env) targets = t :: ts ->
  let nts := map (fun t => mkNormalizedTarget (normalized_phone env t)
                                              (vars_or_empty (ti_vars t))) (t :: ts) in
  let skipped :=
    Z.of_nat (List.length (filter (fun t => negb (valid_input env t)) targets)) in
  let cid := next_rowid c_id (campaigns (w_db w1)) in
  let created := epoch_ms (clock env (w_reads w1)) in
  let now := epoch_ms (clock env (S (w_reads w1))) in
  let loop := fold_left (insert_target_step cid now) nts (campaign_targets (w_db w1), 0) in
  let N := Z.of_nat (List.length nts) in
  let db' :=
    with_campaigns
      (update_where (Worker.has_campaign_id cid) (set_total_targets (snd loop)))
      (with_targets (fun _ => fst loop)
         (with_campaigns
            (insert_row c_id
               (fun id => mkCampaign id name tpl lang sender CDraft created N
                            (stored_meta meta)))
            (w_db w1))) in
  createCampaignRecord env name tpl lang targets meta rs rd w
  = (Ret (mkCreateResult cid (snd loop) sender skipped
            (if 0 <? N - snd loop then N - snd loop else 0)
            (match select_first (has_phone_id sender) (senders (w_db w1)) with
             | Some s => truthy_string (s_display s)
             | None => None
             end)),
     mkWorld db' (S (S (w_reads w1))) (w_log w1)).
Proof.
  intros Hens Hfilter nts skipped cid created now loop N db'.
  unfold createCampaignRecord, bind. rewrite Hens.
  rewrite normalizeTargets_spec, Hfilter. fold nts. fold skipped.
  change nts with (mkNormalizedTarget (normalized_phone env t)
                     (vars_or_empty (ti_vars t)) :: tl nts) at 1.
  cbv iota. unfold create_tx. unfold_m. cbv beta iota. db_fields.
  fold cid. fold created. fold now. fold N.
  change (fold_left (insert_target_step cid now) nts (campaign_targets (w_db w1), 0))
    with loop.
  unfold db'. destruct loop as [tbl' inserted]. cbv beta iota. db_fields.
  reflexivity.
Qed.

(** What a successful [createCampaignRecord] returns and stores. *)
Lemma createCampaignRecord_outcome env name tpl lang targets meta rs rd w sender w1 :
  ensureSender env rs rd w = (Ret sender, w1) ->
  filter (valid_input env) targets <> [] ->
  let valid := filter (valid_input env) targets in
  let phones := map (normalized_phone env) valid in
  let N := Z.of_nat (List.length valid) in
  let M := Z.of_nat (List.length (filter (fun t => negb (valid_input env t)) targets)) in
  let cid := next_rowid c_id (campaigns (w_db w)) in
  let fresh := first_occurrences
                 (phones_of_campaign cid (campaign_targets (w_db w))) phones in
  exists r w',
    createCampaignRecord env name tpl lang targets meta rs rd w = (Ret r, w')
    /\ campaign_id r = cid
    /\ sender_phone_id r = sender
    /\ skipped_invalid r = M
    /\ inserted r = Z.of_nat (List.length fresh)
    /\ duplicates r = N - inserted r
    /\ 0 <= duplicates r
    /\ (exists created,
          rows (campaigns (w_db w'))
          = (rows (campaigns (w_db w))
             ++ [mkCampaign cid name tpl lang sender CDraft created (inserted r)
                            (stored_meta meta)])%list)
    /\ (exists added now,
          rows (campaign_targets (w_db w'))
          = (rows (campaign_targets (w_db w)) ++ added)%list
          /\ map t_phone added = fresh
          /\ Forall (new_target_row cid now) added)
    /\ queue (w_db w') = queue (w_db w)
    /\ w_log w' = w_log w.
Proof.
  intros Hens Hne valid phones N M cid fresh.
  pose proof (ensureSender_frame env rs rd w) as F. cbv zeta in F.
  rewrite Hens in F. cbn [snd] in F. destruct F as (Fc & Ft & _ & _ & Fq & Fl).
  destruct (filter (valid_input env) targets) as [|t ts] eqn:Hfilter; [congruence|].
  pose proof (createCampaignRecord_run env name tpl lang targets meta rs rd w
                sender w1 t ts Hens Hfilter) as Hrun.
  cbv zeta in Hrun. rewrite Fc, Ft in Hrun.
  set (nts := map (fun t => mkNormalizedTarget (normalized_phone env t)
                                               (vars_or_empty (ti_vars t))) (t :: ts)) in *.
  set (now := epoch_ms (clock env (S (w_reads w1)))) in *.
  fold cid in Hrun.
  destruct (insert_loop cid now nts (campaign_targets (w_db w)) 0
              (phones_of_campaign cid (campaign_targets (w_db w))))
    as (Hk & added & Hrows & Hphones & Hnew); [tauto|].
  assert (Hmap : map nt_phone nts = phones).
  { unfold nts, phones, valid. now rewrite map_map. }
  rewrite Hmap in Hk, Hphones. fold fresh in Hk, Hphones.
  assert (HN : Z.of_nat (List.length nts) = N).
  { unfold N, valid, nts. now rewrite length_map. }
  assert (Hle : Z.of_nat (List.length fresh) <= N).
  { unfold fresh, N. pose proof (first_occurrences_length
      (phones_of_campaign cid (campaign_targets (w_db w))) phones) as L.
    unfold phones in L at 2. rewrite length_map in L. unfold valid in *. lia. }
  eexists. eexists. split; [exact Hrun|]. cbn [campaign_id sender_phone_id
    skipped_invalid inserted duplicates]. db_fields.
  rewrite Hk, HN. rewrite Z.add_0_l.
  split; [reflexivity|]. split; [reflexivity|]. split; [reflexivity|].
  split; [reflexivity|]. split; [|split; [|split; [|split; [|split]]]].
  - destruct (Z.ltb_spec 0 (N - Z.of_nat (List.length fresh))); lia.
  - destruct (Z.ltb_spec 0 (N - Z.of_nat (List.length fresh))); lia.
  - eexists. rewrite rows_update_where. unfold insert_row. cbn [rows].
    rewrite Fc. fold cid. rewrite map_app. cbn [map].
    unfold Worker.has_campaign_id at 2. cbn [c_id]. rewrite Z.eqb_refl.
    rewrite update_where_none.
    + reflexivity.
    + intros r Hr. unfold Worker.has_campaign_id.
      apply (next_rowid_fresh c_id) in Hr. fold cid in Hr. apply Z.eqb_neq. lia.
  - exists added, now. auto.
  - exact Fq.
  - exact Fl.
Qed.

(** *** Targets belong to campaigns *)

Lemma filter_none {A} (p : A -> bool) (l : list A) :
  (forall x, In x l -> p x = false) -> filter p l = [].
Proof.
  induction l as [|x l IH]; simpl; intros H; [reflexivity|].
  rewrite (H x) by auto. apply IH. auto.
Qed.

(** When every target belongs to a campaign of the store, the next campaign
    id has no target yet. *)
Lemma fresh_campaign_has_no_targets d :
  targets_reference_campaigns d ->
  phones_of_campaign (next_rowid c_id (campaigns d)) (campaign_targets d) = [].
Proof.
  intros Href. unfold phones_of_campaign.
  rewrite filter_none; [reflexivity|].
  intros t Ht. destruct (Href t Ht) as (c & Hc & E).
  apply (next_rowid_fresh c_id) in Hc. apply Z.eqb_neq. lia.
Qed.

(** [createCampaignRecord] keeps that property, whether it returns or throws. *)
Lemma createCampaignRecord_keeps_references env name tpl lang targets meta rs rd w :
  targets_reference_campaigns (w_db w) ->
  targets_reference_campaigns
    (w_db (snd (createCampaignRecord env name tpl lang targets meta rs rd w))).
Proof.
  intros Href.
  destruct (ensureSender env rs rd w) as [[sender|e] w1] eqn:Hens.
  - destruct (filter (valid_input env) targets) as [|t ts] eqn:Hf.
    + destruct (createCampaignRecord_rejects env name tpl lang targets meta rs rd w Hf)
        as (_ & Hc & Ht & _).
      unfold targets_reference_campaigns. rewrite Hc, Ht. exact Href.
    + destruct (createCampaignRecord_outcome env name tpl lang targets meta rs rd w
                  sender w1 Hens)
        as (r & w' & Hrun & _ & _ & _ & _ & _ & _ & (created & Hc)
            & (added & now & Ht & _ & Hall) & _).
      { rewrite Hf. discriminate. }
      rewrite Hrun. cbn [snd]. intros x Hx. rewrite Ht in Hx. rewrite Hc.
      apply in_app_or in Hx as [Hx|Hx].
      * destruct (Href x Hx) as (c & Hin & E). exists c. split; [|exact E].
        apply in_or_app. now left.
      * rewrite Forall_forall in Hall. destruct (Hall x Hx) as (Hcid & _).
        eexists. split; [apply in_or_app; right; left; reflexivity|].
        cbn [c_id]. now rewrite Hcid.
  - pose proof (ensureSender_frame env rs rd w) as F. cbv zeta in F.
    rewrite Hens in F. cbn [snd] in F. destruct F as (Fc & Ft & _).
    unfold createCampaignRecord, bind. rewrite Hens. cbn [snd].
    unfold targets_reference_campaigns. rewrite Fc, Ft. exact Href.
Qed.

(** C7, as amended.  For a create call with N targets whose phone passes
    normalization and the validity check and M whose phone does not:
    with N = 0 the call throws and no campaign or target row is inserted;
    otherwise, the sender being resolved, the call reports
    [skipped_invalid = M], inserts one target row per distinct valid phone
    the campaign does not have yet, reports the rest as [duplicates]
    ([inserted + duplicates = N]) without raising an error, and stores
    [total_targets = inserted], which equals N when the N phones are
    pairwise distinct.  The campaign row is a draft with the resolved
    sender, and its [meta_json] holds [meta] when that is truthy and is
    [NULL] otherwise. *)
Theorem createCampaignRecord_counts :
  forall (env : Env) (name tpl lang : string) (targets : list TargetInput)
         (meta : option JS.JVal) (rs rd : option string) (w : World),
    let res := createCampaignRecord env name tpl lang targets meta rs rd w in
    let valid := filter (valid_input env) targets in
    let phones := map (normalized_phone env) valid in
    let N := Z.of_nat (List.length valid) in
    let M := Z.of_nat (List.length (filter (fun t => negb (valid_input env t)) targets)) in
    let cid := next_rowid c_id (campaigns (w_db w)) in
    let fresh := first_occurrences
                   (phones_of_campaign cid (campaign_targets (w_db w))) phones in
    (N = 0 ->
       (exists e, fst res = Throw e)
       /\ campaigns (w_db (snd res)) = campaigns (w_db w)
       /\ campaign_targets (w_db (snd res)) = campaign_targets (w_db w))
    /\ (0 < N ->
        forall sender w1, ensureSender env rs rd w = (Ret sender, w1) ->
        exists r,
          fst res = Ret r
          /\ skipped_invalid r = M
          /\ inserted r + duplicates r = N
          /\ 0 <= duplicates r
          /\ inserted r = Z.of_nat (List.length fresh)
          /\ (exists created,
                rows (campaigns (w_db (snd res)))
                = (rows (campaigns (w_db w))
                   ++ [mkCampaign (campaign_id r) name tpl lang sender CDraft created
                                  (inserted r) (stored_meta meta)])%list)
          /\ (exists added,
                rows (campaign_targets (w_db (snd res)))
                = (rows (campaign_targets (w_db w)) ++ added)%list
                /\ map t_phone added = fresh
                /\ Forall (fun t => t_campaign_id t = campaign_id r
                                    /\ t_status t = TQueued) added)
          /\ (NoDup phones ->
              phones_of_campaign cid (campaign_targets (w_db w)) = [] ->
              inserted r = N /\ duplicates r = 0)).
Proof.
  intros env name tpl lang targets meta rs rd w res valid phones N M cid fresh.
  split.
  - intros HN. assert (Hnone : filter (valid_input env) targets = []).
    { unfold N, valid in HN. destruct (filter (valid_input env) targets);
        [reflexivity|simpl in HN; lia]. }
    destruct (createCampaignRecord_rejects env name tpl lang targets meta rs rd w Hnone)
      as (He & Hc & Ht & _). auto.
  - intros HN sender w1 Hens.
    assert (Hne : filter (valid_input env) targets <> []).
    { unfold N, valid in HN. intros E. rewrite E in HN. simpl in HN. lia. }
    destruct (createCampaignRecord_outcome env name tpl lang targets meta rs rd w
                sender w1 Hens Hne)
      as (r & w' & Hrun & Hcid & _ & Hs & Hi & Hd & Hd0 & Hcamp & Htargets & _).
    fold valid phones cid fresh N M in Hs, Hi, Hd, Hcamp, Htargets.
    exists r. unfold res. rewrite Hrun. cbn [fst snd].
    split; [reflexivity|]. split; [exact Hs|]. split; [lia|]. split; [exact Hd0|].
    split; [exact Hi|]. split; [|split].
    + rewrite Hcid. exact Hcamp.
    + destruct Htargets as (added & now & Hrows & Hph & Hall).
      exists added. split; [exact Hrows|]. split; [exact Hph|].
      rewrite Hcid. eapply Forall_impl; [|exact Hall].
      intros t Ht. unfold new_target_row in Ht. tauto.
    + intros Hnd Hempty. unfold fresh in Hi. rewrite Hempty in Hi.
      rewrite first_occurrences_all_new in Hi by auto.
      assert (Z.of_nat (List.length phones) = N) as HNp.
      { unfold phones, N. now rewrite length_map. }
      lia.
Qed.

(** C7 as stated fails on [total_targets]: two valid targets with the same
    phone give N = 2 and M = 0, one row is inserted, one duplicate is
    reported, and the campaign row holds [total_targets = 1]. *)
Lemma duplicate_valid_targets_lower_total_targets :
  let env := Scenario.env_with "" "" Scenario.noon Scenario.rejected in
  let t := mkTargetInput (Some "5116193638") None in
  let res := createCampaignRecord env "manual" "mi_template" "es" [t; t]
               None None None (mkWorld empty_db 0 []) in
  List.length (filter (valid_input env) [t; t]) = 2%nat
  /\ List.length (filter (fun x => negb (valid_input env x)) [t; t]) = 0%nat
  /\ fst res = Ret (mkCreateResult 1 1 Scenario.sender_id 0 1
                      (Some "+857608144100041"))
  /\ map c_total_targets (rows (campaigns (w_db (snd res)))) = [1]
  /\ map t_phone (rows (campaign_targets (w_db (snd res)))) = ["5116193638"].
Proof. cbv zeta. repeat split; vm_compute; reflexivity. Qed.

(** A falsy [meta] is stored as [NULL]. *)
Example falsy_meta_is_stored_as_null :
  let env := Scenario.env_with "" "" Scenario.noon Scenario.rejected in
  let t := mkTargetInput (Some "5116193638") None in
  let stored meta :=
    map c_meta_json
        (rows (campaigns
                 (w_db (snd (createCampaignRecord env "manual" "mi_template" "es" [t]
                               meta None None (mkWorld empty_db 0 [])))))) in
  stored (Some (JS.JNum 0)) = [None]
  /\ stored (Some (JS.JBool false)) = [None]
  /\ stored (Some (JS.JStr "")) = [None]
  /\ stored None = [None]
  /\ stored (Some (JS.JObj [("origen", JS.JStr "crm")]))
     = [Some (JS.JObj [("origen", JS.JStr "crm")])].
Proof. cbv zeta. repeat split; vm_compute; reflexivity. Qed.

(** C8, as amended.  When the default country code is 51, the inputs
    ["+51918131082"] and ["918131082"] normalize to the same phone, and a
    campaign created with exactly those two targets (in a store where every
    target row belongs to a campaign row, and with a sender that resolves)
    inserts one target row and reports [inserted = 1] and
    [duplicates = 1]. *)
Theorem same_phone_with_country_code_51 :
  forall (env : Env) (name tpl lang : string) (v1 v2 : option JS.JVal)
         (meta : option JS.JVal) (rs rd : option string) (w w1 : World)
         (sender : string),
    country_code env = "51" ->
    ensureSender env rs rd w = (Ret sender, w1) ->
    targets_reference_campaigns (w_db w) ->
    let t1 := mkTargetInput (Some "+51918131082") v1 in
    let t2 := mkTargetInput (Some "918131082") v2 in
    let res := createCampaignRecord env name tpl lang [t1; t2] meta rs rd w in
    normalized_phone env t1 = "51918131082"
    /\ normalized_phone env t2 = "51918131082"
    /\ exists r,
         fst res = Ret r
         /\ inserted r = 1
         /\ duplicates r = 1
         /\ skipped_invalid r = 0
         /\ exists row,
              rows (campaign_targets (w_db (snd res)))
              = (rows (campaign_targets (w_db w)) ++ [row])%list
              /\ t_phone row = "51918131082"
              /\ t_campaign_id row = campaign_id r.
Proof.
  intros env name tpl lang v1 v2 meta rs rd w w1 sender Hcc Hens Href t1 t2 res.
  pose proof (fresh_campaign_has_no_targets (w_db w) Href) as Hfresh.
  assert (Hp1 : normalized_phone env t1 = "51918131082").
  { unfold normalized_phone. rewrite Hcc. reflexivity. }
  assert (Hp2 : normalized_phone env t2 = "51918131082").
  { unfold normalized_phone. rewrite Hcc. reflexivity. }
  assert (Hvalid : filter (valid_input env) [t1; t2] = [t1; t2]).
  { cbn [filter]. unfold valid_input. rewrite Hp1, Hp2. reflexivity. }
  assert (Hinvalid : filter (fun t => negb (valid_input env t)) [t1; t2] = []).
  { cbn [filter]. unfold valid_input. rewrite Hp1, Hp2. reflexivity. }
  split; [exact Hp1|]. split; [exact Hp2|].
  destruct (createCampaignRecord_outcome env name tpl lang [t1; t2] meta rs rd w
              sender w1 Hens)
    as (r & w' & Hrun & Hcid & _ & Hs & Hi & Hd & _ & _ & Htargets & _).
  { rewrite Hvalid. discriminate. }
  rewrite Hvalid, Hinvalid, Hfresh in *. cbn [map] in *.
  rewrite Hp1, Hp2 in *.
  change (first_occurrences [] ["51918131082"; "51918131082"])
    with ["51918131082"] in *.
  cbn [List.length] in *.
  exists r. unfold res. rewrite Hrun. cbn [fst snd].
  split; [reflexivity|]. split; [exact Hi|]. split; [rewrite Hd, Hi; reflexivity|].
  split; [exact Hs|].
  destruct Htargets as (added & now & Hrows & Hph & Hall).
  destruct added as [|row [|row2 added]]; try discriminate Hph.
  exists row. split; [exact Hrows|]. split.
  - now injection Hph.
  - inversion Hall as [|? ? Hrow _]; subst. rewrite Hcid. apply Hrow.
Qed.

(** C8 with [DEFAULT_COUNTRY_CODE=51] on an empty store. *)
Lemma same_phone_with_country_code_51_witness :
  let env := Scenario.env_with "" "51" Scenario.noon Scenario.rejected in
  let res := createCampaignRecord env "manual" "mi_template" "es"
               [mkTargetInput (Some "+51918131082") None;
                mkTargetInput (Some "918131082") None]
               None None None (mkWorld empty_db 0 []) in
  exists r, fst res = Ret r /\ inserted r = 1 /\ duplicates r = 1.
Proof.
  intros env res.
  destruct (same_phone_with_country_code_51 env "manual" "mi_template" "es"
              None None None None None (mkWorld empty_db 0 [])
              (snd (ensureSender env None None (mkWorld empty_db 0 [])))
              Scenario.sender_id eq_refl eq_refl)
    as (_ & _ & r & Hr & Hi & Hd & _).
  - intros t [].
  - exists r. auto.
Defined.

(** C8 as stated fails when no default country code is configured: the
    two inputs normalize to different phones, both are valid, and the
    campaign gets two target rows and no duplicate. *)
Lemma without_country_code_phones_differ :
  let env := Scenario.env_with "" "" Scenario.noon Scenario.rejected in
  let res := createCampaignRecord env "manual" "mi_template" "es"
               [mkTargetInput (Some "+51918131082") None;
                mkTargetInput (Some "918131082") None]
               None None None (mkWorld empty_db 0 []) in
  Phone.normalizePhone (Some "+51918131082") (country_code env) = "51918131082"
  /\ Phone.normalizePhone (Some "918131082") (country_code env) = "918131082"
  /\ Phone.normalizePhone (Some "+51918131082") (country_code env)
     <> Phone.normalizePhone (Some "918131082") (country_code env)
  /\ fst res = Ret (mkCreateResult 1 2 Scenario.sender_id 0 0
                      (Some "+857608144100041"))
  /\ map t_phone (rows (campaign_targets (w_db (snd res))))
     = ["51918131082"; "918131082"].
Proof. cbv zeta. repeat split; try (vm_compute; reflexivity). vm_compute. discriminate. Qed.

(** C9. A delivery-status event that carries a provider message ID which
    no target has is appended to the events table, under that ID, with its
    status word as type and the event itself as payload; the targets table
    and every table other than events are left as they were, and the CRM is
    not notified.  The same holds for a signed webhook delivery made of
    that one event, which is answered with 200. *)
Theorem unknown_message_id_is_only_recorded :
  forall (env : Env) (status : StatusEvent) (w : World) (messageId : string),
    se_id status = Some messageId ->
    messageId <> "" ->
    (forall t, In t (rows (campaign_targets (w_db w))) ->
               t_wa_message_id t <> Some messageId) ->
    let w' := snd (handle_status env status w) in
    fst (handle_status env status w) = Ret tt
    /\ rows (events (w_db w'))
       = (rows (events (w_db w))
          ++ [mkEvent (next_rowid ev_id (events (w_db w))) (Some messageId)
                (string_or (se_status status) "status") (StatusPayload status)
                (epoch_ms (clock env (w_reads w)))])%list
    /\ campaign_targets (w_db w') = campaign_targets (w_db w)
    /\ campaigns (w_db w') = campaigns (w_db w)
    /\ messages (w_db w') = messages (w_db w)
    /\ senders (w_db w') = senders (w_db w)
    /\ queue (w_db w') = queue (w_db w)
    /\ w_log w' = w_log w
    /\ webhook_post env (mkWebhookRequest true [[mkChange [status] []]]) w
       = (Ret Ok200, w').
Proof.
  intros env status w messageId Hid Hne Hunknown w'.
  assert (Htruthy : truthy_string (se_id status) = Some messageId).
  { rewrite Hid. unfold truthy_string. destruct messageId; [congruence|reflexivity]. }
  assert (Hnone : forall d, campaign_targets d = campaign_targets (w_db w) ->
            select_first (has_wa_message_id messageId) (campaign_targets d) = None).
  { intros d ->. apply select_first_none. intros t Ht.
    unfold has_wa_message_id, option_string_eqb.
    specialize (Hunknown t Ht).
    destruct (t_wa_message_id t) as [x|]; [|reflexivity].
    destruct (String.eqb_spec x messageId); [congruence|reflexivity]. }
  assert (E : handle_status env status w
              = (Ret tt,
                 mkWorld
                   (with_events
                      (insert_row ev_id
                         (fun id => mkEvent id (Some messageId)
                                      (string_or (se_status status) "status")
                                      (StatusPayload status)
                                      (epoch_ms (clock env (w_reads w)))))
                      (w_db w))
                   (S (w_reads w)) (w_log w))).
  { unfold handle_status. rewrite Htruthy. unfold recordEvent. unfold_m.
    cbv beta iota. db_fields. rewrite Hnone by reflexivity. reflexivity. }
  unfold w'. rewrite E. db_fields.
  repeat (split; [reflexivity|]).
  unfold webhook_post, handle_change, try_catch, bind, ret. cbn [signature_ok negb entry
    for_each ch_statuses ch_messages]. unfold bind, ret. rewrite E. reflexivity.
Qed.

(** C9 on a store whose only target carries another message ID. *)
Lemma unknown_message_id_is_only_recorded_witness :
  let status := mkStatusEvent (Some "wamid.UNKNOWN") (Some "delivered") None None in
  let env := Scenario.env_with "" "" Scenario.noon Scenario.rejected in
  let w := mkWorld
             (mkDb (mkTable [Scenario.campaign_in CRunning] 1)
                   (mkTable [mkTarget 1 1 "51918131082" (VarsValid (JS.JObj []))
                               TSent None (Some "wamid.A1") 0 0] 1)
                   empty_table empty_table empty_table empty_table) 0 [] in
  let w' := snd (handle_status env status w) in
  rows (events (w_db w'))
  = [mkEvent 1 (Some "wamid.UNKNOWN") "delivered" (StatusPayload status) 1730462400000]
  /\ campaign_targets (w_db w') = campaign_targets (w_db w).
Proof.
  intros status env w w'.
  destruct (unknown_message_id_is_only_recorded env status w "wamid.UNKNOWN")
    as (_ & He & Ht & _).
  - reflexivity.
  - discriminate.
  - intros t [<-|[]]. discriminate.
  - split; [exact He|exact Ht].
Defined.

End ServerFacts.

(* ================================================================= *)
(** * Part III: further properties of the code *)
(* ================================================================= *)

(** ** The queue *)

Module QueueMore.
Import Queue QueueOps.

Lemma insert_by_id_last a l x :
  q_id a < q_id x -> insert_by_id a (l ++ [x]) = (insert_by_id a l ++ [x])%list.
Proof.
  intros H. induction l as [|y l IH]; simpl.
  - destruct (Z.ltb_spec (q_id a) (q_id x)); [reflexivity|lia].
  - destruct (q_id a <? q_id y); [reflexivity|]. now rewrite IH.
Qed.

Lemma order_by_id_last l x :
  (forall r, In r l -> q_id r < q_id x) ->
  order_by_id (l ++ [x]) = (order_by_id l ++ [x])%list.
Proof.
  induction l as [|a l IH]; intros H; simpl; [reflexivity|].
  rewrite IH by (intros r Hr; apply H; simpl; auto).
  apply insert_by_id_last. apply H. simpl; auto.
Qed.

Lemma select_batch_length now limit q :
  0 <= limit ->
  (List.length (select_batch now limit q) <= Z.to_nat limit)%nat.
Proof.
  intros H. unfold select_batch, sql_limit.
  destruct (Z.ltb_spec limit 0); [lia|]. rewrite length_firstn. lia.
Qed.

(** A newly enqueued entry is served after every older eligible entry: it
    joins the batch at its end when the batch has room for it and it is due,
    and otherwise leaves the batch as it was. *)
Theorem enqueue_never_displaces_older_entries :
  forall (t c tg : Z) (p : string) (now limit : Z) (q : Table QueueRow),
    let q1 := enqueueTarget t c tg p q in
    let id := next_rowid q_id q in
    let older := fst (fetchBatch now limit q) in
    let room := (limit <? 0) || (Z.of_nat (List.length older) <? limit) in
    (forall r, In r (rows q) -> q_id r < id)
    /\ rows q1 = (rows q ++ [mkQueueRow id c tg p t 0 QQueued])%list
    /\ fst (fetchBatch now limit q1)
       = if (t <=? now) && room then (older ++ [mkJob id c tg p 0])%list else older.
Proof.
  intros t c tg p now limit q q1 id older room.
  assert (Hfresh : forall r, In r (rows q) -> q_id r < id).
  { intros r Hr. now apply (next_rowid_fresh q_id). }
  split; [exact Hfresh|]. split; [reflexivity|].
  subst room older. unfold fetchBatch, select_batch. cbn [fst].
  unfold q1, enqueueTarget, insert_row. cbn [rows]. fold id.
  rewrite filter_app. cbn [filter]. unfold eligible at 2.
  cbn [q_status q_available_at QueueStatus_eqb andb].
  rewrite length_map.
  set (el := filter (eligible now) (rows q)).
  destruct (t <=? now); cbn [andb].
  - rewrite order_by_id_last.
    2:{ intros r Hr. apply Hfresh. unfold el in Hr. now apply filter_In in Hr. }
    unfold sql_limit. destruct (Z.ltb_spec limit 0) as [Hneg|Hpos]; cbn [orb].
    + now rewrite map_app.
    + destruct (Z.ltb_spec (Z.of_nat (List.length (firstn (Z.to_nat limit) (order_by_id el))))
                           limit) as [Hroom|Hfull].
      * rewrite length_firstn in Hroom.
        rewrite firstn_app.
        assert (Hle : (List.length (order_by_id el) <= Z.to_nat limit)%nat) by lia.
        rewrite (firstn_all2 (order_by_id el) Hle).
        assert (Hone : firstn (Z.to_nat limit - List.length (order_by_id el))
                         [mkQueueRow id c tg p t 0 QQueued]
                       = [mkQueueRow id c tg p t 0 QQueued]).
        { destruct (Z.to_nat limit - List.length (order_by_id el))%nat eqn:E; [lia|].
          cbn [firstn]. now rewrite firstn_nil. }
        rewrite Hone. now rewrite map_app.
      * rewrite length_firstn in Hfull.
        rewrite firstn_app.
        assert (Hz : (Z.to_nat limit - List.length (order_by_id el) = 0)%nat) by lia.
        rewrite Hz. cbn [firstn]. now rewrite app_nil_r.
  - rewrite app_nil_r. reflexivity.
Qed.

Lemma sorted_map_same_ids (g : QueueRow -> QueueRow) l :
  (forall r, q_id (g r) = q_id r) ->
  StronglySorted lt_id l -> StronglySorted lt_id (map g l).
Proof.
  intros Hg. induction 1 as [|x l Hs IH Hall]; simpl; constructor; auto.
  rewrite Forall_map. eapply Forall_impl; [|exact Hall].
  intros r Hr. unfold lt_id in *. now rewrite !Hg.
Qed.

Lemma sorted_snoc l x :
  StronglySorted lt_id l -> (forall r, In r l -> q_id r < q_id x) ->
  StronglySorted lt_id (l ++ [x]).
Proof.
  induction 1 as [|a l Hs IH Hall]; intros Hx; simpl.
  - repeat constructor.
  - constructor.
    + apply IH. intros r Hr. apply Hx. simpl; auto.
    + apply Forall_app. split; [exact Hall|].
      constructor; [|constructor]. apply Hx. simpl; auto.
Qed.

Lemma queue_ok_update p f q :
  (forall r, q_id (f r) = q_id r) ->
  (forall r, In r (rows q) -> p r = true -> row_ok q r -> row_ok q (f r)) ->
  queue_ok q -> queue_ok (update_where p f q).
Proof.
  intros Hid Hf [Hs Hall]. split.
  - rewrite rows_update_where. apply sorted_map_same_ids; [|exact Hs].
    intros r. destruct (p r); [apply Hid|reflexivity].
  - rewrite rows_update_where, Forall_map, Forall_forall.
    rewrite Forall_forall in Hall. intros r Hr. specialize (Hall r Hr).
    destruct (p r) eqn:E; [|exact Hall].
    exact (Hf r Hr E Hall).
Qed.

Lemma queue_ok_set_status st id q :
  st <> QFailed -> queue_ok q -> queue_ok (update_where (has_id id) (set_status st) q).
Proof.
  intros Hst. apply queue_ok_update; [reflexivity|].
  intros r _ _ (Hi & Ha & _). repeat split; simpl; auto; lia.
Qed.

Lemma queue_ok_apply q op : queue_ok q -> queue_ok (apply_op q op).
Proof.
  intros Hok. destruct op as [now c t p|now limit|id|now id b]; cbn [apply_op].
  - destruct Hok as [Hs Hall]. unfold enqueueTarget, insert_row. split; cbn [rows seq].
    + apply sorted_snoc; [exact Hs|]. intros r Hr. cbn [q_id].
      now apply (next_rowid_fresh q_id).
    + assert (Hnext : Z.max (seq q) 0 < next_rowid q_id q).
      { unfold next_rowid.
        assert (0 <= max_rowid q_id (rows q)).
        { clear. induction (rows q); simpl; lia. }
        lia. }
      apply Forall_app. split.
      * eapply Forall_impl; [|exact Hall]. intros r (Hi & Ha & Hf).
        repeat split; cbn [seq]; auto; lia.
      * constructor; [|constructor]. repeat split; cbn; try lia. discriminate.
  - unfold fetchBatch. cbn [snd].
    induction (map q_id (select_batch now limit q)) as [|i ids IH] using rev_ind.
    + exact Hok.
    + rewrite fold_left_app. cbn [fold_left]. unfold mark_processing at 1.
      apply queue_ok_set_status; [discriminate|exact IH].
  - apply queue_ok_set_status; [discriminate|exact Hok].
  - unfold markFailed. apply queue_ok_update; [reflexivity| |exact Hok].
    intros r _ _ (Hi & Ha & _).
    assert (0 <= match select_first (has_id id) q with
                 | Some r0 => q_attempts r0 | None => 0 end).
    { destruct (select_first (has_id id) q) as [r0|] eqn:E; [|lia].
      apply select_first_In in E as [Hin _]. destruct Hok as [_ Hall].
      rewrite Forall_forall in Hall. apply (Hall r0 Hin). }
    repeat split; simpl; auto; try lia. discriminate.
Qed.

(** Whatever sequence of [enqueueTarget], [fetchBatch], [markDone] and
    [markFailed] calls has been made since the table was created, the queue
    stores its rows in strictly ascending rowid order (so no two rows share
    a rowid), with positive rowids, non-negative attempt counts, and never
    the status ['failed']: no operation of the queue writes that status. *)
Theorem queue_invariant_under_all_operations :
  forall ops : list QueueOp,
    queue_ok (run_ops ops empty_table)
    /\ distinct_ids (run_ops ops empty_table).
Proof.
  intros ops.
  assert (H : queue_ok (run_ops ops empty_table)).
  { unfold run_ops. induction ops as [|op ops IH] using rev_ind.
    - split; constructor.
    - rewrite fold_left_app. cbn [fold_left]. now apply queue_ok_apply. }
  split; [exact H|]. destruct H as [Hs _]. unfold distinct_ids.
  induction Hs as [|x l Hs IH Hall]; simpl; constructor; auto.
  intros Hin. apply in_map_iff in Hin as (y & E & Hy).
  rewrite Forall_forall in Hall. specialize (Hall y Hy). unfold lt_id in Hall. lia.
Qed.

(** The rows of the queue that carry a given rowid. *)
Lemma fetchBatch_returns_eligible now limit q j :
  In j (fst (fetchBatch now limit q)) ->
  exists r, In r (rows q) /\ q_id r = job_id j /\ eligible now r = true.
Proof.
  intros Hj. unfold fetchBatch in Hj. cbn [fst] in Hj.
  apply in_map_iff in Hj as (r & <- & Hr).
  assert (In r (order_by_id (filter (eligible now) (rows q)))) as Hin.
  { unfold select_batch, sql_limit in Hr. destruct (limit <? 0); [exact Hr|].
    rewrite <- (firstn_skipn (Z.to_nat limit)). apply in_or_app. now left. }
  apply (Permutation_in _ (QueueFacts.order_by_id_perm _)) in Hin.
  apply filter_In in Hin as [Hin He]. exists r. auto.
Qed.

(** After [markFailed], the entry stays out of every batch until its new
    [available_at] has come: for a positive delay base and a non-negative
    attempt count that is at least [backoffMs] milliseconds, and at most ten
    times that.  From then on it is eligible again. *)
Theorem failed_entry_is_invisible_until_backoff_elapses :
  forall (now id backoffMs : Z) (q : Table QueueRow) (r : QueueRow),
    select_first (has_id id) q = Some r ->
    let q' := markFailed now id backoffMs q in
    let due := now + backoff_delay backoffMs (q_attempts r + 1) in
    (forall now' limit, now' < due ->
       ~ In id (map job_id (fst (fetchBatch now' limit q'))))
    /\ (forall r', In r' (rows q') -> q_id r' = id ->
         forall now', due <= now' -> eligible now' r' = true)
    /\ (0 < backoffMs -> 0 <= q_attempts r ->
        now + backoffMs <= due <= now + 10 * backoffMs).
Proof.
  intros now id b q r Hsel q' due.
  assert (Hrows : forall r', In r' (rows q') -> q_id r' = id ->
            q_available_at r' = due /\ q_status r' = QQueued).
  { intros r' Hin Hid. unfold q', markFailed in Hin. rewrite Hsel in Hin.
    rewrite rows_update_where in Hin. apply in_map_iff in Hin as (r0 & E & _).
    unfold has_id in E. destruct (Z.eqb_spec (q_id r0) id) as [_|Hne].
    - subst r'. split; reflexivity.
    - subst r'. contradiction. }
  split; [|split].
  - intros now' limit Hlt Hin. apply in_map_iff in Hin as (j & Hj & Hin).
    destruct (fetchBatch_returns_eligible now' limit q' j Hin) as (r' & Hr' & Hid & He).
    destruct (Hrows r' Hr' (eq_trans Hid Hj)) as [Ha _].
    unfold eligible in He. apply andb_true_iff in He as [_ He].
    apply Z.leb_le in He. lia.
  - intros r' Hin Hid now' Hle. destruct (Hrows r' Hin Hid) as [Ha Hs].
    unfold eligible. rewrite Hs, Ha. cbn [QueueStatus_eqb andb]. apply Z.leb_le. lia.
  - intros Hb Ha. unfold due, backoff_delay. nia.
Qed.

(** After the worker's [markFailed(job.id, 3000)] at time 1000 on a first
    failure, the entry is not served at time 3999. *)
Lemma failed_entry_is_invisible_until_backoff_elapses_witness :
  let q := mkTable [ mkQueueRow 1 7 11 "p" 100 0 QProcessing ] 1 in
  ~ In 1 (map job_id (fst (fetchBatch 3999 20 (markFailed 1000 1 3000 q)))).
Proof.
  intros q.
  exact (proj1 (failed_entry_is_invisible_until_backoff_elapses 1000 1 3000 q
                  (mkQueueRow 1 7 11 "p" 100 0 QProcessing) eq_refl)
               3999 20 eq_refl).
Defined.

Lemma update_where_no_match {A} (p : A -> bool) (f : A -> A) (t : Table A) :
  (forall r, In r (rows t) -> p r = false) -> update_where p f t = t.
Proof.
  intros H. unfold update_where. rewrite update_where_none by exact H.
  now destruct t.
Qed.

(** [markDone] and [markFailed] on a rowid the queue does not hold change
    nothing, and [markDone] on an entry is final: no later [fetchBatch]
    returns it, whatever the time and the limit. *)
Theorem markDone_is_final_and_unknown_ids_are_ignored :
  forall (id : Z) (q : Table QueueRow),
    (~ In id (map q_id (rows q)) ->
       markDone id q = q /\ forall now b, markFailed now id b q = q)
    /\ (forall now limit, ~ In id (map job_id (fst (fetchBatch now limit (markDone id q)))))
    /\ (forall id', id' <> id ->
         forall r, In r (rows q) -> q_id r = id' -> In r (rows (markDone id q))).
Proof.
  intros id q. split; [|split].
  - intros Hno.
    assert (Hp : forall r, In r (rows q) -> has_id id r = false).
    { intros r Hr. unfold has_id. apply Z.eqb_neq. intros E. apply Hno.
      rewrite <- E. now apply in_map. }
    split; [|intros now b]; now apply update_where_no_match.
  - intros now limit Hin. apply in_map_iff in Hin as (j & Hj & Hin).
    destruct (fetchBatch_returns_eligible now limit _ j Hin) as (r & Hr & Hid & He).
    unfold markDone in Hr. rewrite rows_update_where in Hr.
    apply in_map_iff in Hr as (r0 & E & _). unfold has_id in E.
    destruct (Z.eqb_spec (q_id r0) id) as [_|Hne].
    + subst r. discriminate He.
    + subst r. congruence.
  - intros id' Hne r Hr Hid. unfold markDone. rewrite rows_update_where.
    apply in_map_iff. exists r. split; [|exact Hr].
    unfold has_id. destruct (Z.eqb_spec (q_id r) id); [congruence|reflexivity].
Qed.

End QueueMore.

(** ** The worker *)

Module WorkerMore.
Import Worker Frame.

Lemma targets_rewritten_refl tbl : targets_rewritten tbl tbl.
Proof.
  split; [reflexivity|]. exists (fun t => t). split.
  - intros t. repeat split.
  - symmetry. apply map_id.
Qed.

Lemma targets_rewritten_trans a b c :
  targets_rewritten a b -> targets_rewritten b c -> targets_rewritten a c.
Proof.
  intros [Hs1 (g1 & H1 & E1)] [Hs2 (g2 & H2 & E2)]. split; [congruence|].
  exists (fun t => g2 (g1 t)). split.
  - intros t. destruct (H1 t) as (? & ? & ? & ? & ?).
    destruct (H2 (g1 t)) as (? & ? & ? & ? & ?).
    repeat split; congruence.
  - rewrite E2, E1, map_map. reflexivity.
Qed.

Lemma targets_rewritten_update id f tbl :
  (forall t, same_target_identity t (f t)) ->
  targets_rewritten tbl (update_where (has_target_id id) f tbl).
Proof.
  intros Hf. split; [reflexivity|].
  exists (fun t => if has_target_id id t then f t else t). split.
  - intros t. destruct (has_target_id id t); [apply Hf|repeat split].
  - reflexivity.
Qed.

Lemma same_identity_set_status s now t : same_target_identity t (set_status s now t).
Proof. repeat split. Qed.
Lemma same_identity_set_failed e now t : same_target_identity t (set_failed e now t).
Proof. repeat split. Qed.
Lemma same_identity_set_sent i now t : same_target_identity t (set_sent i now t).
Proof. repeat split. Qed.

(** Everything one job can do to the world. *)
Lemma process_job_effect env job w :
  let w' := snd (process_job env job w) in
  (queue (w_db w') = Queue.markDone (job_id job) (queue (w_db w))
   \/ exists now, queue (w_db w')
                  = Queue.markFailed now (job_id job) 3000 (queue (w_db w)))
  /\ (w_log w' = w_log w \/ exists req, w_log w' = (w_log w ++ [HttpPost req])%list)
  /\ campaigns (w_db w') = campaigns (w_db w)
  /\ events (w_db w') = events (w_db w)
  /\ senders (w_db w') = senders (w_db w)
  /\ targets_rewritten (campaign_targets (w_db w)) (campaign_targets (w_db w'))
  /\ (messages (w_db w') = messages (w_db w)
      \/ (exists m req, rows (messages (w_db w')) = (rows (messages (w_db w)) ++ [m])%list
                        /\ w_log w' = (w_log w ++ [HttpPost req])%list)).
Proof.
  cbv zeta. unfold process_job. unfold_m. cbv beta iota. db_fields.
  assert (Hdropped :
    let w' := mkWorld (with_queue (Queue.markDone (job_id job)) (w_db w))
                      (w_reads w) (w_log w) in
    (queue (w_db w') = Queue.markDone (job_id job) (queue (w_db w))
     \/ exists now, queue (w_db w')
                    = Queue.markFailed now (job_id job) 3000 (queue (w_db w)))
    /\ (w_log w' = w_log w \/ exists req, w_log w' = (w_log w ++ [HttpPost req])%list)
    /\ campaigns (w_db w') = campaigns (w_db w)
    /\ events (w_db w') = events (w_db w)
    /\ senders (w_db w') = senders (w_db w)
    /\ targets_rewritten (campaign_targets (w_db w)) (campaign_targets (w_db w'))
    /\ (messages (w_db w') = messages (w_db w)
        \/ (exists m req, rows (messages (w_db w')) = (rows (messages (w_db w)) ++ [m])%list
                          /\ w_log w' = (w_log w ++ [HttpPost req])%list))).
  { cbv zeta. db_fields. split; [left; reflexivity|]. split; [left; reflexivity|].
    repeat (split; [reflexivity|]). split; [apply targets_rewritten_refl|now left]. }
  cbv zeta in Hdropped.
  destruct (select_first _ (campaigns (w_db w))) as [camp|]; [|exact Hdropped].
  destruct (gated (c_status camp)); [exact Hdropped|].
  destruct (select_first _ (campaign_targets (w_db w))) as [target|]; [|exact Hdropped].
  clear Hdropped.
  destruct (negb (Phone.isLikelyValidPhone (t_phone target))).
  { db_fields. split; [left; reflexivity|]. split; [left; reflexivity|].
    repeat (split; [reflexivity|]). split; [|now left].
    apply targets_rewritten_update, same_identity_set_failed. }
  assert (Hsending := targets_rewritten_update (t_id target)
            (set_status TSending (epoch_ms (clock env (w_reads w))))
            (campaign_targets (w_db w)) (same_identity_set_status _ _)).
  unfold send_job, fail_job, parse_vars, bodyParams, Wa.sendTemplate. unfold_m.
  cbv beta iota. db_fields.
  destruct (t_vars_json target) as [vars|msg].
  - destruct (JS.Object_values vars) as [vs|].
    + cbv beta iota. db_fields.
      destruct (provider env _ _) as [resp|e]; cbv beta iota; db_fields.
      * split; [left; reflexivity|]. split; [right; eexists; reflexivity|].
        repeat (split; [reflexivity|]). split.
        -- eapply targets_rewritten_trans; [exact Hsending|].
           apply targets_rewritten_update, same_identity_set_sent.
        -- right. do 2 eexists. split; reflexivity.
      * split; [right; eexists; reflexivity|]. split; [right; eexists; reflexivity|].
        repeat (split; [reflexivity|]). split; [|left; reflexivity].
        eapply targets_rewritten_trans; [exact Hsending|].
        apply targets_rewritten_update, same_identity_set_failed.
    + cbv beta iota. db_fields.
      split; [right; eexists; reflexivity|]. split; [left; reflexivity|].
      repeat (split; [reflexivity|]). split; [|left; reflexivity].
      eapply targets_rewritten_trans; [exact Hsending|].
      apply targets_rewritten_update, same_identity_set_failed.
  - cbv beta iota. db_fields.
    split; [right; eexists; reflexivity|]. split; [left; reflexivity|].
    repeat (split; [reflexivity|]). split; [|left; reflexivity].
    eapply targets_rewritten_trans; [exact Hsending|].
    apply targets_rewritten_update, same_identity_set_failed.
Qed.

Lemma queue_settled_nil q : queue_settled [] q q.
Proof.
  split; [reflexivity|]. exists (fun r => r). split; [symmetry; apply map_id|].
  intros r. repeat split. intros [].
Qed.

Lemma queue_settled_step id ids q1 q2 q3 :
  (q2 = Queue.markDone id q1 \/ exists now, q2 = Queue.markFailed now id 3000 q1) ->
  queue_settled ids q2 q3 ->
  queue_settled (id :: ids) q1 q3.
Proof.
  intros Hstep [Hseq (g & Hrows & Hg)]. split.
  { rewrite Hseq. destruct Hstep as [ -> | [now ->] ]; reflexivity. }
  assert (exists f, rows q2 = map f (rows q1)
            /\ forall r, q_id (f r) = q_id r
                         /\ (q_id r = id -> settled (q_status (f r)))
                         /\ (q_id r <> id -> f r = r)) as (f & Hf & Hfp).
  { destruct Hstep as [ -> | [now ->] ].
    - exists (fun r => if Queue.has_id id r then Queue.set_status QDone r else r).
      split; [reflexivity|]. intros r. unfold Queue.has_id.
      destruct (Z.eqb_spec (q_id r) id); repeat split; try congruence.
      intros _. now left.
    - eexists (fun r => if Queue.has_id id r then Queue.requeue _ _ r else r).
      split; [unfold Queue.markFailed; rewrite rows_update_where; reflexivity|].
      intros r. unfold Queue.has_id.
      destruct (Z.eqb_spec (q_id r) id); repeat split; try congruence.
      intros _. now right. }
  exists (fun r => g (f r)). split; [now rewrite Hrows, Hf, map_map|].
  intros r. destruct (Hfp r) as (Hfid & Hfin & Hfout).
  destruct (Hg (f r)) as (Hgid & Hgin & Hgout). rewrite Hfid in *.
  split; [congruence|]. split.
  - intros Hin. destruct (in_dec Z.eq_dec (q_id r) ids) as [Hi|Hni].
    + now apply Hgin.
    + rewrite (Hgout Hni). apply Hfin. destruct Hin as [E|Hi]; [congruence|contradiction].
  - intros Hnot. rewrite Hgout by (intros Hi; apply Hnot; now right).
    apply Hfout. intros E. apply Hnot. now left.
Qed.

(** Everything the loop of a tick can do to the world. *)
Lemma loop_effect env jobs :
  forall w,
    let w' := snd (for_each (process_job env) jobs w) in
    (exists added,
        w_log w' = (w_log w ++ added)%list
        /\ Forall (fun e => is_http e = true) added
        /\ (List.length added <= List.length jobs)%nat
        /\ exists ms, rows (messages (w_db w')) = (rows (messages (w_db w)) ++ ms)%list
                      /\ (List.length ms <= List.length added)%nat)
    /\ campaigns (w_db w') = campaigns (w_db w)
    /\ events (w_db w') = events (w_db w)
    /\ senders (w_db w') = senders (w_db w)
    /\ targets_rewritten (campaign_targets (w_db w)) (campaign_targets (w_db w'))
    /\ queue_settled (map job_id jobs) (queue (w_db w)) (queue (w_db w')).
Proof.
  induction jobs as [|job jobs IH]; intros w; cbv zeta.
  - cbn. split.
    + exists []. rewrite app_nil_r. repeat split; auto.
      exists []. rewrite app_nil_r. auto.
    + repeat split; auto using targets_rewritten_refl, queue_settled_nil.
      apply targets_rewritten_refl. apply queue_settled_nil.
  - change (job :: jobs) with ([] ++ job :: jobs)%list.
    rewrite WorkerFacts.loop_step. cbn [for_each ret snd app].
    set (w1 := snd (process_job env job w)).
    pose proof (process_job_effect env job w) as P. cbv zeta in P. fold w1 in P.
    destruct P as (Pq & Pl & Pc & Pe & Ps & Pt & Pm).
    destruct (IH w1) as ((added & Hl & Hh & Hn & ms & Hm & Hmn) & Hc & He & Hs & Ht & Hq).
    split.
    + destruct Pm as [Pm|(m & req & Pm & Plog)].
      * destruct Pl as [Pl|(req & Pl)].
        -- exists added. rewrite Hl, Pl. repeat split; auto.
           ++ cbn [List.length]. lia.
           ++ exists ms. rewrite Hm, Pm. split; [reflexivity|lia].
        -- exists (HttpPost req :: added). rewrite Hl, Pl, <- app_assoc.
           repeat split; auto.
           ++ cbn [List.length]. lia.
           ++ exists ms. rewrite Hm, Pm. split; [reflexivity|]. cbn [List.length]. lia.
      * exists (HttpPost req :: added). rewrite Hl, Plog, <- app_assoc.
        repeat split; auto.
        -- cbn [List.length]. lia.
        -- exists (m :: ms). rewrite Hm, Pm, <- app_assoc.
           split; [reflexivity|]. cbn [List.length]. lia.
    + split; [congruence|]. split; [congruence|]. split; [congruence|]. split.
      * eapply targets_rewritten_trans; eassumption.
      * cbn [map]. eapply queue_settled_step; [|exact Hq]. exact Pq.
Qed.

Lemma sweep_campaign_effect c w :
  let w' := snd (sweep_campaign c w) in
  campaigns_closed (campaigns (w_db w)) (campaigns (w_db w'))
  /\ campaign_targets (w_db w') = campaign_targets (w_db w)
  /\ queue (w_db w') = queue (w_db w)
  /\ messages (w_db w') = messages (w_db w)
  /\ events (w_db w') = events (w_db w)
  /\ senders (w_db w') = senders (w_db w)
  /\ w_log w' = w_log w.
Proof.
  cbv zeta. unfold sweep_campaign. unfold_m. cbv beta iota. db_fields.
  destruct (_ =? _)%nat; db_fields; (split; [|repeat split; reflexivity]).
  - split; [reflexivity|].
    exists (fun r => if has_campaign_id (c_id c) r then set_campaign_status CDone r else r).
    split; [reflexivity|]. intros r. destruct (has_campaign_id (c_id c) r); auto.
  - split; [reflexivity|]. exists (fun r => r). split; [symmetry; apply map_id|auto].
Qed.

Lemma campaigns_closed_trans a b c :
  campaigns_closed a b -> campaigns_closed b c -> campaigns_closed a c.
Proof.
  intros [S1 (g1 & E1 & H1)] [S2 (g2 & E2 & H2)]. split; [congruence|].
  exists (fun r => g2 (g1 r)). split; [now rewrite E2, E1, map_map|].
  intros r. destruct (H1 r) as [ -> | -> ]; [apply H2|].
  destruct (H2 (set_campaign_status CDone r)) as [ -> | -> ]; [now right|].
  right. reflexivity.
Qed.

Lemma campaigns_closed_refl a : campaigns_closed a a.
Proof.
  split; [reflexivity|]. exists (fun r => r). split; [symmetry; apply map_id|auto].
Qed.

Lemma sweep_loop_effect cs :
  forall w,
    let w' := snd (for_each sweep_campaign cs w) in
    campaigns_closed (campaigns (w_db w)) (campaigns (w_db w'))
    /\ campaign_targets (w_db w') = campaign_targets (w_db w)
    /\ queue (w_db w') = queue (w_db w)
    /\ messages (w_db w') = messages (w_db w)
    /\ events (w_db w') = events (w_db w)
    /\ senders (w_db w') = senders (w_db w)
    /\ w_log w' = w_log w.
Proof.
  induction cs as [|c cs IH]; intros w; cbv zeta.
  - cbn. repeat split; auto. apply campaigns_closed_refl.
  - cbn [for_each]. unfold bind.
    pose proof (WorkerFacts.sweep_campaign_returns c w) as R.
    pose proof (sweep_campaign_effect c w) as P. cbv zeta in P.
    destruct (sweep_campaign c w) as [[u|e] w1]; cbn [fst snd] in *; [|discriminate].
    destruct P as (Pc & Pt & Pq & Pm & Pe & Ps & Pl).
    destruct (IH w1) as (Hc & Ht & Hq & Hm & He & Hs & Hl).
    split; [eapply campaigns_closed_trans; eassumption|].
    repeat split; congruence.
Qed.

Lemma sweep_effect w :
  let w' := snd (sweep w) in
  campaigns_closed (campaigns (w_db w)) (campaigns (w_db w'))
  /\ campaign_targets (w_db w') = campaign_targets (w_db w)
  /\ queue (w_db w') = queue (w_db w)
  /\ messages (w_db w') = messages (w_db w)
  /\ events (w_db w') = events (w_db w)
  /\ senders (w_db w') = senders (w_db w)
  /\ w_log w' = w_log w.
Proof.
  cbv zeta. unfold sweep. unfold_m. cbv beta iota. db_fields.
  destruct (_ =? _)%nat.
  - apply (sweep_loop_effect _ w).
  - cbn. repeat split; auto. apply campaigns_closed_refl.
Qed.

(** The outcomes of a tick. *)
Lemma tick_cases env w :
  let w0 := mkWorld (w_db w) (S (w_reads w)) (w_log w) in
  let claim := Queue.fetchBatch (epoch_ms (clock env (S (w_reads w))))
                 (BATCH_SIZE env) (queue (w_db w)) in
  let w1 := mkWorld (with_queue (fun _ => snd claim) (w_db w))
                    (S (S (w_reads w))) (w_log w) in
  snd (tick env w) = w0
  \/ (fst claim = [] /\ snd (tick env w) = w1)
  \/ (fst claim <> [] /\ interrupted env (fst claim) = false
      /\ snd (tick env w) = snd (sweep (snd (for_each (process_job env) (fst claim) w1))))
  \/ (interrupted env (fst claim) = true
      /\ snd (tick env w)
         = snd (for_each (process_job env) (reached env (fst claim)) w1)).
Proof.
  cbv zeta.
  destruct (Wa.inWindow (clock env (w_reads w)) (DELIVERY_WINDOW env)) eqn:Hwin.
  - right. rewrite (WindowFacts.tick_inside_window env w Hwin).
    rewrite WorkerFacts.tick_work_run. cbv zeta. cbn [w_db w_reads w_log].
    destruct (fst (Queue.fetchBatch _ _ _)) as [|j jobs] eqn:E.
    + left. split; reflexivity.
    + right. destruct (interrupted env (j :: jobs)) eqn:Hi.
      * right. split; reflexivity.
      * left. split; [discriminate|]. split; reflexivity.
  - left. now rewrite (WindowFacts.tick_outside_window env w Hwin).
Qed.


(** A tick as a loop over the jobs it reaches, with or without the sweep. *)
Lemma tick_as_loop env w :
  let claim := Queue.fetchBatch (epoch_ms (clock env (S (w_reads w))))
                 (BATCH_SIZE env) (queue (w_db w)) in
  let w1 := mkWorld (with_queue (fun _ => snd claim) (w_db w))
                    (S (S (w_reads w))) (w_log w) in
  snd (tick env w) = mkWorld (w_db w) (S (w_reads w)) (w_log w)
  \/ exists jobs,
       (List.length jobs <= List.length (fst claim))%nat
       /\ (forall id, In id (map job_id jobs) -> In id (map job_id (fst claim)))
       /\ let w2 := snd (for_each (process_job env) jobs w1) in
          snd (tick env w) = w2 \/ snd (tick env w) = snd (sweep w2).
Proof.
  cbv zeta. destruct (tick_cases env w) as [E|[[Hnil E]|[(_ & _ & E)|(_ & E)]]];
    cbv zeta in E.
  - now left.
  - right. exists []. split; [cbn; lia|]. split; [intros id []|]. left. exact E.
  - right. exists (fst (Queue.fetchBatch (epoch_ms (clock env (S (w_reads w))))
                          (BATCH_SIZE env) (queue (w_db w)))).
    split; [lia|]. split; [auto|]. right. exact E.
  - right. eexists. split; [apply WorkerFacts.reached_length|]. split; [|left; exact E].
    intros id Hid.
    destruct (WorkerFacts.reached_prefix env
                (fst (Queue.fetchBatch (epoch_ms (clock env (S (w_reads w))))
                        (BATCH_SIZE env) (queue (w_db w))))) as (rest & Hrest).
    rewrite Hrest, map_app. apply in_or_app. now left.
Qed.

(** What the sweep, run or not, leaves of a world. *)
Lemma swept_or_not w2 w' :
  w' = w2 \/ w' = snd (sweep w2) ->
  campaigns_closed (campaigns (w_db w2)) (campaigns (w_db w'))
  /\ campaign_targets (w_db w') = campaign_targets (w_db w2)
  /\ queue (w_db w') = queue (w_db w2)
  /\ messages (w_db w') = messages (w_db w2)
  /\ events (w_db w') = events (w_db w2)
  /\ senders (w_db w') = senders (w_db w2)
  /\ w_log w' = w_log w2.
Proof.
  intros [->| ->]; [|apply sweep_effect].
  split; [apply campaigns_closed_refl|]. repeat split.
Qed.

(** One tick issues at most one call of the messaging API per claimed queue
    entry, hence at most [BATCH_SIZE] calls; it only appends to the log of
    effects, never notifies the CRM, and appends at most one message record
    per call. *)
Theorem tick_calls_bounded_by_batch_size :
  forall (env : Env) (w : World),
    let w' := snd (tick env w) in
    exists added,
      w_log w' = (w_log w ++ added)%list
      /\ Forall (fun e => is_http e = true) added
      /\ (0 <= BATCH_SIZE env -> Z.of_nat (List.length added) <= BATCH_SIZE env)
      /\ exists ms,
           rows (messages (w_db w')) = (rows (messages (w_db w)) ++ ms)%list
           /\ (List.length ms <= List.length added)%nat.
Proof.
  intros env w w'.
  pose proof (tick_as_loop env w) as C. cbv zeta in C. fold w' in C.
  destruct C as [E|(jobs & Hlen & _ & E)].
  - rewrite E. db_fields. exists []. rewrite app_nil_r.
    split; [reflexivity|]. split; [constructor|]. split; [cbn; lia|].
    exists []. rewrite app_nil_r. auto.
  - set (claim := Queue.fetchBatch _ _ _) in *.
    set (w1 := mkWorld _ _ _) in E.
    pose proof (loop_effect env jobs w1) as L. cbv zeta in L.
    set (w2 := snd (for_each (process_job env) jobs w1)) in *.
    destruct (swept_or_not w2 w' E) as (_ & _ & _ & Sm & _ & _ & Sl).
    destruct L as ((added & Hl & Hh & Hn & ms & Hm & Hmn) & _).
    exists added. rewrite Sl, Hl, Sm, Hm. split; [reflexivity|]. split; [exact Hh|]. split.
    + intros Hb.
      assert ((List.length (fst claim) <= Z.to_nat (BATCH_SIZE env))%nat).
      { unfold claim, Queue.fetchBatch. cbn [fst]. rewrite length_map.
        now apply QueueMore.select_batch_length. }
      lia.
    + exists ms. auto.
Qed.


(** An orphan entry, whose campaign row or whose target row does not
    exist, is dropped: the queue changes by [markDone] only, nothing is sent
    and no other table changes. *)
Theorem orphan_job_is_dropped :
  forall (env : Env) (job : Job) (w : World),
    select_first (has_campaign_id (job_campaign_id job)) (campaigns (w_db w)) = None
    \/ select_first (has_target_id (job_target_id job)) (campaign_targets (w_db w))
       = None ->
    process_job env job w
    = (Ret tt, mkWorld (with_queue (Queue.markDone (job_id job)) (w_db w))
                       (w_reads w) (w_log w)).
Proof.
  intros env job w H. unfold process_job. unfold_m. cbv beta iota.
  destruct (select_first _ (campaigns (w_db w))) as [camp|]; [|reflexivity].
  destruct (gated (c_status camp)); [reflexivity|].
  destruct H as [H|H]; [discriminate|]. now rewrite H.
Qed.

Lemma orphan_job_is_dropped_witness :
  map q_status
      (rows (queue (w_db (snd (process_job
                                  (Scenario.env_with "" "" Scenario.noon Scenario.rejected)
                                  Scenario.job Scenario.orphan_world)))))
  = [QDone].
Proof.
  rewrite (orphan_job_is_dropped _ Scenario.job Scenario.orphan_world
             (or_intror eq_refl)).
  reflexivity.
Defined.

(** A target whose stored variables cannot be used, because the text does
    not parse or parses to [null], is handled like a failed send although no
    call is made: the target becomes ['failed'] with the error message of
    the exception and the entry is re-queued by [markFailed(job.id, 3000)],
    to fail again in the same way at every retry. *)
Theorem unusable_variables_are_retried_without_a_call :
  forall (env : Env) (job : Job) (w : World) (camp : Campaign) (target : Target)
         (msg : string),
    select_first (has_campaign_id (job_campaign_id job)) (campaigns (w_db w))
      = Some camp ->
    gated (c_status camp) = false ->
    select_first (has_target_id (job_target_id job)) (campaign_targets (w_db w))
      = Some target ->
    Phone.isLikelyValidPhone (t_phone target) = true ->
    t_vars_json target = VarsInvalid msg
    \/ (t_vars_json target = VarsValid JS.JNull
        /\ msg = "Cannot convert undefined or null to object") ->
    let t1 := epoch_ms (clock env (w_reads w)) in
    let t2 := epoch_ms (clock env (S (w_reads w))) in
    let t3 := epoch_ms (clock env (S (S (w_reads w)))) in
    process_job env job w
    = (Ret tt,
       mkWorld
         (with_queue (Queue.markFailed t3 (job_id job) 3000)
            (with_targets
               (update_where (has_target_id (t_id target))
                  (set_failed (JS.take 500 msg) t2))
               (with_targets
                  (update_where (has_target_id (t_id target)) (set_status TSending t1))
                  (w_db w))))
         (S (S (S (w_reads w)))) (w_log w)).
Proof.
  intros env job w camp target msg Hc Hg Ht Hp Hv t1 t2 t3.
  unfold process_job. unfold_m. cbv beta iota. db_fields.
  rewrite Hc, Hg, Ht, Hp. cbn [negb].
  unfold send_job, fail_job, parse_vars, bodyParams. unfold_m. cbv beta iota. db_fields.
  destruct Hv as [Hv|[Hv ->]]; rewrite Hv; reflexivity.
Qed.

Lemma unusable_variables_are_retried_without_a_call_witness :
  let w' := snd (process_job (Scenario.env_with "" "" Scenario.noon Scenario.accepted_with_id)
                   Scenario.job Scenario.broken_vars_world) in
  w_log w' = []
  /\ map t_status (rows (campaign_targets (w_db w'))) = [TFailed]
  /\ map q_attempts (rows (queue (w_db w'))) = [1].
Proof.
  cbv zeta.
  rewrite (unusable_variables_are_retried_without_a_call
             (Scenario.env_with "" "" Scenario.noon Scenario.accepted_with_id)
             Scenario.job Scenario.broken_vars_world (Scenario.campaign_in CRunning)
             (mkTarget 1 1 "51918131082" (VarsInvalid "Unexpected end of JSON input")
                       TQueued None None 0 0)
             "Unexpected end of JSON input"
             eq_refl eq_refl eq_refl eq_refl (or_introl eq_refl)).
  repeat split.
Defined.

Lemma NoDup_map_inj {A B} (f : A -> B) (l : list A) a b :
  NoDup (map f l) -> In a l -> In b l -> f a = f b -> a = b.
Proof.
  induction l as [|x l IH]; simpl; intros Hnd Ha Hb E; [contradiction|].
  inversion Hnd as [|? ? Hx Hl]; subst.
  destruct Ha as [->|Ha], Hb as [->|Hb]; auto.
  - exfalso. apply Hx. rewrite E. now apply in_map.
  - exfalso. apply Hx. rewrite <- E. now apply in_map.
Qed.

Lemma sweep_campaign_rows c w :
  let w1 := snd (sweep_campaign c w) in
  campaign_targets (w_db w1) = campaign_targets (w_db w)
  /\ rows (campaigns (w_db w1))
     = map (fun r => if has_campaign_id (c_id c) r
                        && (unfinished_targets (w_db w) (c_id c) =? 0)%nat
                     then set_campaign_status CDone r else r)
           (rows (campaigns (w_db w))).
Proof.
  cbv zeta. unfold sweep_campaign. unfold_m. cbv beta iota.
  fold (unfinished_targets (w_db w) (c_id c)).
  destruct (unfinished_targets (w_db w) (c_id c) =? 0)%nat; cbn [snd w_db]; db_fields.
  - split; [reflexivity|]. rewrite rows_update_where. apply map_ext.
    intros r. now rewrite andb_true_r.
  - split; [reflexivity|]. rewrite <- (map_id (rows (campaigns (w_db w)))) at 1.
    apply map_ext. intros r. now rewrite andb_false_r.
Qed.

(** The sweep over a list of campaigns, as one rewriting of the table. *)
Lemma sweep_loop_rows_counted (cnt : Z -> nat) cs :
  forall w,
    (forall cid, unfinished_targets (w_db w) cid = cnt cid) ->
    let w' := snd (for_each sweep_campaign cs w) in
    rows (campaigns (w_db w'))
    = map (fun r => if existsb (fun c => has_campaign_id (c_id c) r
                                         && (cnt (c_id c) =? 0)%nat) cs
                    then set_campaign_status CDone r else r)
          (rows (campaigns (w_db w))).
Proof.
  induction cs as [|c cs IH]; intros w Hcnt; cbv zeta.
  - cbn. now rewrite map_id.
  - cbn [for_each]. unfold bind.
    pose proof (WorkerFacts.sweep_campaign_returns c w) as R.
    pose proof (sweep_campaign_rows c w) as P. cbv zeta in P.
    destruct (sweep_campaign c w) as [[u|e] w1]; cbn [fst snd] in *; [|discriminate].
    destruct P as (Pt & Pr).
    rewrite IH.
    2:{ intros cid. rewrite <- Hcnt. unfold unfinished_targets. now rewrite Pt. }
    rewrite Pr, map_map. apply map_ext. intros r. cbn [existsb].
    rewrite Hcnt.
    destruct (has_campaign_id (c_id c) r && (cnt (c_id c) =? 0)%nat);
      cbn [orb]; [|reflexivity].
    cbn [has_campaign_id c_id set_campaign_status].
    unfold has_campaign_id.
    now destruct (existsb _ cs).
Qed.

Lemma sweep_loop_rows cs w :
  rows (campaigns (w_db (snd (for_each sweep_campaign cs w))))
  = map (fun r => if existsb (fun c => has_campaign_id (c_id c) r
                                       && (unfinished_targets (w_db w) (c_id c) =? 0)%nat) cs
                  then set_campaign_status CDone r else r)
        (rows (campaigns (w_db w))).
Proof. now apply (sweep_loop_rows_counted (unfinished_targets (w_db w))). Qed.

(** The sweep at the end of a tick does nothing while some queue entry is
    not ['done']; otherwise it switches to ['done'] exactly the ['running']
    campaigns that have no target left ['queued'], ['sending'] or
    ['failed'], so that a campaign with a failed target stays ['running'].
    Stated for campaigns with pairwise distinct ids (the primary key). *)
Theorem sweep_closes_exactly_the_finished_running_campaigns :
  forall w : World,
    NoDup (map c_id (rows (campaigns (w_db w)))) ->
    let w' := snd (sweep w) in
    (pending_entries (w_db w) <> 0%nat -> w' = w)
    /\ (pending_entries (w_db w) = 0%nat ->
        rows (campaigns (w_db w'))
        = map (fun c => if is_running c
                           && (unfinished_targets (w_db w) (c_id c) =? 0)%nat
                        then set_campaign_status CDone c else c)
              (rows (campaigns (w_db w))))
    /\ (forall c, In c (rows (campaigns (w_db w))) ->
         unfinished_targets (w_db w) (c_id c) <> 0%nat ->
         In c (rows (campaigns (w_db w')))).
Proof.
  intros w Hnd w'.
  assert (Hrun : pending_entries (w_db w) = 0%nat ->
            rows (campaigns (w_db w'))
            = map (fun c => if is_running c
                               && (unfinished_targets (w_db w) (c_id c) =? 0)%nat
                            then set_campaign_status CDone c else c)
                  (rows (campaigns (w_db w)))).
  { intros Hp. unfold w', sweep. unfold_m. cbv beta iota. db_fields.
    fold (pending_entries (w_db w)). rewrite Hp. cbn [Nat.eqb].
    rewrite (sweep_loop_rows (filter is_running (rows (campaigns (w_db w)))) w).
    apply map_ext_in. intros r Hr.
    match goal with |- (if ?a then _ else _) = (if ?b then _ else _) =>
      assert (a = b) as ->; [|reflexivity] end.
    apply eq_true_iff_eq. rewrite existsb_exists, andb_true_iff. split.
    - intros (c & Hc & Hcond). apply filter_In in Hc as [Hc Hrunning].
      apply andb_true_iff in Hcond as [Hid Hz]. unfold has_campaign_id in Hid.
      apply Z.eqb_eq in Hid.
      assert (r = c) as -> by (apply (NoDup_map_inj c_id _ _ _ Hnd Hr Hc Hid)).
      auto.
    - intros [Hrunning Hz]. exists r. split; [apply filter_In; auto|].
      unfold has_campaign_id. now rewrite Z.eqb_refl, Hz. }
  split; [|split; [exact Hrun|]].
  - intros Hp. unfold w', sweep. unfold_m. cbv beta iota. db_fields.
    fold (pending_entries (w_db w)).
    destruct (pending_entries (w_db w)); [contradiction|]. reflexivity.
  - intros c Hc Hleft.
    destruct (Nat.eq_dec (pending_entries (w_db w)) 0) as [Hp|Hp].
    + rewrite (Hrun Hp). apply in_map_iff. exists c. split; [|exact Hc].
      apply Nat.eqb_neq in Hleft. now rewrite Hleft, andb_false_r.
    + unfold w', sweep. unfold_m. cbv beta iota. db_fields.
      fold (pending_entries (w_db w)).
      destruct (pending_entries (w_db w)); [contradiction|]. exact Hc.
Qed.

(** A running campaign whose only target has been sent, with its queue
    entry done, is closed by the sweep. *)
Lemma sweep_closes_exactly_the_finished_running_campaigns_witness :
  let w := mkWorld
             (mkDb (mkTable [Scenario.campaign_in CRunning] 1)
                   (mkTable [mkTarget 1 1 "51918131082" (VarsValid (JS.JObj []))
                               TSent None (Some "wamid.A1") 0 0] 1)
                   empty_table empty_table empty_table
                   (mkTable [Queue.set_status QDone Scenario.claimed_entry] 1)) 0 [] in
  map c_status (rows (campaigns (w_db (snd (sweep w))))) = [CDone].
Proof.
  intros w.
  destruct (sweep_closes_exactly_the_finished_running_campaigns w) as (_ & H & _).
  - repeat constructor. intros [].
  - rewrite (H eq_refl). reflexivity.
Defined.





End WorkerMore.

(** ** Starting, pausing, resuming and cancelling a campaign *)

Module ApiMore.
Import Api Frame.

Lemma for_each_cons_ret {A : Type} (f : A -> M unit) (x : A) (xs : list A)
    (w w1 : World) :
  f x w = (Ret tt, w1) -> for_each f (x :: xs) w = for_each f xs w1.
Proof. intros H. cbn [for_each]. unfold bind. now rewrite H. Qed.

Lemma enqueueTarget_run env cid tid phone w :
  enqueueTarget env cid tid phone w
  = (Ret tt,
     mkWorld (with_queue (Queue.enqueueTarget (epoch_ms (clock env (w_reads w)))
                            cid tid phone) (w_db w))
             (S (w_reads w)) (w_log w)).
Proof. reflexivity. Qed.

(** The enqueue loop of [startCampaign]. *)
Lemma enqueue_loop env cid phone targets :
  forall w,
    let res := for_each (fun t => enqueueTarget env cid (t_id t) phone) targets w in
    fst res = Ret tt
    /\ campaigns (w_db (snd res)) = campaigns (w_db w)
    /\ campaign_targets (w_db (snd res)) = campaign_targets (w_db w)
    /\ messages (w_db (snd res)) = messages (w_db w)
    /\ events (w_db (snd res)) = events (w_db w)
    /\ senders (w_db (snd res)) = senders (w_db w)
    /\ w_log (snd res) = w_log w
    /\ exists new,
         rows (queue (w_db (snd res))) = (rows (queue (w_db w)) ++ new)%list
         /\ Forall2 (enqueued_for cid phone) targets new
         /\ StronglySorted Queue.lt_id new
         /\ (forall r n, In r (rows (queue (w_db w))) -> In n new -> q_id r < q_id n).
Proof.
  induction targets as [|t ts IH]; intros w; cbv zeta.
  - cbn. repeat split; auto. exists []. rewrite app_nil_r.
    repeat split; auto; try constructor. intros r n _ [].
  - rewrite (for_each_cons_ret _ t ts w _ (enqueueTarget_run env cid (t_id t) phone w)).
    set (now := epoch_ms (clock env (w_reads w))).
    set (w1 := mkWorld _ _ _).
    destruct (IH w1) as (Hret & Hc & Ht & Hm & He & Hs & Hl & new & Hrows & Hall & Hsort & Hgt).
    set (res := for_each _ ts w1) in *.
    unfold w1 in Hc, Ht, Hm, He, Hs, Hl, Hrows, Hgt. db_fields.
    split; [exact Hret|]. repeat (split; [assumption|]).
    set (row := mkQueueRow (next_rowid q_id (queue (w_db w))) cid (t_id t) phone now 0 QQueued).
    assert (Hq : rows (Queue.enqueueTarget now cid (t_id t) phone (queue (w_db w)))
                 = (rows (queue (w_db w)) ++ [row])%list) by reflexivity.
    rewrite Hq in Hrows.
    assert (Hgt' : forall r n, In r (rows (queue (w_db w)) ++ [row])%list -> In n new ->
                               q_id r < q_id n).
    { intros r n Hr Hn. apply (Hgt r n); [now rewrite Hq|exact Hn]. }
    exists (row :: new). split; [|split; [|split]].
    + rewrite Hrows. now rewrite <- app_assoc.
    + constructor; [repeat split|exact Hall].
    + constructor; [exact Hsort|]. rewrite Forall_forall. intros n Hn.
      apply (Hgt' row n); [|exact Hn]. apply in_or_app. right. now left.
    + intros r n Hr [<-|Hn].
      * cbn [q_id row]. now apply (next_rowid_fresh q_id).
      * apply (Hgt' r n); [|exact Hn]. apply in_or_app. now left.
Qed.

Lemma insert_by_phone_perm t l : Permutation (insert_by_phone t l) (t :: l).
Proof.
  induction l as [|x l IH]; cbn [insert_by_phone]; [reflexivity|].
  destruct (String.leb (t_phone t) (t_phone x)); [reflexivity|].
  rewrite IH. apply perm_swap.
Qed.

Lemma by_phone_perm l : Permutation (by_phone l) l.
Proof.
  induction l as [|x l IH]; [reflexivity|]. cbn [by_phone fold_right].
  fold (by_phone l). rewrite insert_by_phone_perm. now constructor.
Qed.

Lemma by_phone_length l : List.length (by_phone l) = List.length l.
Proof. apply Permutation_length, by_phone_perm. Qed.

Lemma by_phone_In l t : In t (by_phone l) <-> In t l.
Proof.
  split; apply Permutation_in; [|symmetry]; apply by_phone_perm.
Qed.

Lemma insert_by_phone_sorted t l :
  Sorted phone_le l -> Sorted phone_le (insert_by_phone t l).
Proof.
  induction 1 as [|x l Hs IH Hhd]; cbn [insert_by_phone]; [repeat constructor|].
  destruct (String.leb (t_phone t) (t_phone x)) eqn:E.
  - constructor; [now constructor|]. constructor. exact E.
  - constructor; [exact IH|].
    assert (Hxt : phone_le x t).
    { unfold phone_le. destruct (String.leb_total (t_phone t) (t_phone x)) as [H|H];
        [congruence|exact H]. }
    destruct l as [|y l]; cbn [insert_by_phone]; [now constructor|].
    destruct (String.leb (t_phone t) (t_phone y)); constructor; [exact Hxt|].
    now inversion Hhd.
Qed.

Lemma by_phone_sorted l : Sorted phone_le (by_phone l).
Proof.
  induction l as [|x l IH]; [constructor|]. cbn [by_phone fold_right].
  now apply insert_by_phone_sorted.
Qed.

(** The count [startCampaign] returns. *)
Lemma startCampaign_returns env cid w camp :
  select_first (Worker.has_campaign_id cid) (campaigns (w_db w)) = Some camp ->
  (exists phone w1,
     Server.ensureSender env (Some (c_sender_phone_id camp)) None w = (Ret phone, w1)) ->
  fst (startCampaign env cid w)
  = Ret (Z.of_nat (List.length (filter (startable cid)
                                  (rows (campaign_targets (w_db w)))))).
Proof.
  intros Hcamp (phone & w1 & Hens).
  pose proof (ServerFacts.ensureSender_frame env (Some (c_sender_phone_id camp)) None w)
    as F. cbv zeta in F. rewrite Hens in F. cbn [snd] in F.
  destruct F as (_ & Ft & _).
  unfold startCampaign, bind, read_db, run_db, ret. rewrite Hcamp, Hens.
  cbv beta iota. db_fields. rewrite Ft.
  match goal with |- context [for_each ?f ?l ?w0] =>
    pose proof (enqueue_loop env cid phone l w0) as L end.
  cbv zeta in L. destruct L as (Hret & _).
  match goal with |- context [for_each ?f ?l ?w0] =>
    destruct (for_each f l w0) as [[u|e] w3] end;
    cbn [fst] in *; [now rewrite by_phone_length|discriminate].
Qed.

(** [startCampaign] on a campaign that exists and whose sender resolves:
    one queue entry is appended for each target of the campaign that is
    ['queued'] or ['failed'], with fresh ascending rowids above every
    earlier entry, [attempts = 0] and status ['queued'].  The entries follow
    the order in which the targets are selected, which is ascending order
    of phone (the select has no [ORDER BY] and is answered from the index
    of [UNIQUE(campaign_id, phone)]), not the order of insertion.  The
    count returned is their number; the campaign becomes ['running'] with
    the resolved sender; no target row changes and nothing is sent.  The
    queue is not consulted: a target that already has an entry gets
    another one.  On a campaign that does not exist the call throws and
    changes nothing. *)
Theorem startCampaign_enqueues_each_unfinished_target :
  forall (env : Env) (cid : Z) (w : World),
    (select_first (Worker.has_campaign_id cid) (campaigns (w_db w)) = None ->
       exists e, startCampaign env cid w = (Throw e, w))
    /\ (forall camp phone w1,
          select_first (Worker.has_campaign_id cid) (campaigns (w_db w)) = Some camp ->
          Server.ensureSender env (Some (c_sender_phone_id camp)) None w = (Ret phone, w1) ->
          let startable_rows := filter (startable cid) (rows (campaign_targets (w_db w))) in
          let w' := snd (startCampaign env cid w) in
          fst (startCampaign env cid w) = Ret (Z.of_nat (List.length startable_rows))
          /\ (exists todo new,
                Permutation todo startable_rows
                /\ Sorted phone_le todo
                /\ rows (queue (w_db w')) = (rows (queue (w_db w)) ++ new)%list
                /\ Forall2 (enqueued_for cid phone) todo new
                /\ StronglySorted Queue.lt_id new
                /\ (forall r n, In r (rows (queue (w_db w))) -> In n new ->
                     q_id r < q_id n))
          /\ rows (campaigns (w_db w'))
             = map (fun c => if Worker.has_campaign_id cid c
                             then set_running phone c else c)
                   (rows (campaigns (w_db w)))
          /\ campaign_targets (w_db w') = campaign_targets (w_db w)
          /\ w_log w' = w_log w).
Proof.
  intros env cid w. split.
  - intros Hnone. eexists. unfold startCampaign, bind, read_db. rewrite Hnone.
    reflexivity.
  - intros camp phone w1 Hcamp Hens startable_rows w'.
    pose proof (ServerFacts.ensureSender_frame env (Some (c_sender_phone_id camp)) None w)
      as F. cbv zeta in F. rewrite Hens in F. cbn [snd] in F.
    destruct F as (Fc & Ft & Fm & Fe & Fq & Fl).
    set (todo := by_phone startable_rows).
    set (w2 := mkWorld (with_campaigns
                          (update_where (Worker.has_campaign_id cid) (set_running phone))
                          (w_db w1)) (w_reads w1) (w_log w1)).
    pose proof (enqueue_loop env cid phone todo w2) as L. cbv zeta in L.
    assert (E : startCampaign env cid w
                = (match for_each (fun t => enqueueTarget env cid (t_id t) phone) todo w2 with
                   | (Ret _, w3) => (Ret (Z.of_nat (List.length todo)), w3)
                   | (Throw e, w3) => (Throw e, w3)
                   end)).
    { unfold startCampaign, bind, read_db, run_db, ret. rewrite Hcamp, Hens.
      cbv beta iota. db_fields. rewrite Ft. fold startable_rows. fold todo. fold w2.
      reflexivity. }
    unfold w'. rewrite E.
    destruct (for_each _ todo w2) as [[u|e] w3]; cbn [fst snd] in *;
      destruct L as (Hret & Hc & Ht & Hm & He & Hs & Hl & new & Hrows & Hall & Hsort & Hgt);
      [|discriminate].
    unfold w2 in *. db_fields.
    split; [unfold todo; now rewrite by_phone_length|]. split; [|split; [|split]].
    + exists todo, new. split; [apply by_phone_perm|]. split; [apply by_phone_sorted|].
      rewrite Hrows, Fq. repeat split; auto.
      intros r n Hr Hn. apply (Hgt r n); [now rewrite Fq|exact Hn].
    + rewrite Hc, rows_update_where, Fc. reflexivity.
    + congruence.
    + congruence.
Qed.

(** Three targets inserted with phones in the order 3, 1, 2: their entries
    are enqueued in the order of the phones, targets 2, 3, 1. *)
Example startCampaign_enqueues_in_phone_order :
  let env := Scenario.env_with "" "" Scenario.noon Scenario.accepted_with_id in
  let target id phone := mkTarget id 1 phone (VarsValid (JS.JObj [])) TQueued
                           None None 0 0 in
  let w := mkWorld (mkDb (mkTable [Scenario.campaign_in CDraft] 1)
                         (mkTable [target 1 "51900000003"; target 2 "51900000001";
                                   target 3 "51900000002"] 3)
                         empty_table empty_table empty_table empty_table) 0 [] in
  map q_target_id (rows (queue (w_db (snd (startCampaign env 1 w))))) = [2; 3; 1].
Proof. reflexivity. Qed.

(** A job of a gated campaign, as one equation. *)
Lemma process_job_gated_run env job w camp :
  select_first (Worker.has_campaign_id (job_campaign_id job)) (campaigns (w_db w))
    = Some camp ->
  Worker.gated (c_status camp) = true ->
  Worker.process_job env job w
  = (Ret tt, mkWorld (with_queue (Queue.markDone (job_id job)) (w_db w))
                     (w_reads w) (w_log w)).
Proof.
  intros Hcamp Hg. unfold Worker.process_job. unfold_m. cbv beta iota. db_fields.
  rewrite Hcamp, Hg. reflexivity.
Qed.

Lemma find_map_preserved {A : Type} (p : A -> bool) (g : A -> A) (l : list A) :
  (forall x, p (g x) = p x) ->
  find p (map g l) = option_map g (find p l).
Proof.
  intros Hp. induction l as [|x l IH]; [reflexivity|].
  cbn [map find]. rewrite Hp. destruct (p x); [reflexivity|exact IH].
Qed.

Lemma select_first_update_where {A : Type} (p q : A -> bool) (f : A -> A)
    (tbl : Table A) :
  (forall x, p (f x) = p x) ->
  select_first p (update_where q f tbl)
  = option_map (fun r => if q r then f r else r) (select_first p tbl).
Proof.
  intros Hp. unfold select_first. rewrite rows_update_where.
  apply find_map_preserved. intros x. destruct (q x); [apply Hp|reflexivity].
Qed.

Lemma select_first_update_where_id {A : Type} (p q : A -> bool) (f : A -> A)
    (tbl : Table A) :
  (forall x, p (f x) = p x) ->
  select_first p (update_where q f tbl)
  = match select_first p tbl with
    | Some r => Some (if q r then f r else r)
    | None => None
    end.
Proof. intros Hp. now rewrite select_first_update_where. Qed.

Lemma find_app_none {A : Type} (p : A -> bool) (l l' : list A) :
  find p l = None -> find p (l ++ l') = find p l'.
Proof.
  induction l as [|x l IH]; [reflexivity|]. cbn [find app].
  destruct (p x); [discriminate|exact IH].
Qed.

Lemma select_campaign_after_status st id cid tbl :
  select_first (Worker.has_campaign_id cid)
    (update_where (Worker.has_campaign_id id) (Worker.set_campaign_status st) tbl)
  = option_map (fun c => if Worker.has_campaign_id id c
                         then Worker.set_campaign_status st c else c)
      (select_first (Worker.has_campaign_id cid) tbl).
Proof. apply select_first_update_where. reflexivity. Qed.

(** Cancelling a campaign that exists: the campaign becomes ['canceled'];
    of its targets exactly those ['queued'] or ['sending'] become
    ['canceled'], no other column and no other row changes, so afterwards
    no target of the campaign is ['queued'] or ['sending']; the queue is
    not touched, its entries stay.  The worker then disposes of each of
    them without a call: a job of the campaign processed after the
    cancellation is marked ['done'] and nothing else changes. *)
Theorem cancel_leaves_the_queue_to_the_worker :
  forall (env : Env) (id : Z) (w : World) (camp : Campaign) (job : Job),
    select_first (Worker.has_campaign_id id) (campaigns (w_db w)) = Some camp ->
    job_campaign_id job = id ->
    let w1 := snd (cancel id w) in
    fst (cancel id w) = Ret tt
    /\ queue (w_db w1) = queue (w_db w)
    /\ w_log w1 = w_log w
    /\ rows (campaign_targets (w_db w1))
       = map (fun t => if cancellable id t then set_canceled t else t)
             (rows (campaign_targets (w_db w)))
    /\ (forall t, In t (rows (campaign_targets (w_db w1))) -> t_campaign_id t = id ->
          t_status t <> TQueued /\ t_status t <> TSending)
    /\ select_first (Worker.has_campaign_id id) (campaigns (w_db w1))
       = Some (Worker.set_campaign_status CCanceled camp)
    /\ Worker.process_job env job w1
       = (Ret tt, mkWorld (with_queue (Queue.markDone (job_id job)) (w_db w1))
                          (w_reads w1) (w_log w1)).
Proof.
  intros env id w camp job Hcamp Hjob w1.
  assert (E : cancel id w
              = (Ret tt,
                 mkWorld (with_targets (update_where (cancellable id) set_canceled)
                            (with_campaigns
                               (update_where (Worker.has_campaign_id id)
                                  (Worker.set_campaign_status CCanceled)) (w_db w)))
                         (w_reads w) (w_log w))) by reflexivity.
  assert (Hsel : select_first (Worker.has_campaign_id id) (campaigns (w_db w1))
                 = Some (Worker.set_campaign_status CCanceled camp)).
  { unfold w1. rewrite E. db_fields. rewrite select_campaign_after_status, Hcamp.
    cbn [option_map]. apply select_first_In in Hcamp as [_ Hp]. now rewrite Hp. }
  split; [now rewrite E|]. split; [unfold w1; now rewrite E|].
  split; [unfold w1; now rewrite E|]. split; [|split; [|split]].
  - unfold w1. rewrite E. db_fields. apply rows_update_where.
  - intros t Hin Hid. unfold w1 in Hin. rewrite E in Hin. db_fields.
    rewrite rows_update_where in Hin. apply in_map_iff in Hin as (t0 & <- & _).
    unfold cancellable in *. destruct (t_campaign_id t0 =? id) eqn:Hc.
    + destruct (t_status t0) eqn:Hs; cbn [andb] in *; cbn [set_canceled t_status];
        try rewrite Hs; split; discriminate.
    + cbn [andb] in Hid. apply Z.eqb_neq in Hc. contradiction.
  - exact Hsel.
  - apply (process_job_gated_run env job w1 (Worker.set_campaign_status CCanceled camp)).
    + now rewrite Hjob.
    + reflexivity.
Qed.

Lemma cancel_leaves_the_queue_to_the_worker_witness :
  let w := Scenario.world CRunning "51918131082" Scenario.one_variable
             Scenario.queued_entry in
  let w1 := snd (cancel 1 w) in
  map t_status (rows (campaign_targets (w_db w1))) = [TCanceled]
  /\ rows (queue (w_db w1)) = [Scenario.queued_entry]
  /\ rows (queue (w_db (snd (Worker.process_job
                               (Scenario.env_with "00:00-23:59" "51" Scenario.noon
                                  Scenario.accepted_with_id) Scenario.job w1))))
     = [Queue.set_status QDone Scenario.queued_entry].
Proof.
  cbv zeta.
  pose proof (cancel_leaves_the_queue_to_the_worker
                (Scenario.env_with "00:00-23:59" "51" Scenario.noon
                   Scenario.accepted_with_id) 1
                (Scenario.world CRunning "51918131082" Scenario.one_variable
                   Scenario.queued_entry)
                (Scenario.campaign_in CRunning) Scenario.job eq_refl eq_refl) as H.
  cbv zeta in H. destruct H as (_ & Hq & _ & Ht & _ & _ & Hp).
  split; [rewrite Ht; reflexivity|]. split; [rewrite Hq; reflexivity|].
  rewrite Hp. cbn [snd w_db]. db_fields. rewrite Hq. reflexivity.
Defined.

(** Pausing is not a hold: a job of a paused campaign that the worker
    processes is marked ['done'], and resuming does not bring it back.
    After pause, one processed job, and resume, the campaign is
    ['running'] again, every target row is as it was before the pause,
    nothing was sent, the queue differs by [markDone] of that job only, and
    no later [fetchBatch] returns an entry with the job's id. *)
Theorem pause_and_resume_lose_the_processed_entry :
  forall (env : Env) (id : Z) (w : World) (camp : Campaign) (job : Job),
    select_first (Worker.has_campaign_id id) (campaigns (w_db w)) = Some camp ->
    job_campaign_id job = id ->
    let w1 := snd (pause id w) in
    let w2 := snd (Worker.process_job env job w1) in
    let w3 := snd (resume id w2) in
    fst (Worker.process_job env job w1) = Ret tt
    /\ select_first (Worker.has_campaign_id id) (campaigns (w_db w3))
       = Some (Worker.set_campaign_status CRunning camp)
    /\ campaign_targets (w_db w3) = campaign_targets (w_db w)
    /\ w_log w3 = w_log w
    /\ queue (w_db w3) = Queue.markDone (job_id job) (queue (w_db w))
    /\ (forall now limit j,
          In j (fst (Queue.fetchBatch now limit (queue (w_db w3)))) ->
          job_id j <> job_id job).
Proof.
  intros env id w camp job Hcamp Hjob w1 w2 w3.
  assert (E1 : w1 = mkWorld (with_campaigns
                               (update_where (Worker.has_campaign_id id)
                                  (Worker.set_campaign_status CPaused)) (w_db w))
                            (w_reads w) (w_log w)) by reflexivity.
  assert (Hsel : select_first (Worker.has_campaign_id (job_campaign_id job))
                   (campaigns (w_db w1))
                 = Some (Worker.set_campaign_status CPaused camp)).
  { rewrite Hjob, E1. db_fields. rewrite select_campaign_after_status, Hcamp.
    cbn [option_map]. apply select_first_In in Hcamp as [_ Hp]. now rewrite Hp. }
  pose proof (process_job_gated_run env job w1 _ Hsel eq_refl) as E2.
  assert (E3 : w3 = mkWorld (with_campaigns
                               (update_where (Worker.has_campaign_id id)
                                  (Worker.set_campaign_status CRunning)) (w_db w2))
                            (w_reads w2) (w_log w2)) by reflexivity.
  assert (Hw2 : w2 = mkWorld (with_queue (Queue.markDone (job_id job)) (w_db w1))
                             (w_reads w1) (w_log w1)).
  { unfold w2. now rewrite E2. }
  assert (Hq : queue (w_db w3) = Queue.markDone (job_id job) (queue (w_db w))).
  { rewrite E3, Hw2, E1. reflexivity. }
  split; [now rewrite E2|]. split; [|split; [|split; [|split]]].
  - rewrite E3, Hw2. db_fields. rewrite select_campaign_after_status.
    rewrite Hjob in Hsel. rewrite Hsel. cbn [option_map].
    apply select_first_In in Hcamp as [_ Hp].
    unfold Worker.has_campaign_id in *. cbn [Worker.set_campaign_status c_id].
    rewrite Hp. reflexivity.
  - rewrite E3, Hw2, E1. reflexivity.
  - rewrite E3, Hw2, E1. reflexivity.
  - exact Hq.
  - intros now limit j Hj Hid.
    apply QueueFacts.fetchBatch_skips_non_queued in Hj as (r & Hr & Hrid & Hst).
    rewrite Hq in Hr. unfold Queue.markDone in Hr. rewrite rows_update_where in Hr.
    apply in_map_iff in Hr as (r0 & <- & _).
    unfold Queue.has_id in *. destruct (q_id r0 =? job_id job) eqn:Heq.
    + cbn in Hst. discriminate.
    + apply Z.eqb_neq in Heq. congruence.
Qed.

Lemma pause_and_resume_lose_the_processed_entry_witness :
  let env := Scenario.env_with "00:00-23:59" "51" Scenario.noon
               Scenario.accepted_with_id in
  let w := Scenario.world CRunning "51918131082" Scenario.one_variable
             Scenario.claimed_entry in
  let w3 := snd (resume 1 (snd (Worker.process_job env Scenario.job (snd (pause 1 w))))) in
  map c_status (rows (campaigns (w_db w3))) = [CRunning]
  /\ map t_status (rows (campaign_targets (w_db w3))) = [TQueued]
  /\ map q_status (rows (queue (w_db w3))) = [QDone]
  /\ w_log w3 = [].
Proof.
  cbv zeta.
  pose proof (pause_and_resume_lose_the_processed_entry
                (Scenario.env_with "00:00-23:59" "51" Scenario.noon
                   Scenario.accepted_with_id) 1
                (Scenario.world CRunning "51918131082" Scenario.one_variable
                   Scenario.claimed_entry)
                (Scenario.campaign_in CRunning) Scenario.job eq_refl eq_refl) as H.
  cbv zeta in H. destruct H as (_ & _ & Ht & Hl & Hq & _).
  rewrite Ht, Hl, Hq. repeat split; reflexivity.
Defined.

End ApiMore.

(** ** Senders and campaign creation *)

Module ServerMore.
Import Server Frame.

Lemma option_string_eqb_refl o : option_string_eqb o o = true.
Proof. destruct o; [apply String.eqb_refl|reflexivity]. Qed.

Lemma option_Z_eqb_refl o : option_Z_eqb o o = true.
Proof. destruct o; [apply Z.eqb_refl|reflexivity]. Qed.

Lemma desired_qps_stable env ex ex' :
  truthy_number (desired_qps env (Some ex)) = true ->
  s_qps ex' = desired_qps env (Some ex) ->
  desired_qps env (Some ex') = desired_qps env (Some ex).
Proof.
  unfold desired_qps. destruct (truthy_string (SENDER_QPS env)); [reflexivity|].
  intros Ht ->. destruct (s_qps ex) as [q|]; [|reflexivity].
  destruct (q =? 0) eqn:E; [reflexivity|]. now rewrite E.
Qed.

Lemma desired_qps_same env ex ex' :
  s_qps ex' = s_qps ex -> desired_qps env (Some ex') = desired_qps env (Some ex).
Proof. unfold desired_qps. now intros ->. Qed.

(** The display name [ensureSender] wants, from the argument and the row. *)
Lemma desired_display_stable disp resolved (shown : option string) :
  let dd := match or_else (parseSenderDisplay disp) (truthy_string shown) with
            | Some d => d | None => ("+" ++ resolved)%string end in
  JS.nonempty dd = true ->
  match or_else (parseSenderDisplay disp) (truthy_string (Some dd)) with
  | Some d => d | None => ("+" ++ resolved)%string end = dd.
Proof.
  cbv zeta. destruct (parseSenderDisplay disp) as [d|]; [reflexivity|].
  cbn [or_else]. intros Hne. unfold truthy_string at 1. now rewrite Hne.
Qed.

(** A call that finds the row it wants already there changes nothing. *)
Lemma ensureSender_noop env pid disp w resolved ex :
  or_else (parseSenderId pid) (parseSenderId (WA_PHONE_NUMBER_ID env)) = Some resolved ->
  select_first (has_phone_id resolved) (senders (w_db w)) = Some ex ->
  (let dd := match or_else (parseSenderDisplay disp) (truthy_string (s_display ex)) with
             | Some d => d | None => ("+" ++ resolved)%string end in
   JS.nonempty dd && negb (option_string_eqb (Some dd) (s_display ex)) = false) ->
  truthy_number (desired_qps env (Some ex))
    && negb (option_Z_eqb (desired_qps env (Some ex)) (s_qps ex)) = false ->
  ensureSender env pid disp w = (Ret resolved, w).
Proof.
  cbv zeta. intros Hres Hex C1 C2. unfold ensureSender. rewrite Hres.
  unfold_m. cbv beta iota. db_fields. rewrite Hex. cbv beta iota.
  rewrite C1, C2. destruct w. reflexivity.
Qed.

Lemma select_sender_after p f resolved tbl ex :
  (forall s, s_phone_id (f s) = s_phone_id s) ->
  select_first (has_phone_id resolved) tbl = Some ex ->
  select_first (has_phone_id resolved) (update_where (has_phone_id p) f tbl)
  = Some (if has_phone_id p ex then f ex else ex).
Proof.
  intros Hf Hex. rewrite ApiMore.select_first_update_where_id.
  - now rewrite Hex.
  - intros s. unfold has_phone_id. now rewrite Hf.
Qed.

(** [ensureSender] is idempotent: a second call with the same arguments,
    right after one that returned, returns the same sender id and changes
    nothing, neither the senders table nor the clock readings. *)
Theorem ensureSender_is_idempotent :
  forall (env : Env) (phone_id display : option string) (w w1 : World) (r : string),
    ensureSender env phone_id display w = (Ret r, w1) ->
    ensureSender env phone_id display w1 = (Ret r, w1).
Proof.
  intros env pid disp w w1 r H.
  destruct (or_else (parseSenderId pid) (parseSenderId (WA_PHONE_NUMBER_ID env)))
    as [resolved|] eqn:Hres;
    [|unfold ensureSender in H; rewrite Hres in H; discriminate].
  unfold ensureSender in H. rewrite Hres in H. revert H.
  unfold_m. cbv beta iota. db_fields.
  destruct (select_first (has_phone_id resolved) (senders (w_db w))) as [ex|] eqn:Hex.
  - set (dd := match or_else (parseSenderDisplay disp) (truthy_string (s_display ex)) with
               | Some d => d | None => ("+" ++ resolved)%string end).
    assert (Hp : has_phone_id resolved ex = true)
      by (now apply select_first_In in Hex).
    destruct (JS.nonempty dd && negb (option_string_eqb (Some dd) (s_display ex))) eqn:C1;
    destruct (truthy_number (desired_qps env (Some ex))
              && negb (option_Z_eqb (desired_qps env (Some ex)) (s_qps ex))) eqn:C2;
    cbv beta iota; db_fields; intros H; inversion H; subst r w1; clear H.
    + apply (ensureSender_noop env pid disp _ resolved
               (set_qps (desired_qps env (Some ex)) (set_display dd ex)) Hres).
      * db_fields.
        rewrite (select_sender_after resolved (set_qps (desired_qps env (Some ex)))
                   resolved _ (set_display dd ex)); [|reflexivity|].
        -- replace (has_phone_id resolved (set_display dd ex))
             with (has_phone_id resolved ex) by reflexivity.
           now rewrite Hp.
        -- rewrite (select_sender_after resolved (set_display dd) resolved _ ex);
             [|reflexivity|exact Hex]. now rewrite Hp.
      * cbn [set_qps set_display s_display]. fold dd.
        apply andb_true_iff in C1 as [Hne _].
        pose proof (desired_display_stable disp resolved (s_display ex) Hne) as Hs.
        fold dd in Hs. rewrite Hs. cbn [option_string_eqb]. rewrite String.eqb_refl.
        apply andb_false_r.
      * apply andb_true_iff in C2 as [Ht _].
        rewrite (desired_qps_stable env ex _ Ht) by reflexivity.
        cbn [set_qps s_qps]. rewrite option_Z_eqb_refl. apply andb_false_r.
    + apply (ensureSender_noop env pid disp _ resolved (set_display dd ex) Hres).
      * db_fields.
        rewrite (select_sender_after resolved (set_display dd) resolved _ ex);
          [|reflexivity|exact Hex]. now rewrite Hp.
      * cbn [set_display s_display]. fold dd.
        apply andb_true_iff in C1 as [Hne _].
        pose proof (desired_display_stable disp resolved (s_display ex) Hne) as Hs.
        fold dd in Hs. rewrite Hs. cbn [option_string_eqb]. rewrite String.eqb_refl.
        apply andb_false_r.
      * rewrite (desired_qps_same env ex (set_display dd ex)) by reflexivity.
        exact C2.
    + apply (ensureSender_noop env pid disp _ resolved
               (set_qps (desired_qps env (Some ex)) ex) Hres).
      * db_fields.
        rewrite (select_sender_after resolved (set_qps (desired_qps env (Some ex)))
                   resolved _ ex); [|reflexivity|exact Hex]. now rewrite Hp.
      * cbn [set_qps s_display]. exact C1.
      * apply andb_true_iff in C2 as [Ht _].
        rewrite (desired_qps_stable env ex _ Ht) by reflexivity.
        cbn [set_qps s_qps]. rewrite option_Z_eqb_refl. apply andb_false_r.
    + apply (ensureSender_noop env pid disp _ resolved ex Hres Hex C1 C2).
  - cbv beta iota. db_fields. intros H. inversion H; subst r w1; clear H.
    set (dd := match or_else (parseSenderDisplay disp) None with
               | Some d => d | None => ("+" ++ resolved)%string end).
    set (now := epoch_ms (clock env (w_reads w))).
    set (row := mkSender (next_rowid s_id (senders (w_db w))) resolved (Some dd)
                         (desired_qps env None) now).
    apply (ensureSender_noop env pid disp _ resolved row Hres).
    + db_fields. unfold select_first, insert_row. cbn [rows].
      unfold select_first in Hex.
      rewrite ApiMore.find_app_none by exact Hex. cbn [find]. fold row.
      unfold has_phone_id. cbn [row s_phone_id]. now rewrite String.eqb_refl.
    + cbn [row s_display]. unfold dd.
      destruct (parseSenderDisplay disp) as [d|].
      * cbn [or_else option_string_eqb]. rewrite String.eqb_refl. apply andb_false_r.
      * cbn [or_else truthy_string JS.nonempty append]. cbn [option_string_eqb].
        rewrite String.eqb_refl. apply andb_false_r.
    + unfold row, desired_qps. cbn [s_qps].
      destruct (truthy_string (SENDER_QPS env)) as [s|].
      * rewrite option_Z_eqb_refl. apply andb_false_r.
      * reflexivity.
Qed.

Lemma ensureSender_is_idempotent_witness :
  let env := Scenario.env_with "00:00-23:59" "51" Scenario.noon
               Scenario.accepted_with_id in
  let w := Scenario.world CRunning "51918131082" Scenario.one_variable
             Scenario.queued_entry in
  let w1 := snd (ensureSender env None (Some " Ventas ") w) in
  map s_display (rows (senders (w_db w1))) = [Some "Ventas"]
  /\ ensureSender env None (Some " Ventas ") w1 = (Ret Scenario.sender_id, w1).
Proof.
  cbv zeta. split; [reflexivity|].
  apply (ensureSender_is_idempotent
           (Scenario.env_with "00:00-23:59" "51" Scenario.noon Scenario.accepted_with_id)
           None (Some " Ventas ")
           (Scenario.world CRunning "51918131082" Scenario.one_variable
              Scenario.queued_entry)).
  reflexivity.
Defined.

Lemma parseSenderDisplay_nonempty raw d :
  parseSenderDisplay raw = Some d -> JS.nonempty d = true.
Proof.
  unfold parseSenderDisplay. destruct raw as [r|]; [|discriminate].
  cbv zeta. destruct (JS.nonempty (JS.trim r)) eqn:E; [|discriminate].
  now intros [= <-].
Qed.

Lemma truthy_string_nonempty o d : truthy_string o = Some d -> JS.nonempty d = true.
Proof.
  unfold truthy_string. destruct o as [x|]; [|discriminate].
  destruct (JS.nonempty x) eqn:E; [|discriminate]. now intros [= <-].
Qed.

(** What [ensureSender] leaves in the senders table.  When no two rows
    share a phone id before the call, none do after it, whether it returns
    or throws; when it returns [r], the first row with phone id [r] exists
    and has a display name that is not empty; rows of other phone ids are as
    they were, in the same order. *)
Theorem ensureSender_registers_the_sender_once :
  forall (env : Env) (phone_id display : option string) (w : World),
    Integrity.unique_senders (w_db w) ->
    let res := ensureSender env phone_id display w in
    Integrity.unique_senders (w_db (snd res))
    /\ (forall r, fst res = Ret r ->
          (exists s d, select_first (has_phone_id r) (senders (w_db (snd res))) = Some s
                       /\ s_display s = Some d /\ JS.nonempty d = true)
          /\ filter (fun s => negb (has_phone_id r s)) (rows (senders (w_db (snd res))))
             = filter (fun s => negb (has_phone_id r s)) (rows (senders (w_db w)))).
Proof.
  intros env pid disp w Huniq. cbv zeta. unfold Integrity.unique_senders in *.
  unfold ensureSender.
  destruct (or_else (parseSenderId pid) _) as [resolved|];
    [|split; [exact Huniq|intros r; discriminate]].
  unfold_m. cbv beta iota. db_fields.
  assert (Hkeep : forall p f tbl,
            (forall s, s_phone_id (f s) = s_phone_id s) ->
            map s_phone_id (rows (update_where p f tbl)) = map s_phone_id (rows tbl)).
  { intros p f tbl Hf. rewrite rows_update_where, map_map. apply map_ext.
    intros s. destruct (p s); [apply Hf|reflexivity]. }
  assert (Hother : forall (f : Sender -> Sender) (tbl : Table Sender),
            (forall s, s_phone_id (f s) = s_phone_id s) ->
            filter (fun s => negb (has_phone_id resolved s))
              (rows (update_where (has_phone_id resolved) f tbl))
            = filter (fun s => negb (has_phone_id resolved s)) (rows tbl)).
  { intros f tbl Hf. rewrite rows_update_where.
    induction (rows tbl) as [|x l IH]; [reflexivity|]. cbn [map filter].
    destruct (has_phone_id resolved x) eqn:E.
    - replace (has_phone_id resolved (f x)) with true
        by (unfold has_phone_id in *; now rewrite Hf).
      cbn [negb]. exact IH.
    - rewrite E. cbn [negb]. now rewrite IH. }
  destruct (select_first (has_phone_id resolved) (senders (w_db w))) as [ex|] eqn:Hex.
  - set (dd := match or_else (parseSenderDisplay disp) (truthy_string (s_display ex)) with
               | Some d => d | None => ("+" ++ resolved)%string end).
    assert (Hp : has_phone_id resolved ex = true) by (now apply select_first_In in Hex).
    assert (Hdd : JS.nonempty dd = true).
    { unfold dd. destruct (parseSenderDisplay disp) as [d|] eqn:Hd.
      - cbn [or_else]. now apply parseSenderDisplay_nonempty in Hd.
      - cbn [or_else]. destruct (truthy_string (s_display ex)) as [d|] eqn:Ht;
          [now apply truthy_string_nonempty in Ht|reflexivity]. }
    rewrite Hdd. cbn [andb].
    destruct (negb (option_string_eqb (Some dd) (s_display ex))) eqn:C1;
    destruct (truthy_number (desired_qps env (Some ex))
              && negb (option_Z_eqb (desired_qps env (Some ex)) (s_qps ex))) eqn:C2;
    cbv beta iota; db_fields.
    + split; [rewrite !Hkeep by reflexivity; exact Huniq|].
      intros r [= <-]. split.
      * exists (set_qps (desired_qps env (Some ex)) (set_display dd ex)), dd.
        split; [|split; [reflexivity|exact Hdd]].
        rewrite (select_sender_after resolved (set_qps (desired_qps env (Some ex)))
                   resolved _ (set_display dd ex)); [|reflexivity|].
        -- replace (has_phone_id resolved (set_display dd ex))
             with (has_phone_id resolved ex) by reflexivity.
           now rewrite Hp.
        -- rewrite (select_sender_after resolved (set_display dd) resolved _ ex);
             [|reflexivity|exact Hex]. now rewrite Hp.
      * rewrite !Hother by reflexivity. reflexivity.
    + split; [rewrite !Hkeep by reflexivity; exact Huniq|].
      intros r [= <-]. split.
      * exists (set_display dd ex), dd. split; [|split; [reflexivity|exact Hdd]].
        rewrite (select_sender_after resolved (set_display dd) resolved _ ex);
          [|reflexivity|exact Hex]. now rewrite Hp.
      * rewrite !Hother by reflexivity. reflexivity.
    + assert (Hsame : s_display ex = Some dd).
      { apply negb_false_iff in C1. destruct (s_display ex) as [d|]; [|discriminate].
        cbn [option_string_eqb] in C1. apply String.eqb_eq in C1. congruence. }
      split; [rewrite !Hkeep by reflexivity; exact Huniq|].
      intros r [= <-]. split.
      * exists (set_qps (desired_qps env (Some ex)) ex), dd.
        split; [|split; [exact Hsame|exact Hdd]].
        rewrite (select_sender_after resolved (set_qps (desired_qps env (Some ex)))
                   resolved _ ex); [|reflexivity|exact Hex]. now rewrite Hp.
      * rewrite !Hother by reflexivity. reflexivity.
    + assert (Hsame : s_display ex = Some dd).
      { apply negb_false_iff in C1. destruct (s_display ex) as [d|]; [|discriminate].
        cbn [option_string_eqb] in C1. apply String.eqb_eq in C1. congruence. }
      split; [exact Huniq|]. intros r [= <-]. split; [|reflexivity].
      exists ex, dd. auto.
  - cbv beta iota. db_fields.
    set (dd := match or_else (parseSenderDisplay disp) None with
               | Some d => d | None => ("+" ++ resolved)%string end).
    assert (Hdd : JS.nonempty dd = true).
    { unfold dd. destruct (parseSenderDisplay disp) as [d|] eqn:Hd; [|reflexivity].
      cbn [or_else]. now apply parseSenderDisplay_nonempty in Hd. }
    assert (Hnone : forall s, In s (rows (senders (w_db w))) ->
                              has_phone_id resolved s = false).
    { intros s Hs. unfold select_first in Hex. now apply (find_none _ _ Hex). }
    unfold insert_row. cbn [rows]. split.
    + rewrite map_app. cbn [map s_phone_id].
      apply NoDup_app; [exact Huniq|repeat constructor; intros []|].
      intros a Ha [<-|[]]. apply in_map_iff in Ha as (s & Hs & Hin).
      apply Hnone in Hin. unfold has_phone_id in Hin. rewrite Hs in Hin.
      now rewrite String.eqb_refl in Hin.
    + intros r [= <-]. split.
      * eexists. exists dd. split.
        { unfold select_first. cbn [rows]. unfold select_first in Hex.
          rewrite ApiMore.find_app_none by exact Hex. cbn [find].
          unfold has_phone_id at 1. cbn [s_phone_id]. rewrite String.eqb_refl.
          reflexivity. }
        split; [reflexivity|exact Hdd].
      * rewrite filter_app. cbn [filter]. unfold has_phone_id at 2. cbn [s_phone_id].
        rewrite String.eqb_refl. cbn [negb]. apply app_nil_r.
Qed.

Lemma ensureSender_registers_the_sender_once_witness :
  let env := Scenario.env_with "00:00-23:59" "51" Scenario.noon
               Scenario.accepted_with_id in
  let w := Scenario.world CRunning "51918131082" Scenario.one_variable
             Scenario.queued_entry in
  Integrity.unique_senders (w_db (snd (ensureSender env None None w))).
Proof.
  cbv zeta.
  apply (ensureSender_registers_the_sender_once
           (Scenario.env_with "00:00-23:59" "51" Scenario.noon Scenario.accepted_with_id)
           None None
           (Scenario.world CRunning "51918131082" Scenario.one_variable
              Scenario.queued_entry)).
  constructor.
Defined.

(** A call of [createCampaignRecord] that returned went through both of
    its guards. *)
Lemma createCampaignRecord_returned env name tpl lang targets meta rs rd w r w' :
  createCampaignRecord env name tpl lang targets meta rs rd w = (Ret r, w') ->
  exists sender w1,
    ensureSender env rs rd w = (Ret sender, w1)
    /\ filter (valid_input env) targets <> [].
Proof.
  intros Hrun.
  destruct (ensureSender env rs rd w) as [[sender|e] w1] eqn:Hens.
  - exists sender, w1. split; [reflexivity|]. intros Hnone.
    destruct (ServerFacts.createCampaignRecord_rejects env name tpl lang targets meta
                rs rd w Hnone) as ((e & He) & _).
    rewrite Hrun in He. discriminate.
  - unfold createCampaignRecord, bind in Hrun. rewrite Hens in Hrun. discriminate.
Qed.

(** A call that threw left campaigns and targets as they were. *)
Lemma createCampaignRecord_threw env name tpl lang targets meta rs rd w e w' :
  createCampaignRecord env name tpl lang targets meta rs rd w = (Throw e, w') ->
  campaigns (w_db w') = campaigns (w_db w)
  /\ campaign_targets (w_db w') = campaign_targets (w_db w).
Proof.
  intros Hrun.
  destruct (ensureSender env rs rd w) as [[sender|e0] w1] eqn:Hens.
  - destruct (filter (valid_input env) targets) as [|t ts] eqn:Hf.
    + destruct (ServerFacts.createCampaignRecord_rejects env name tpl lang targets meta
                  rs rd w Hf) as (_ & Hc & Ht & _).
      rewrite Hrun in Hc, Ht. auto.
    + destruct (ServerFacts.createCampaignRecord_outcome env name tpl lang targets meta
                  rs rd w sender w1 Hens) as (r & w2 & Hret & _).
      { rewrite Hf. discriminate. }
      rewrite Hrun in Hret. discriminate.
  - pose proof (ServerFacts.ensureSender_frame env rs rd w) as F. cbv zeta in F.
    rewrite Hens in F. cbn [snd] in F. destruct F as (Fc & Ft & _).
    unfold createCampaignRecord, bind in Hrun. rewrite Hens in Hrun.
    injection Hrun as _ <-. auto.
Qed.

(** [createCampaignRecord] keeps [UNIQUE(campaign_id, phone)]: when no two
    target rows share campaign and phone before the call, none do after it,
    whether it returns or throws.  The check the code makes before each
    insert is what keeps the constraint from ever firing. *)
Theorem createCampaignRecord_keeps_phones_unique_per_campaign :
  forall (env : Env) (name tpl lang : string) (targets : list TargetInput)
         (meta : option JS.JVal) (rs rd : option string) (w : World),
    Integrity.unique_targets (w_db w) ->
    Integrity.unique_targets
      (w_db (snd (createCampaignRecord env name tpl lang targets meta rs rd w))).
Proof.
  intros env name tpl lang targets meta rs rd w Huniq.
  destruct (createCampaignRecord env name tpl lang targets meta rs rd w)
    as [[r|e] w'] eqn:Hrun; cbn [snd].
  - destruct (createCampaignRecord_returned _ _ _ _ _ _ _ _ _ _ _ Hrun)
      as (sender & w1 & Hens & Hne).
    destruct (ServerFacts.createCampaignRecord_outcome env name tpl lang targets meta
                rs rd w sender w1 Hens Hne)
      as (r0 & w0 & Hret & _ & _ & _ & _ & _ & _ & _
          & (added & now & Ht & Hphones & Hall) & _).
    rewrite Hrun in Hret. injection Hret as <- <-.
    unfold Integrity.unique_targets in *. rewrite Ht, map_app.
    set (cid := next_rowid c_id (campaigns (w_db w))) in *.
    rewrite Forall_forall in Hall.
    assert (Hfst : forall t, In t added -> Integrity.target_key t = (cid, t_phone t)).
    { intros t Hin. destruct (Hall t Hin) as (Hc & _).
      unfold Integrity.target_key. now rewrite Hc. }
    apply NoDup_app.
    + exact Huniq.
    + apply NoDup_map_inv with (f := snd). rewrite map_map.
      change (NoDup (map t_phone added)). rewrite Hphones.
      apply ServerFacts.first_occurrences_NoDup.
    + intros k Hold Hnew.
      apply in_map_iff in Hnew as (t' & <- & Hin').
      apply in_map_iff in Hold as (t & Hk & Hin).
      rewrite (Hfst t' Hin') in Hk. unfold Integrity.target_key in Hk.
      injection Hk as Hc Hp.
      assert (Hfresh : In (t_phone t') (map t_phone added))
        by (apply in_map; exact Hin').
      rewrite Hphones in Hfresh. apply ServerFacts.first_occurrences_In in Hfresh
        as [_ Hnot].
      apply Hnot. unfold phones_of_campaign. rewrite <- Hp. apply in_map.
      apply filter_In. split; [exact Hin|]. fold cid. now apply Z.eqb_eq.
  - destruct (createCampaignRecord_threw _ _ _ _ _ _ _ _ _ _ _ Hrun) as (_ & Ht).
    unfold Integrity.unique_targets in *. now rewrite Ht.
Qed.

Lemma createCampaignRecord_keeps_phones_unique_per_campaign_witness :
  let env := Scenario.env_with "00:00-23:59" "51" Scenario.noon
               Scenario.accepted_with_id in
  let w := Scenario.world CRunning "51918131082" Scenario.one_variable
             Scenario.queued_entry in
  Integrity.unique_targets
    (w_db (snd (createCampaignRecord env "promo" "hello_world" "es"
                  [mkTargetInput (Some "+51 918 131 082") None;
                   mkTargetInput (Some "918131082") None] None None None w))).
Proof.
  cbv zeta.
  apply (createCampaignRecord_keeps_phones_unique_per_campaign
           (Scenario.env_with "00:00-23:59" "51" Scenario.noon Scenario.accepted_with_id)).
  unfold Integrity.unique_targets. cbn.
  constructor; [intros []|constructor].
Defined.

(** From creation to start.  In a store where every target row belongs to
    a campaign row, the targets of a campaign that [createCampaignRecord]
    has just returned are exactly the rows it inserted: each is ['queued']
    and has a phone that passes [isLikelyValidPhone].  So the dry run of
    that campaign reports [total = valid = inserted] and [invalid = 0], the
    worker's phone check cannot fail on them, and [startCampaign], when its
    sender resolves, enqueues [inserted] entries. *)
Theorem created_campaign_is_all_valid_and_starts_in_full :
  forall (env : Env) (name tpl lang : string) (targets : list TargetInput)
         (meta : option JS.JVal) (rs rd : option string) (w w' : World)
         (r : CreateResult),
    targets_reference_campaigns (w_db w) ->
    createCampaignRecord env name tpl lang targets meta rs rd w = (Ret r, w') ->
    let mine := Integrity.targets_of (campaign_id r) (w_db w') in
    Z.of_nat (List.length mine) = inserted r
    /\ 0 < inserted r
    /\ Forall (fun t => t_status t = TQueued
                        /\ Phone.isLikelyValidPhone (t_phone t) = true) mine
    /\ (exists sample,
          Api.dry_run (campaign_id r) w'
          = (Ret (Api.DryRunReport (inserted r) (inserted r) 0 sample), w'))
    /\ (forall phone w1,
          ensureSender env (Some (sender_phone_id r)) None w' = (Ret phone, w1) ->
          fst (Api.startCampaign env (campaign_id r) w') = Ret (inserted r)).
Proof.
  intros env name tpl lang targets meta rs rd w w' r Href Hrun mine.
  destruct (createCampaignRecord_returned _ _ _ _ _ _ _ _ _ _ _ Hrun)
    as (sender & w1 & Hens & Hne).
  destruct (ServerFacts.createCampaignRecord_outcome env name tpl lang targets meta
              rs rd w sender w1 Hens Hne)
    as (r0 & w0 & Hret & Hcid & Hsender & _ & Hins & _ & _ & (created & Hc)
        & (added & now & Ht & Hphones & Hall) & _).
  rewrite Hrun in Hret. injection Hret as <- <-.
  rewrite (ServerFacts.fresh_campaign_has_no_targets _ Href) in Hphones, Hins.
  set (cid := next_rowid c_id (campaigns (w_db w))) in *.
  rewrite Forall_forall in Hall.
  assert (Hmine : mine = added).
  { unfold mine, Integrity.targets_of. rewrite Ht, Hcid, filter_app.
    rewrite (ServerFacts.filter_none _ (rows (campaign_targets (w_db w)))).
    - cbn [app]. apply forallb_filter_id. apply forallb_forall.
      intros t Hin. destruct (Hall t Hin) as (Hcamp & _). now apply Z.eqb_eq.
    - intros t Hin. destruct (Href t Hin) as (c & Hcin & E).
      apply (next_rowid_fresh c_id) in Hcin. apply Z.eqb_neq. fold cid in Hcin. lia. }
  assert (Hlen : Z.of_nat (List.length added) = inserted r).
  { rewrite Hins, <- Hphones. now rewrite length_map. }
  assert (Hvalid : forall t, In t added -> Phone.isLikelyValidPhone (t_phone t) = true).
  { intros t Hin. assert (Hp : In (t_phone t) (map t_phone added)) by now apply in_map.
    rewrite Hphones in Hp. apply ServerFacts.first_occurrences_In in Hp as [Hp _].
    apply in_map_iff in Hp as (ti & <- & Hti). apply filter_In in Hti as [_ Hv].
    exact Hv. }
  assert (Hpos : 0 < inserted r).
  { rewrite <- Hlen. destruct added as [|t l]; [|cbn [List.length]; lia].
    cbn [map] in Hphones. exfalso.
    destruct (filter (valid_input env) targets) as [|ti tis] eqn:Hf; [congruence|].
    symmetry in Hphones. cbn [map first_occurrences mem_string existsb] in Hphones.
    discriminate. }
  assert (Hc' : select_first (Worker.has_campaign_id cid) (campaigns (w_db w'))
                = Some (mkCampaign cid name tpl lang sender CDraft created
                          (inserted r) (stored_meta meta))).
  { unfold select_first. rewrite Hc, ApiMore.find_app_none.
    - cbn [find]. unfold Worker.has_campaign_id. cbn [c_id]. now rewrite Z.eqb_refl.
    - apply (select_first_none (Worker.has_campaign_id cid)). intros c Hin.
      apply (next_rowid_fresh c_id) in Hin. apply Z.eqb_neq. fold cid in Hin. lia. }
  split; [now rewrite Hmine|]. split; [exact Hpos|]. split; [|split].
  - rewrite Hmine. apply Forall_forall. intros t Hin.
    destruct (Hall t Hin) as (_ & Hst & _). auto.
  - eexists. unfold Api.dry_run, bind, read_db, ret. rewrite Hcid, Hc'.
    fold (Integrity.targets_of cid (w_db w')).
    replace (Integrity.targets_of cid (w_db w')) with added
      by (rewrite <- Hmine; unfold mine; now rewrite Hcid).
    rewrite length_map, ApiMore.by_phone_length, Hlen.
    replace (filter (fun x => Phone.isLikelyValidPhone (fst x))
               (map (fun t => (t_phone t, t_vars_json t)) (Api.by_phone added)))
      with (map (fun t => (t_phone t, t_vars_json t)) (Api.by_phone added)).
    + rewrite length_map, ApiMore.by_phone_length, Hlen, Z.sub_diag. reflexivity.
    + symmetry. apply forallb_filter_id. apply forallb_forall.
      intros x Hx. apply in_map_iff in Hx as (t & <- & Hin). cbn [fst].
      apply (proj1 (ApiMore.by_phone_In _ _)) in Hin. auto.
  - intros phone w2 Hens2.
    rewrite Hcid.
    rewrite (ApiMore.startCampaign_returns env cid w' _ Hc').
    + f_equal. rewrite <- Hlen. f_equal. f_equal.
      transitivity (Integrity.targets_of cid (w_db w')).
      * unfold Integrity.targets_of. apply filter_ext_in. intros t Hin.
        unfold Api.startable. destruct (t_campaign_id t =? cid) eqn:E; [|reflexivity].
        rewrite Ht in Hin. apply in_app_or in Hin as [Hin|Hin].
        -- exfalso. destruct (Href t Hin) as (c & Hcin & Ec).
           apply (next_rowid_fresh c_id) in Hcin. apply Z.eqb_eq in E.
           fold cid in Hcin. lia.
        -- destruct (Hall t Hin) as (_ & Hst & _). now rewrite Hst.
      * rewrite <- Hmine. unfold mine. now rewrite Hcid.
    + exists phone, w2. cbn [c_sender_phone_id]. now rewrite <- Hsender.
Qed.

Lemma created_campaign_is_all_valid_and_starts_in_full_witness :
  let env := Scenario.env_with "00:00-23:59" "51" Scenario.noon
               Scenario.accepted_with_id in
  let w := Scenario.world CRunning "51918131082" Scenario.one_variable
             Scenario.queued_entry in
  let res := createCampaignRecord env "promo" "hello_world" "es"
               [mkTargetInput (Some "+51 918 131 082") None;
                mkTargetInput (Some "123") None;
                mkTargetInput (Some "918131082") None] None None None w in
  fst (Api.dry_run 2 (snd res)) = Ret (Api.DryRunReport 1 1 0
                                         [("51918131082", VarsValid (JS.JObj []))])
  /\ fst (Api.startCampaign env 2 (snd res)) = Ret 1.
Proof.
  intros env w res.
  destruct (created_campaign_is_all_valid_and_starts_in_full env "promo" "hello_world"
              "es" [mkTargetInput (Some "+51 918 131 082") None;
                    mkTargetInput (Some "123") None;
                    mkTargetInput (Some "918131082") None] None None None w
              (snd res) (mkCreateResult 2 1 Scenario.sender_id 1 1
                           (Some "+857608144100041")))
    as (_ & _ & _ & (sample & Hdry) & Hstart).
  - intros t [<-|[]]. exists (Scenario.campaign_in CRunning). split; [now left|reflexivity].
  - reflexivity.
  - split; [reflexivity|].
    apply (Hstart Scenario.sender_id
             (snd (ensureSender env (Some Scenario.sender_id) None (snd res)))).
    reflexivity.
Defined.

End ServerMore.

(** ** The webhook *)

Module HookMore.
Import Server Frame Hook.

Lemma targets_updated_refl tbl : targets_updated tbl tbl.
Proof.
  split; [reflexivity|]. exists (fun t => t). split.
  - intros t. repeat split.
  - symmetry. apply map_id.
Qed.

Lemma targets_updated_trans a b c :
  targets_updated a b -> targets_updated b c -> targets_updated a c.
Proof.
  intros [Hs1 (g1 & H1 & E1)] [Hs2 (g2 & H2 & E2)]. split; [congruence|].
  exists (fun t => g2 (g1 t)). split.
  - intros t. destruct (H1 t) as ((? & ? & ? & ? & ?) & ?).
    destruct (H2 (g1 t)) as ((? & ? & ? & ? & ?) & ?).
    repeat split; congruence.
  - rewrite E2, E1, map_map. reflexivity.
Qed.

Lemma targets_updated_where id f tbl :
  (forall t, same_message t (f t)) ->
  targets_updated tbl (update_where (Worker.has_target_id id) f tbl).
Proof.
  intros Hf. split; [reflexivity|].
  exists (fun t => if Worker.has_target_id id t then f t else t). split.
  - intros t. destruct (Worker.has_target_id id t); [apply Hf|repeat split].
  - reflexivity.
Qed.

Lemma received_refl w : received w w.
Proof.
  repeat split; auto.
  - exists []. now rewrite app_nil_r.
  - exists (fun t => t). split; [intros t; repeat split|symmetry; apply map_id].
  - exists []. split; [now rewrite app_nil_r|reflexivity].
Qed.

Lemma received_trans a b c : received a b -> received b c -> received a c.
Proof.
  intros (Hc1 & Hm1 & Hs1 & Hq1 & (n1 & He1) & Ht1 & (l1 & Hl1 & Hn1))
         (Hc2 & Hm2 & Hs2 & Hq2 & (n2 & He2) & Ht2 & (l2 & Hl2 & Hn2)).
  split; [congruence|]. split; [congruence|]. split; [congruence|].
  split; [congruence|]. split; [|split].
  - exists (n1 ++ n2)%list. rewrite He2, He1. now rewrite app_assoc.
  - exact (targets_updated_trans _ _ _ Ht1 Ht2).
  - exists (l1 ++ l2)%list. split.
    + rewrite Hl2, Hl1. now rewrite app_assoc.
    + rewrite forallb_app, Hn1, Hn2. reflexivity.
Qed.

(** A loop keeps what each of its rounds keeps, also when a round throws. *)
Lemma for_each_keeps {A : Type} (R : World -> World -> Prop) (f : A -> M unit)
    (l : list A) :
  (forall w, R w w) ->
  (forall a b c, R a b -> R b c -> R a c) ->
  (forall x w, R w (snd (f x w))) ->
  forall w, R w (snd (for_each f l w)).
Proof.
  intros Hrefl Htrans Hf. induction l as [|x l IH]; intros w.
  - apply Hrefl.
  - cbn [for_each]. unfold bind. pose proof (Hf x w) as Hx.
    destruct (f x w) as [[u|e] w1]; cbn [snd] in *.
    + exact (Htrans _ _ _ Hx (IH w1)).
    + exact Hx.
Qed.

Lemma recordEvent_run env mid type payload w :
  recordEvent env mid type payload w
  = (Ret tt,
     mkWorld (with_events
                (insert_row ev_id
                   (fun id => mkEvent id mid type payload
                                (epoch_ms (clock env (w_reads w))))) (w_db w))
             (S (w_reads w)) (w_log w)).
Proof. reflexivity. Qed.

(** Splits [received] into its parts and settles all but the targets. *)
Ltac show_received :=
  unfold received; db_fields;
  split; [reflexivity|]; split; [reflexivity|]; split; [reflexivity|];
  split; [reflexivity|];
  split; [first [ exists []; symmetry; apply app_nil_r
                | unfold insert_row; cbn [rows]; eexists; reflexivity ]|];
  split; [|first [ exists []; split; [symmetry; apply app_nil_r|reflexivity]
                 | eexists; split; reflexivity ]].

Lemma same_message_set_status s now t : same_message t (Worker.set_status s now t).
Proof. repeat split. Qed.
Lemma same_message_set_failed e now t : same_message t (Worker.set_failed e now t).
Proof. repeat split. Qed.
Lemma same_message_touch now t : same_message t (touch now t).
Proof. repeat split. Qed.

Lemma handle_status_received env status w :
  received w (snd (handle_status env status w)).
Proof.
  unfold handle_status.
  destruct (truthy_string (se_id status)) as [mid|]; [|apply received_refl].
  unfold bind at 1. rewrite recordEvent_run. unfold update_target. unfold_m.
  cbv beta iota. db_fields.
  destruct (select_first (has_wa_message_id mid) (campaign_targets (w_db w)))
    as [target|].
  - destruct (statusMap (se_status status)) as [[]|]; cbv beta iota; show_received;
      apply targets_updated_where; intros t;
      first [apply same_message_set_status | apply same_message_set_failed
            | apply same_message_touch].
  - show_received. apply targets_updated_refl.
Qed.

Lemma latest_updated_In l :
  forall best t, latest_updated best l = Some t -> best = Some t \/ In t l.
Proof.
  induction l as [|x l IH]; intros best t H; cbn [latest_updated] in H; [now left|].
  destruct best as [b|].
  - destruct (t_updated_at b <? t_updated_at x).
    + apply IH in H as [[= <-]|H]; [right; now left|right; now right].
    + apply IH in H as [H|H]; [now left|right; now right].
  - apply IH in H as [[= <-]|H]; [right; now left|right; now right].
Qed.

Lemma handle_message_received env message w :
  received w (snd (handle_message env message w)).
Proof.
  unfold handle_message.
  unfold bind at 1. rewrite recordEvent_run. unfold update_target.
  destruct (truthy_string (im_context_id message)) as [ctx|];
    destruct (truthy_string (im_from message)) as [from|];
    unfold_m; cbv beta iota; db_fields;
    repeat match goal with
           | |- context [select_first ?p ?t] => destruct (select_first p t)
           | |- context [latest_updated ?b ?l] => destruct (latest_updated b l)
           end;
    cbv beta iota; show_received;
    first [apply targets_updated_refl
          | apply targets_updated_where; intros ?; apply same_message_touch].
Qed.

Lemma handle_change_received env change w :
  received w (snd (handle_change env change w)).
Proof.
  unfold handle_change, bind.
  pose proof (for_each_keeps received (handle_status env) (ch_statuses change)
                received_refl received_trans (handle_status_received env) w) as H1.
  destruct (for_each (handle_status env) (ch_statuses change) w) as [[u|e] w1];
    cbn [snd] in *; [|exact H1].
  apply (received_trans _ _ _ H1).
  apply (for_each_keeps received (handle_message env) (ch_messages change)
           received_refl received_trans (handle_message_received env)).
Qed.

(** A webhook delivery, whatever it carries.  With a signature that does
    not verify it is answered 403 and nothing is read or written.
    Otherwise it can only append rows to the events table, rewrite target
    rows in place (the rows, their order, and each row's id, campaign,
    phone, variables, creation time and provider message ID stay) and emit
    CRM notices: campaigns, messages, senders and the queue are left as
    they were and the messaging API is never called. *)
Theorem webhook_only_records_and_updates_targets :
  forall (env : Env) (req : WebhookRequest) (w : World),
    let res := webhook_post env req w in
    received w (snd res)
    /\ http_calls (w_log (snd res)) = http_calls (w_log w)
    /\ (signature_ok req = false -> res = (Ret Forbidden403, w)).
Proof.
  intros env req w. cbv zeta.
  assert (Hrec : received w (snd (webhook_post env req w))).
  { unfold webhook_post, try_catch.
    destruct (signature_ok req); cbn [negb]; [|apply received_refl].
    unfold bind.
    pose proof (for_each_keeps received (for_each (handle_change env)) (entry req)
                  received_refl received_trans
                  (fun changes w0 =>
                     for_each_keeps received (handle_change env) changes
                       received_refl received_trans (handle_change_received env) w0)
                  w) as H.
    destruct (for_each (for_each (handle_change env)) (entry req) w) as [[u|e] w1];
      cbn [snd] in *; exact H. }
  split; [exact Hrec|]. split.
  - destruct Hrec as (_ & _ & _ & _ & _ & _ & (notices & Hl & Hn)).
    rewrite Hl. unfold http_calls. rewrite filter_app, length_app.
    rewrite (ServerFacts.filter_none is_http notices); [cbn; lia|].
    intros e He. rewrite forallb_forall in Hn. specialize (Hn e He).
    unfold is_notice in Hn. now apply negb_true_iff in Hn.
  - intros Hsig. unfold webhook_post, try_catch. now rewrite Hsig.
Qed.

(** A status callback whose message ID is that of a target and whose status
    word is one of [sent], [delivered], [read], [failed].  Every row with
    the target's id takes the status of the callback, whatever status it
    had: no order of statuses is enforced, a late [sent] replaces [read].
    With [failed] the last error becomes the first 300 characters of the
    error titles; with the other three the last error is left as it was,
    so a target that failed and is then delivered keeps its error text.
    Rows of other ids are untouched and one event is recorded under the
    message ID, with the callback as payload. *)
Theorem status_callback_overwrites_the_target_status :
  forall (env : Env) (status : StatusEvent) (w : World) (mid : string)
         (target : Target) (st : TargetStatus),
    truthy_string (se_id status) = Some mid ->
    select_first (has_wa_message_id mid) (campaign_targets (w_db w)) = Some target ->
    statusMap (se_status status) = Some st ->
    let now := epoch_ms (clock env (S (w_reads w))) in
    let err := error_titles status in
    let w' := snd (handle_status env status w) in
    rows (campaign_targets (w_db w'))
    = map (fun t => if Worker.has_target_id (t_id target) t
                    then match st with
                         | TFailed => Worker.set_failed (JS.take 300 err) now t
                         | _ => Worker.set_status st now t
                         end
                    else t)
          (rows (campaign_targets (w_db w)))
    /\ (forall t, In t (rows (campaign_targets (w_db w'))) ->
          t_id t = t_id target -> t_status t = st)
    /\ (forall t, In t (rows (campaign_targets (w_db w'))) ->
          t_id t = t_id target -> st <> TFailed ->
          exists t0, In t0 (rows (campaign_targets (w_db w)))
                     /\ t_id t0 = t_id target /\ t_last_error t = t_last_error t0)
    /\ (exists e, rows (events (w_db w')) = (rows (events (w_db w)) ++ [e])%list
                  /\ ev_wa_message_id e = Some mid
                  /\ ev_payload e = StatusPayload status).
Proof.
  intros env status w mid target st Hid Htarget Hst now err w'.
  assert (Hrows : rows (campaign_targets (w_db w'))
       = map (fun t => if Worker.has_target_id (t_id target) t
                       then match st with
                            | TFailed => Worker.set_failed (JS.take 300 err) now t
                            | _ => Worker.set_status st now t
                            end
                       else t)
             (rows (campaign_targets (w_db w)))).
  { unfold w', handle_status. rewrite Hid. unfold bind at 1. rewrite recordEvent_run.
    unfold update_target. unfold_m. cbv beta iota. db_fields. rewrite Htarget, Hst.
    destruct st; reflexivity. }
  split; [exact Hrows|split; [|split]].
  - intros t Hin Ht. rewrite Hrows in Hin. apply in_map_iff in Hin as (t0 & <- & _).
    unfold Worker.has_target_id in *. destruct (t_id t0 =? t_id target) eqn:E.
    + destruct st; reflexivity.
    + apply Z.eqb_neq in E. destruct st; contradiction.
  - intros t Hin Ht Hnf. rewrite Hrows in Hin.
    apply in_map_iff in Hin as (t0 & <- & Hin0). exists t0.
    unfold Worker.has_target_id in *. destruct (t_id t0 =? t_id target) eqn:E.
    + apply Z.eqb_eq in E. split; [exact Hin0|]. split; [exact E|].
      destruct st; try reflexivity. contradiction.
    + apply Z.eqb_neq in E. contradiction.
  - unfold w', handle_status. rewrite Hid. unfold bind at 1. rewrite recordEvent_run.
    unfold update_target. unfold_m. cbv beta iota. db_fields. rewrite Htarget, Hst.
    destruct st; cbv beta iota; db_fields; unfold insert_row; cbn [rows];
      eexists; (split; [reflexivity|split; reflexivity]).
Qed.

Lemma status_callback_overwrites_the_target_status_witness :
  let env := Scenario.env_with "00:00-23:59" "51" Scenario.noon
               Scenario.accepted_with_id in
  let read_target := mkTarget 1 1 "51918131082" (VarsValid Scenario.one_variable)
                       TRead None (Some "wamid.A1") 0 0 in
  let w := mkWorld (mkDb (mkTable [Scenario.campaign_in CRunning] 1)
                         (mkTable [read_target] 1)
                         empty_table empty_table empty_table empty_table) 0 [] in
  let late_sent := mkStatusEvent (Some "wamid.A1") (Some "sent") None None in
  map t_status (rows (campaign_targets (w_db (snd (handle_status env late_sent w)))))
  = [TSent].
Proof.
  intros env read_target w late_sent.
  destruct (status_callback_overwrites_the_target_status env late_sent w "wamid.A1"
              read_target TSent eq_refl eq_refl eq_refl) as (Hrows & _).
  rewrite Hrows. reflexivity.
Defined.

Lemma touched_only_refl tbl : touched_only tbl tbl.
Proof. exists (fun t => t). split; [symmetry; apply map_id|now left]. Qed.

Lemma touched_only_where id now tbl :
  touched_only tbl (update_where (Worker.has_target_id id) (touch now) tbl).
Proof.
  exists (fun t => if Worker.has_target_id id t then touch now t else t). split.
  - reflexivity.
  - intros t. destruct (Worker.has_target_id id t); [right; eauto|now left].
Qed.

(** An inbound message never changes a delivery state.  Whatever the
    message and the store, the handler returns, records exactly one event
    of type [reply] under the message's own id (which may be missing), and
    leaves every target row either untouched or with a new [updated_at]
    only: status, last error and provider message ID stay.  Campaigns,
    messages, senders and the queue are as they were. *)
Theorem inbound_message_never_changes_delivery_state :
  forall (env : Env) (message : InboundMessage) (w : World),
    let w' := snd (handle_message env message w) in
    fst (handle_message env message w) = Ret tt
    /\ touched_only (campaign_targets (w_db w)) (campaign_targets (w_db w'))
    /\ map t_status (rows (campaign_targets (w_db w')))
       = map t_status (rows (campaign_targets (w_db w)))
    /\ rows (events (w_db w'))
       = (rows (events (w_db w))
          ++ [mkEvent (next_rowid ev_id (events (w_db w))) (im_id message) "reply"
                      (ReplyPayload message) (epoch_ms (clock env (w_reads w)))])%list
    /\ campaigns (w_db w') = campaigns (w_db w)
    /\ queue (w_db w') = queue (w_db w).
Proof.
  intros env message w w'.
  assert (H : exists w2,
              handle_message env message w = (Ret tt, w2)
              /\ touched_only (campaign_targets (w_db w)) (campaign_targets (w_db w2))
              /\ rows (events (w_db w2))
                 = (rows (events (w_db w))
                    ++ [mkEvent (next_rowid ev_id (events (w_db w))) (im_id message)
                          "reply" (ReplyPayload message)
                          (epoch_ms (clock env (w_reads w)))])%list
              /\ campaigns (w_db w2) = campaigns (w_db w)
              /\ queue (w_db w2) = queue (w_db w)).
  { unfold handle_message.
    unfold bind at 1. rewrite recordEvent_run. unfold update_target.
    destruct (truthy_string (im_context_id message)) as [ctx|];
      destruct (truthy_string (im_from message)) as [from|];
      unfold_m; cbv beta iota; db_fields;
      repeat match goal with
             | |- context [select_first ?p ?t] => destruct (select_first p t)
             | |- context [latest_updated ?b ?l] => destruct (latest_updated b l)
             end;
      cbv beta iota; db_fields;
      eexists; (split; [reflexivity|]); db_fields;
      (split; [first [apply touched_only_refl | apply touched_only_where]|]);
      (split; [reflexivity|]); split; reflexivity. }
  destruct H as (w2 & Hrun & Htouch & Hev & Hc & Hq).
  unfold w'. rewrite Hrun. cbn [fst snd].
  assert (Hret : Ret tt = Ret tt :> Outcome unit) by reflexivity.
  split; [exact Hret|]. split; [exact Htouch|]. split; [|auto].
  destruct Htouch as (g & Hrows & Hg). rewrite Hrows, map_map. apply map_ext.
  intros t. destruct (Hg t) as [->|(now & ->)]; reflexivity.
Qed.

End HookMore.

(** ** Phone numbers *)

Module PhoneMore.
Import JS Phone.

Lemma all_chars_filter p s : all_chars p (filter_chars p s) = true.
Proof.
  induction s as [|c s IH]; [reflexivity|]. cbn [filter_chars].
  destruct (p c) eqn:E; [cbn [all_chars]; now rewrite E|exact IH].
Qed.

Lemma all_chars_drop p n s : all_chars p s = true -> all_chars p (drop n s) = true.
Proof.
  revert s. induction n as [|n IH]; intros s H; [exact H|].
  destruct s as [|c s]; [reflexivity|]. cbn [drop]. apply IH.
  cbn [all_chars] in H. now apply andb_true_iff in H as [_ H].
Qed.

Lemma all_chars_append p a b :
  all_chars p (a ++ b) = all_chars p a && all_chars p b.
Proof.
  induction a as [|c a IH]; [reflexivity|]. cbn [append all_chars].
  now rewrite IH, andb_assoc.
Qed.

Lemma all_chars_strip_zeros p s :
  all_chars p s = true -> all_chars p (strip_zeros s) = true.
Proof.
  induction s as [|c s IH]; intros H; [reflexivity|].
  cbn [all_chars] in H. apply andb_true_iff in H as [Hc Hs].
  cbn [strip_zeros].
  destruct c as [[] [] [] [] [] [] [] []]; cbn [all_chars]; try (now rewrite Hc, Hs).
  now apply IH.
Qed.

Lemma strip_zeros_no_leading_zero s : startsWith (strip_zeros s) "0" = false.
Proof.
  induction s as [|c s IH]; [reflexivity|]. cbn [strip_zeros].
  destruct c as [[] [] [] [] [] [] [] []]; try reflexivity. exact IH.
Qed.

Lemma strip_zeros_fixed s : startsWith s "0" = false -> strip_zeros s = s.
Proof.
  destruct s as [|c s]; [reflexivity|].
  destruct c as [[] [] [] [] [] [] [] []]; try reflexivity.
  intros H. destruct s; vm_compute in H; discriminate.
Qed.

Lemma filter_chars_fixed p s : all_chars p s = true -> filter_chars p s = s.
Proof.
  induction s as [|c s IH]; intros H; [reflexivity|].
  cbn [all_chars] in H. apply andb_true_iff in H as [Hc Hs].
  cbn [filter_chars]. rewrite Hc. now rewrite IH.
Qed.

Lemma digit_is_no_space c : is_digit c = true -> is_space c = false.
Proof.
  unfold is_digit, is_space. cbv zeta. intros H.
  apply andb_true_iff in H as [H1 H2].
  apply Nat.leb_le in H1. apply Nat.leb_le in H2.
  apply orb_false_iff. split.
  - apply andb_false_iff. right. apply Nat.leb_gt. lia.
  - apply Nat.eqb_neq. lia.
Qed.

Lemma drop_while_space_digits s :
  all_chars is_digit s = true -> drop_while is_space s = s.
Proof.
  destruct s as [|c s]; [reflexivity|]. cbn [all_chars drop_while]. intros H.
  apply andb_true_iff in H as [Hc _]. now rewrite (digit_is_no_space c Hc).
Qed.

Lemma string_app_nil_r (s : string) : (s ++ "")%string = s.
Proof. induction s as [|c s IH]; [reflexivity|]. cbn [append]. now rewrite IH. Qed.

Lemma string_app_assoc (a b c : string) :
  ((a ++ b) ++ c)%string = (a ++ (b ++ c))%string.
Proof. induction a as [|x a IH]; [reflexivity|]. cbn [append]. now rewrite IH. Qed.

Lemma rev_string_append a b :
  rev_string (a ++ b) = (rev_string b ++ rev_string a)%string.
Proof.
  induction a as [|c a IH]; cbn [append rev_string].
  - now rewrite string_app_nil_r.
  - now rewrite IH, string_app_assoc.
Qed.

Lemma rev_string_involutive s : rev_string (rev_string s) = s.
Proof.
  induction s as [|c s IH]; [reflexivity|]. cbn [rev_string].
  rewrite rev_string_append. cbn [rev_string append]. now rewrite IH.
Qed.

Lemma all_chars_rev p s : all_chars p (rev_string s) = all_chars p s.
Proof.
  induction s as [|c s IH]; [reflexivity|]. cbn [rev_string all_chars].
  rewrite all_chars_append, IH. cbn [all_chars]. rewrite andb_true_r. apply andb_comm.
Qed.

Lemma trim_digits s : all_chars is_digit s = true -> trim s = s.
Proof.
  intros H. unfold trim. rewrite (drop_while_space_digits s H).
  rewrite drop_while_space_digits by (now rewrite all_chars_rev).
  apply rev_string_involutive.
Qed.

(** The digits [normalizePhone] works on before the final strip. *)
Lemma normalizePhone_digits raw cc : all_chars is_digit (normalizePhone raw cc) = true.
Proof.
  unfold normalizePhone. destruct raw as [r|]; [|reflexivity]. cbv zeta.
  set (c := digits_only cc). set (d0 := digits_only (trim r)).
  assert (Hc : all_chars is_digit c = true) by apply all_chars_filter.
  assert (H0 : all_chars is_digit d0 = true) by apply all_chars_filter.
  destruct (negb (nonempty d0)); [reflexivity|].
  set (d1 := if startsWith d0 "00" then drop 2 d0 else d0).
  assert (H1 : all_chars is_digit d1 = true).
  { unfold d1. destruct (startsWith d0 "00"); [now apply all_chars_drop|exact H0]. }
  set (d2 := if startsWith d1 "0" && nonempty c then (c ++ drop 1 d1)%string else d1).
  assert (H2 : all_chars is_digit d2 = true).
  { unfold d2. destruct (startsWith d1 "0" && nonempty c); [|exact H1].
    rewrite all_chars_append, Hc. now apply all_chars_drop. }
  apply all_chars_strip_zeros.
  destruct (nonempty c && negb (startsWith d2 c) && (String.length d2 <=? 10)%nat);
    [|exact H2].
  now rewrite all_chars_append, Hc, H2.
Qed.

Lemma normalizePhone_shape raw cc :
  all_chars is_digit (normalizePhone raw cc) = true
  /\ startsWith (normalizePhone raw cc) "0" = false.
Proof.
  split; [apply normalizePhone_digits|].
  unfold normalizePhone. destruct raw as [r|]; [|reflexivity]. cbv zeta.
  destruct (negb (nonempty (digits_only (trim r)))); [reflexivity|].
  apply strip_zeros_no_leading_zero.
Qed.

(** Whatever the input and the country code, [normalizePhone] returns
    decimal digits only and never a leading zero. *)
Theorem normalizePhone_returns_digits_without_leading_zero :
  forall (raw : option string) (cc : string),
    all_chars is_digit (normalizePhone raw cc) = true
    /\ startsWith (normalizePhone raw cc) "0" = false.
Proof.
  intros raw cc. apply normalizePhone_shape.
Qed.

Lemma no_double_zero s : startsWith s "0" = false -> startsWith s "00" = false.
Proof.
  destruct s as [|c s]; [reflexivity|]. unfold startsWith. cbn [prefix].
  destruct (ascii_dec "0" c); [|reflexivity].
  destruct s; intros H; discriminate.
Qed.

(** A normalized phone is a fixed point of the normalization the webhook
    applies to the sender of an inbound message (no country code): the
    phone stored for a target at creation, whatever country code was in
    force then, is the phone the webhook looks up when the provider reports
    those same digits. *)
Theorem stored_phone_is_stable_under_webhook_normalization :
  forall (raw : option string) (cc : string),
    normalizePhone (Some (normalizePhone raw cc)) "" = normalizePhone raw cc.
Proof.
  intros raw cc.
  destruct (normalizePhone_shape raw cc) as [Hd Hz].
  set (d := normalizePhone raw cc) in *.
  unfold normalizePhone at 1. cbv zeta. rewrite (trim_digits d Hd).
  unfold digits_only. rewrite (filter_chars_fixed _ d Hd).
  destruct d as [|x d']; [reflexivity|]. cbn [nonempty negb].
  rewrite (no_double_zero _ Hz), Hz. cbn [filter_chars nonempty andb].
  now apply strip_zeros_fixed.
Qed.

End PhoneMore.

(** ** The delivery window, malformed *)

Module WindowMore.
Import Window Malformed.

Lemma split_not_nil c s : exists p ps, JS.split c s = p :: ps.
Proof.
  induction s as [|x s (p & ps & IH)]; cbn [JS.split]; [eauto|].
  destruct (Ascii.eqb x c); [eauto|]. rewrite IH. eauto.
Qed.

Lemma inWindow_open now s : lacks_an_end s -> Wa.inWindow now s = true.
Proof.
  intros [Hfree|[(a & ->)|(a & -> & Hfree)]]; unfold Wa.inWindow.
  - destruct (negb (JS.nonempty s)); [reflexivity|].
    cbv zeta. now rewrite (WindowFacts.split_free _ _ Hfree).
  - cbn [JS.nonempty negb]. cbv zeta. cbn [JS.split]. rewrite Ascii.eqb_refl.
    destruct (split_not_nil "-" a) as (p & ps & ->). reflexivity.
  - destruct (negb (JS.nonempty (a ++ "-"))); [reflexivity|].
    cbv zeta. rewrite (WindowFacts.split_at "-" a "" Hfree).
    cbn [JS.split nth_error JS.nonempty negb]. now rewrite orb_true_r.
Qed.

(** The window check fails open.  When [DELIVERY_WINDOW] lacks one of its
    two ends (no hyphen at all, nothing before the hyphen, or nothing after
    it) [inWindow] holds at every time of day, and a tick is never held
    back: it goes on to claim and process its batch. *)
Theorem tick_is_not_held_by_a_window_without_two_ends :
  forall (env : Env) (w : World),
    lacks_an_end (DELIVERY_WINDOW env) ->
    (forall now, Wa.inWindow now (DELIVERY_WINDOW env) = true)
    /\ Worker.tick env w
       = Worker.tick_work env (mkWorld (w_db w) (S (w_reads w)) (w_log w)).
Proof.
  intros env w H. split.
  - intros now. now apply inWindow_open.
  - apply WindowFacts.tick_inside_window. now apply inWindow_open.
Qed.

Lemma tick_is_not_held_by_a_window_without_two_ends_witness :
  let env := Scenario.env_with "22:00" "51" Scenario.noon Scenario.accepted_with_id in
  let w := Scenario.world CRunning "51918131082" Scenario.one_variable
             Scenario.queued_entry in
  Wa.inWindow Scenario.noon "22:00" = true
  /\ map t_status (rows (campaign_targets (w_db (snd (Worker.tick env w))))) = [TSent].
Proof.
  intros env w.
  destruct (tick_is_not_held_by_a_window_without_two_ends env w) as [Hopen Htick].
  - left. reflexivity.
  - split; [apply (Hopen Scenario.noon)|]. rewrite Htick. reflexivity.
Defined.

End WindowMore.

(** ** Template placeholders *)

Module TemplatesMore.
Import Templates.

Lemma insert_sorted_In n l x : In x (insert_sorted n l) <-> x = n \/ In x l.
Proof.
  induction l as [|y l IH]; cbn [insert_sorted].
  - cbn. intuition.
  - destruct (n <=? y); cbn [In]; [intuition|]. rewrite IH. intuition.
Qed.

Lemma insert_sorted_strict n l :
  StronglySorted Z.lt l -> ~ In n l -> StronglySorted Z.lt (insert_sorted n l).
Proof.
  induction l as [|y l IH]; intros Hs Hn; cbn [insert_sorted].
  - repeat constructor.
  - inversion Hs as [|? ? Hl Hall]; subst.
    destruct (Z.leb_spec n y) as [Hle|Hgt].
    + assert (n < y) by (assert (n <> y) by (intros ->; apply Hn; now left); lia).
      constructor; [exact Hs|]. constructor; [assumption|].
      rewrite Forall_forall in *. intros z Hz. specialize (Hall z Hz). lia.
    + constructor.
      * apply IH; [exact Hl|]. intros Hin. apply Hn. now right.
      * rewrite Forall_forall in *. intros z Hz.
        apply insert_sorted_In in Hz as [->|Hz]; [lia|now apply Hall].
Qed.

Lemma sort_numbers_In l x : In x (sort_numbers l) <-> In x l.
Proof.
  induction l as [|y l IH]; [reflexivity|]. cbn [sort_numbers fold_right].
  rewrite insert_sorted_In. fold (sort_numbers l). rewrite IH. cbn [In]. intuition.
Qed.

Lemma sort_numbers_strict l : NoDup l -> StronglySorted Z.lt (sort_numbers l).
Proof.
  induction l as [|y l IH]; intros Hnd; [constructor|].
  inversion Hnd as [|? ? Hy Hl]; subst. cbn [sort_numbers fold_right].
  fold (sort_numbers l). apply insert_sorted_strict; [now apply IH|].
  now rewrite sort_numbers_In.
Qed.

(** The placeholders [extractPlaceholders] returns are the renderings
    [{{n}}] of a strictly ascending list of numbers: exactly the positive
    numbers matched in the text, each once.  So [{{0}}] is never reported
    and a placeholder used twice is reported once. *)
Theorem extractPlaceholders_ascending_distinct_positive :
  forall (text : string),
    exists ns : list Z,
      extractPlaceholders text
      = map (fun v => ("{{" ++ JS.decimal_of_Z v ++ "}}")%string) ns
      /\ StronglySorted Z.lt ns
      /\ (forall n, In n ns <-> 0 < n /\ In n (matches text)).
Proof.
  intros text.
  exists (sort_numbers (filter (fun v => 0 <? v) (nodup Z.eq_dec (matches text)))).
  split; [reflexivity|]. split.
  - apply sort_numbers_strict. apply NoDup_filter. apply NoDup_nodup.
  - intros n. rewrite sort_numbers_In, filter_In, nodup_In, Z.ltb_lt. tauto.
Qed.

End TemplatesMore.

(** ** A tick with nothing to do *)

Module TickMore.
Import Worker Frame.

Lemma fetchBatch_nothing_due now limit q :
  (forall r, In r (rows q) -> Queue.eligible now r = false) ->
  Queue.fetchBatch now limit q = ([], q).
Proof.
  intros H. unfold Queue.fetchBatch, Queue.select_batch.
  rewrite (ServerFacts.filter_none _ _ H). cbn [Queue.order_by_id fold_right].
  unfold Queue.sql_limit. destruct (limit <? 0); [reflexivity|].
  rewrite firstn_nil. reflexivity.
Qed.

Lemma with_queue_same d : with_queue (fun _ => queue d) d = d.
Proof. now destruct d. Qed.

(** The sweep that closes finished campaigns runs only in a tick that has
    claimed at least one entry.  When no queue entry is due (none is
    ['queued'] with [available_at] reached), a tick leaves the whole store
    and the log of effects as they were, inside or outside the delivery
    window: a ['running'] campaign stays ['running'] even if all its
    targets are finished and every queue entry is ['done']. *)
Theorem idle_tick_closes_no_campaign :
  forall (env : Env) (w : World),
    (forall r, In r (rows (queue (w_db w))) ->
       Queue.eligible (epoch_ms (clock env (S (w_reads w)))) r = false) ->
    fst (tick env w) = Ret tt
    /\ w_db (snd (tick env w)) = w_db w
    /\ w_log (snd (tick env w)) = w_log w.
Proof.
  intros env w Hidle.
  pose proof (fetchBatch_nothing_due _ (BATCH_SIZE env) _ Hidle) as Hclaim.
  split.
  - unfold tick, try_catch. destruct (bind _ _ w) as [[[]|e] w1]; reflexivity.
  - destruct (WorkerMore.tick_cases env w) as [H|[[_ H]|[(Hne & _)|(Hi & _)]]];
      cbv zeta in *.
    + rewrite H. split; reflexivity.
    + rewrite H, Hclaim. cbn [snd w_db w_log]. split; [apply with_queue_same|reflexivity].
    + rewrite Hclaim in Hne. now contradiction Hne.
    + rewrite Hclaim in Hi. discriminate Hi.
Qed.

Lemma idle_tick_closes_no_campaign_witness :
  let env := Scenario.env_with "" "" Scenario.noon Scenario.accepted_with_id in
  let w := mkWorld
             (mkDb (mkTable [Scenario.campaign_in CRunning] 1)
                   (mkTable [mkTarget 1 1 "51918131082" (VarsValid (JS.JObj []))
                               TSent None (Some "wamid.A1") 0 0] 1)
                   empty_table empty_table empty_table
                   (mkTable [Queue.set_status QDone Scenario.claimed_entry] 1)) 0 [] in
  map c_status (rows (campaigns (w_db (snd (tick env w))))) = [CRunning]
  /\ map c_status (rows (campaigns (w_db (snd (sweep w))))) = [CDone].
Proof.
  intros env w. split; [|reflexivity].
  destruct (idle_tick_closes_no_campaign env w) as (_ & Hdb & _).
  - intros r [<-|[]]. reflexivity.
  - rewrite Hdb. reflexivity.
Defined.

End TickMore.

(** ** From the send to the status callback *)

Module RoundTrip.
Import Worker Server.

Lemma find_map_first {A : Type} (p q : A -> bool) (g : A -> A) (l : list A) (x : A) :
  find q l = Some x ->
  (forall y, In y l -> q y = true -> p (g y) = true) ->
  (forall y, In y l -> q y = false -> p (g y) = false) ->
  find p (map g l) = Some (g x).
Proof.
  induction l as [|y l IH]; intros Hfind Hyes Hno; [discriminate|].
  cbn [find map] in *. destruct (q y) eqn:E.
  - injection Hfind as <-. now rewrite (Hyes y (or_introl eq_refl) E).
  - rewrite (Hno y (or_introl eq_refl) E). apply IH; [exact Hfind| |]; intros z Hz.
    + apply Hyes. now right.
    + apply Hno. now right.
Qed.

Lemma find_same {A : Type} (p q : A -> bool) (l : list A) :
  (forall x, p x = q x) -> find p l = find q l.
Proof.
  intros H. induction l as [|x l IH]; [reflexivity|]. cbn [find].
  rewrite H, IH. reflexivity.
Qed.

Lemma wa_id_of_nonempty resp mid : wa_id_of resp = Some mid -> JS.nonempty mid = true.
Proof.
  unfold wa_id_of. destruct resp as [r|]; [|discriminate].
  destruct (resp_messages r) as [[|m ms]|]; try discriminate.
  destruct (wam_id m) as [id|]; [|discriminate].
  destruct (JS.nonempty id) eqn:E; [|discriminate]. now intros [= <-].
Qed.

(** The targets table after a status callback that matches a target. *)
Lemma handle_status_matched_rows env status w mid target st :
  truthy_string (se_id status) = Some mid ->
  select_first (has_wa_message_id mid) (campaign_targets (w_db w)) = Some target ->
  statusMap (se_status status) = Some st ->
  rows (campaign_targets (w_db (snd (handle_status env status w))))
  = map (fun t => if has_target_id (t_id target) t
                  then match st with
                       | TFailed => set_failed (JS.take 300 (error_titles status))
                                      (epoch_ms (clock env (S (w_reads w)))) t
                       | _ => set_status st (epoch_ms (clock env (S (w_reads w)))) t
                       end
                  else t)
        (rows (campaign_targets (w_db w))).
Proof.
  intros Hid Htarget Hst. unfold handle_status. rewrite Hid. unfold bind at 1.
  rewrite HookMore.recordEvent_run.
  unfold update_target. unfold_m. cbv beta iota. db_fields. rewrite Htarget, Hst.
  destruct st; reflexivity.
Qed.

(** The send and the callback meet.  When a job is sent and the provider
    answers with a message ID that no target carries yet, the lookup the
    webhook makes by that ID finds the target just sent; a status callback
    for that ID with one of the four status words then gives every row with
    the target's id that status, the ID staying in place, and leaves every
    row of another id as it was before the send. *)
Theorem sent_target_is_found_by_its_status_callback :
  forall (env : Env) (job : Job) (w : World) (camp : Campaign) (target : Target)
         (vars : JS.JVal) (vs : list JS.JVal) (resp : option WaResponse)
         (mid : string) (status : StatusEvent) (st : TargetStatus),
    select_first (has_campaign_id (job_campaign_id job)) (campaigns (w_db w))
      = Some camp ->
    gated (c_status camp) = false ->
    select_first (has_target_id (job_target_id job)) (campaign_targets (w_db w))
      = Some target ->
    Phone.isLikelyValidPhone (t_phone target) = true ->
    t_vars_json target = VarsValid vars ->
    JS.Object_values vars = Some vs ->
    provider env (List.length (w_log w))
      (build_request env camp target (components_of (map text_param vs)))
      = Resolved resp ->
    wa_id_of resp = Some mid ->
    (forall t, In t (rows (campaign_targets (w_db w))) -> t_wa_message_id t <> Some mid) ->
    se_id status = Some mid ->
    statusMap (se_status status) = Some st ->
    let w1 := snd (process_job env job w) in
    let w2 := snd (handle_status env status w1) in
    select_first (has_wa_message_id mid) (campaign_targets (w_db w1))
    = Some (set_sent (Some mid) (epoch_ms (clock env (S (w_reads w))))
              (set_status TSending (epoch_ms (clock env (w_reads w))) target))
    /\ (forall t, In t (rows (campaign_targets (w_db w2))) -> t_id t = t_id target ->
          t_status t = st /\ t_wa_message_id t = Some mid)
    /\ (forall t, In t (rows (campaign_targets (w_db w2))) -> t_id t <> t_id target ->
          In t (rows (campaign_targets (w_db w)))).
Proof.
  intros env job w camp target vars vs resp mid status st
         Hcamp Hlive Htarget Hphone Hvars Hvalues Hprov Hwa Hfresh Hsid Hst w1 w2.
  set (t1 := epoch_ms (clock env (w_reads w))).
  set (t2 := epoch_ms (clock env (S (w_reads w)))).
  set (sent := fun t => set_sent (Some mid) t2 (set_status TSending t1 t)).
  pose proof (WorkerFacts.process_job_resolved env job w camp target vars vs
                Hcamp Hlive Htarget Hphone Hvars Hvalues resp Hprov) as Hrun.
  cbv zeta in Hrun. rewrite Hwa in Hrun.
  destruct (select_first_In _ _ _ Htarget) as [Hin Htid].
  assert (Hrows1 : rows (campaign_targets (w_db w1))
                   = map (fun t => if has_target_id (t_id target) t then sent t else t)
                         (rows (campaign_targets (w_db w)))).
  { unfold w1. rewrite Hrun. db_fields. rewrite !rows_update_where, map_map.
    apply map_ext. intros t. unfold sent, has_target_id.
    destruct (t_id t =? t_id target) eqn:E; cbn [set_status t_id]; now rewrite E. }
  assert (Hsame : forall t, has_target_id (job_target_id job) t
                            = has_target_id (t_id target) t).
  { intros t. unfold has_target_id in *. apply Z.eqb_eq in Htid. now rewrite Htid. }
  assert (Hsel : select_first (has_wa_message_id mid) (campaign_targets (w_db w1))
                 = Some (sent target)).
  { unfold select_first. rewrite Hrows1.
    transitivity (Some ((fun t => if has_target_id (t_id target) t then sent t else t)
                          target));
      [|cbv beta; unfold has_target_id; now rewrite Z.eqb_refl].
    apply (find_map_first (has_wa_message_id mid) (has_target_id (t_id target))
             (fun t => if has_target_id (t_id target) t then sent t else t)
             (rows (campaign_targets (w_db w))) target).
    - unfold select_first in Htarget. rewrite <- Htarget.
      apply find_same. intros t. symmetry. apply Hsame.
    - intros y _ ->. unfold has_wa_message_id, sent. cbn [set_sent t_wa_message_id].
      cbn [option_string_eqb]. apply String.eqb_refl.
    - intros y Hy ->. unfold has_wa_message_id.
      specialize (Hfresh y Hy). destruct (t_wa_message_id y) as [m|]; [|reflexivity].
      cbn [option_string_eqb]. apply String.eqb_neq. congruence. }
  assert (Htruthy : truthy_string (se_id status) = Some mid).
  { rewrite Hsid. unfold truthy_string. now rewrite (wa_id_of_nonempty _ _ Hwa). }
  pose proof (handle_status_matched_rows env status w1 mid (sent target) st
                Htruthy Hsel Hst) as Hrows2.
  fold w2 in Hrows2. replace (t_id (sent target)) with (t_id target) in Hrows2
    by reflexivity.
  split; [exact Hsel|]. split.
  - intros t Ht Hid. rewrite Hrows2, Hrows1, map_map in Ht.
    apply in_map_iff in Ht as (t0 & <- & _).
    destruct (has_target_id (t_id target) t0) eqn:E.
    + replace (has_target_id (t_id target) (sent t0)) with true.
      destruct st; split; reflexivity.
    + exfalso. rewrite E in Hid. unfold has_target_id in E.
      apply Z.eqb_neq in E. contradiction.
  - intros t Ht Hid. rewrite Hrows2, Hrows1, map_map in Ht.
    apply in_map_iff in Ht as (t0 & <- & Hin0).
    destruct (has_target_id (t_id target) t0) eqn:E.
    + exfalso. apply Hid.
      replace (has_target_id (t_id target) (sent t0)) with true.
      unfold has_target_id in E. apply Z.eqb_eq in E. destruct st; exact E.
    + rewrite E. exact Hin0.
Qed.

Lemma sent_target_is_found_by_its_status_callback_witness :
  let env := Scenario.env_with "" "" Scenario.noon Scenario.accepted_with_id in
  let w := Scenario.world CRunning "51918131082" Scenario.one_variable
             Scenario.claimed_entry in
  let delivered := mkStatusEvent (Some "wamid.A1") (Some "delivered") None None in
  let w2 := snd (handle_status env delivered (snd (process_job env Scenario.job w))) in
  map t_status (rows (campaign_targets (w_db w2))) = [TDelivered]
  /\ forall t, In t (rows (campaign_targets (w_db w2))) -> t_id t = 1 ->
       t_status t = TDelivered /\ t_wa_message_id t = Some "wamid.A1".
Proof.
  intros env w delivered w2. split; [reflexivity|].
  destruct (sent_target_is_found_by_its_status_callback env Scenario.job w
              (Scenario.campaign_in CRunning)
              (Scenario.target_with "51918131082" Scenario.one_variable)
              Scenario.one_variable [JS.JStr "Ana"]
              (Some (mkWaResponse (Some [mkWaMessage (Some "wamid.A1")])))
              "wamid.A1" delivered TDelivered
              eq_refl eq_refl eq_refl eq_refl eq_refl eq_refl eq_refl eq_refl)
    as (_ & H & _).
  - intros t [<-|[]]. discriminate.
  - reflexivity.
  - reflexivity.
  - exact H.
Defined.

End RoundTrip.

(** ** Body values of the sending tool *)

Module B24More.
Import B24.

Lemma padded_length (expected : nat) (values : list JS.JVal) :
  List.length (firstn expected
                 (values ++ repeat (JS.JStr "") (expected - List.length values)))
  = expected.
Proof. rewrite length_firstn, length_app, repeat_length. lia. Qed.

Lemma padded_nth (expected i : nat) (values : list JS.JVal) :
  (i < expected)%nat ->
  nth i (firstn expected
           (values ++ repeat (JS.JStr "") (expected - List.length values)))
        (JS.JStr "")
  = match nth_error values i with Some v => v | None => JS.JStr "" end.
Proof.
  intros Hi. rewrite nth_firstn.
  destruct (Nat.ltb_spec i expected) as [_|Hge]; [|lia].
  destruct (Nat.lt_ge_cases i (List.length values)) as [Hlt|Hge].
  - rewrite app_nth1 by exact Hlt.
    destruct (nth_error values i) as [v|] eqn:E.
    + now apply nth_error_nth.
    + apply nth_error_None in E. lia.
  - rewrite app_nth2 by exact Hge. rewrite nth_repeat.
    apply nth_error_None in Hge. now rewrite Hge.
Qed.

(** The sending tool never rejects a template for missing variables: for a
    template with [expected] body placeholders [deriveBodyValues] always
    returns exactly [expected] texts, the values supplied in order (a null
    rendered empty) followed by empty texts for those that are missing,
    values beyond [expected] being dropped; the body component is left out
    exactly when the template has no body placeholder, and otherwise
    carries [expected] parameters. *)
Theorem deriveBodyValues_fills_every_placeholder :
  forall (expected : nat) (variablesInput : option JS.JVal),
    List.length (deriveBodyValues expected variablesInput) = expected
    /\ (forall i, (i < expected)%nat ->
          nth i (deriveBodyValues expected variablesInput) ""
          = match nth_error (supplied variablesInput) i with
            | Some v => text_of v
            | None => ""
            end)
    /\ (body_component expected variablesInput = [] <-> expected = 0%nat)
    /\ (forall c, In c (body_component expected variablesInput) ->
          comp_type c = "body" /\ List.length (comp_parameters c) = expected).
Proof.
  intros expected input.
  assert (Hlen : List.length (deriveBodyValues expected input) = expected).
  { unfold deriveBodyValues. destruct (Nat.eqb_spec expected 0) as [->|_]; [reflexivity|].
    cbv zeta. rewrite length_map. apply padded_length. }
  split; [exact Hlen|]. split; [|split].
  - intros i Hi. unfold deriveBodyValues.
    destruct (Nat.eqb_spec expected 0) as [->|_]; [lia|]. cbv zeta.
    set (padded := firstn expected _).
    transitivity (text_of (nth i padded (JS.JStr ""))); [exact (map_nth text_of padded (JS.JStr "") i)|].
    unfold padded. rewrite (padded_nth expected i _ Hi).
    now destruct (nth_error (supplied input) i).
  - unfold body_component. cbv zeta.
    destruct (deriveBodyValues expected input) as [|v vs] eqn:E; cbn [List.length] in Hlen.
    + split; [now intros _|reflexivity].
    + split; [discriminate|]. intros ->. discriminate.
  - intros c Hc. unfold body_component in Hc. cbv zeta in Hc.
    destruct (deriveBodyValues expected input) as [|v vs] eqn:E; [contradiction|].
    destruct Hc as [<-|[]]. cbn [comp_type comp_parameters]. split; [reflexivity|].
    now rewrite length_map.
Qed.

End B24More.

(** ** The diagnostic tool checks the variables against the template *)

Module DoctorMore.
Import Doctor.

(** The BODY step of the diagnostic tool's [buildComponents] counts the
    distinct positive placeholders of the body text, as many as
    [extractPlaceholders] reports.  With none it builds no body component;
    with fewer body values than placeholders it throws 'Variables
    incompletas para BODY' naming both numbers, in particular when no
    variables are given at all; otherwise it builds one body component
    with exactly one text parameter per placeholder, the first values in
    order, values beyond the placeholders being dropped. *)
Theorem build_body_requires_a_value_per_placeholder :
  forall (text : string) (variables : option JS.JVal),
    let slots := placeholderSlots text in
    let values := extractBodyValues variables (List.length slots) in
    List.length slots = List.length (Templates.extractPlaceholders text)
    /\ (slots = [] -> build_body (Some text) variables = Ret [])
    /\ (slots <> [] -> (List.length values < List.length slots)%nat ->
          build_body (Some text) variables
          = Throw (incomplete_body (List.length slots) (List.length values)))
    /\ (slots <> [] -> variables = None ->
          build_body (Some text) variables
          = Throw (incomplete_body (List.length slots) 0))
    /\ (slots <> [] -> (List.length slots <= List.length values)%nat ->
          exists ps,
            build_body (Some text) variables = Ret [mkComponent "body" ps]
            /\ List.length ps = List.length slots
            /\ forall i, (i < List.length slots)%nat ->
                 nth_error ps i = option_map Worker.text_param (nth_error values i)).
Proof.
  intros text variables slots values.
  split; [unfold slots, placeholderSlots, Templates.extractPlaceholders;
          now rewrite length_map|].
  split; [|split; [|split]].
  - intros E. unfold build_body. fold slots. now rewrite E.
  - intros Hne Hlt. unfold build_body. fold slots. cbv zeta. fold values.
    destruct slots as [|s slots']; [contradiction|].
    apply Nat.ltb_lt in Hlt. now rewrite Hlt.
  - intros Hne ->. unfold build_body. fold slots. cbv zeta.
    destruct slots as [|s slots']; [contradiction|]. reflexivity.
  - intros Hne Hle. unfold build_body. fold slots. cbv zeta. fold values.
    destruct slots as [|s slots'] eqn:E; [contradiction|]. rewrite <- E in *.
    assert (Hge : (List.length values <? List.length slots)%nat = false)
      by (apply Nat.ltb_ge; exact Hle).
    rewrite Hge. eexists. split; [reflexivity|]. split.
    + rewrite length_map, length_firstn. lia.
    + intros i Hi. rewrite nth_error_map, nth_error_firstn.
      apply Nat.ltb_lt in Hi. now rewrite Hi.
Qed.

(** Two placeholders, one value: the tool throws; with two values it
    builds the two parameters. *)
Example build_body_on_two_placeholders :
  build_body (Some Scenario.two_placeholder_body) (Some Scenario.one_variable)
  = Throw (mkJsError None
             "Variables incompletas para BODY: se esperaban 2 y llegaron 1")
  /\ build_body (Some Scenario.two_placeholder_body)
                (Some (JS.JObj [("1", JS.JStr "Ana"); ("2", JS.JStr "Lima")]))
     = Ret [mkComponent "body" [mkTextParam "text" "Ana"; mkTextParam "text" "Lima"]].
Proof. split; vm_compute; reflexivity. Qed.

End DoctorMore.
